(** * update_sponsors: a shallow embedding of [.github/workflows/update_sponsors.py]

    The script merges GitHub Sponsors and Liberapay patrons into two marker
    regions of a README.  This development embeds its pure core — amount and
    date parsing, tier classification, the per-record adapters, the
    deduplicating sort and the marker splice — together with the parts of the
    Python standard library the script calls ([decimal], [datetime], [re],
    [html], [urllib.parse.quote]), and proves properties of them.  Around
    the core it embeds the run: the reader of the CSV export, the loop over
    the pages of GitHub, [main] and the end of the script, over a world
    that answers the requests and holds the files.

    Conventions.
    - A Python [str] is a [string]; a character is an [ascii].  Characters
      outside ASCII are opaque bytes of the text's UTF-8 encoding: they are
      never white space, digits or letters.
    - A call that can raise returns a [result]; an exception the script does
      not catch ends the run.
    - A call to the world returns an [outcome] and the world after the
      call; the loop over the pages takes the number of pages it may
      request and returns nothing when more pages remain. *)

From Stdlib Require Import Bool Ascii String List ZArith NArith Lia.
From Stdlib Require Import Sorted Permutation.
Import ListNotations.

Open Scope string_scope.
Open Scope Z_scope.

(** ** Exceptions and results *)

Inductive exception : Type :=
| RuntimeError (msg : string)
| InvalidOperation
| ValueError
| OverflowError
| AttributeError
| IndexError
| Overflow
| DivisionByZero
| re_error (msg : string).

Inductive result (A : Type) : Type :=
| Ok (a : A)
| Raise (e : exception).

Arguments Ok {A} a.
Arguments Raise {A} e.

Definition bind {A B : Type} (r : result A) (k : A -> result B) : result B :=
  match r with
  | Ok a => k a
  | Raise e => Raise e
  end.

Notation "x <- r ;; k" := (bind r (fun x => k))
  (at level 61, r at next level, right associativity).

Definition raises {A : Type} (r : result A) : Prop := exists e, r = Raise e.

(** ** Strings *)

Module Str.

Definition code (c : ascii) : N := N_of_ascii c.

Definition in_range (lo hi : N) (c : ascii) : bool :=
  ((lo <=? code c) && (code c <=? hi))%N.

(** [str.isspace] on ASCII: TAB..CR, FS..US and the space. *)
Definition isspace (c : ascii) : bool :=
  in_range 9 13 c || in_range 28 32 c.

Definition isdigit (c : ascii) : bool := in_range 48 57 c.
Definition isupper (c : ascii) : bool := in_range 65 90 c.
Definition islower (c : ascii) : bool := in_range 97 122 c.
Definition isalpha (c : ascii) : bool := isupper c || islower c.
Definition isoctal (c : ascii) : bool := in_range 48 55 c.

Definition digit_value (c : ascii) : N := (code c - 48)%N.

Definition lower_char (c : ascii) : ascii :=
  if isupper c then ascii_of_N (code c + 32) else c.

Definition upper_char (c : ascii) : ascii :=
  if islower c then ascii_of_N (code c - 32) else c.

Fixpoint map (f : ascii -> ascii) (s : string) : string :=
  match s with
  | EmptyString => EmptyString
  | String c s' => String (f c) (map f s')
  end.

Definition lower : string -> string := map lower_char.
Definition upper : string -> string := map upper_char.
(** [str.casefold] agrees with [str.lower] on ASCII. *)
Definition casefold : string -> string := lower.

Fixpoint lstrip (s : string) : string :=
  match s with
  | String c s' => if isspace c then lstrip s' else s
  | EmptyString => EmptyString
  end.

Fixpoint rstrip (s : string) : string :=
  match s with
  | EmptyString => EmptyString
  | String c s' =>
      match rstrip s' with
      | EmptyString => if isspace c then EmptyString else String c EmptyString
      | t => String c t
      end
  end.

Definition strip (s : string) : string := rstrip (lstrip s).

Definition is_empty (s : string) : bool :=
  match s with EmptyString => true | _ => false end.

(** Python truthiness of a string: [not text] is [is_empty text]. *)
Definition truthy (s : string) : bool := negb (is_empty s).

(** [a or b] on strings. *)
Definition or_else (a b : string) : string := if truthy a then a else b.

Fixpoint remove_char (x : ascii) (s : string) : string :=
  match s with
  | EmptyString => EmptyString
  | String c s' =>
      if Ascii.eqb c x then remove_char x s' else String c (remove_char x s')
  end.

(** The longest prefix of characters satisfying [p], and the rest. *)
Fixpoint span (p : ascii -> bool) (s : string) : string * string :=
  match s with
  | String c s' =>
      if p c then let (a, b) := span p s' in (String c a, b)
      else (EmptyString, s)
  | EmptyString => (EmptyString, EmptyString)
  end.

Fixpoint forallb (p : ascii -> bool) (s : string) : bool :=
  match s with
  | EmptyString => true
  | String c s' => p c && forallb p s'
  end.

(** [int(s)] for a string of ASCII digits. *)
Fixpoint digits_value_from (acc : N) (s : string) : N :=
  match s with
  | EmptyString => acc
  | String c s' => digits_value_from (10 * acc + digit_value c)%N s'
  end.

Definition digits_value : string -> N := digits_value_from 0%N.

(** [s.startswith(p)], returning the remainder. *)
Fixpoint strip_prefix (p s : string) : option string :=
  match p, s with
  | EmptyString, _ => Some s
  | String a p', String b s' =>
      if Ascii.eqb a b then strip_prefix p' s' else None
  | String _ _, EmptyString => None
  end.

(** [s.find(p)]: the text before and after the first occurrence of [p]. *)
Fixpoint find (p s : string) : option (string * string) :=
  match strip_prefix p s with
  | Some rest => Some (EmptyString, rest)
  | None =>
      match s with
      | EmptyString => None
      | String c s' =>
          match find p s' with
          | Some (before, after) => Some (String c before, after)
          | None => None
          end
      end
  end.

Fixpoint replace_fuel (fuel : nat) (old new s : string) : string :=
  match fuel with
  | O => s
  | S fuel' =>
      match find old s with
      | Some (before, after) => before ++ new ++ replace_fuel fuel' old new after
      | None => s
      end
  end.

(** [s.replace(old, new)] for a non-empty [old]: every match consumes at
    least one character, so [length s] rounds suffice. *)
Definition replace (old new s : string) : string :=
  replace_fuel (String.length s) old new s.

Fixpoint concat (l : list string) : string :=
  match l with
  | [] => EmptyString
  | s :: l' => s ++ concat l'
  end.

End Str.

(** ** [decimal.Decimal] under the default context

    The script never touches the context, so every operation runs with
    [prec = 28], [ROUND_HALF_EVEN], [Emax = 999999], [Emin = -999999],
    [clamp = 0] and the traps [InvalidOperation], [DivisionByZero] and
    [Overflow]: a trapped signal is an exception.  A value is a sign, a
    coefficient and an exponent, or an infinity, or a (quiet or signaling)
    NaN with its payload. *)

Inductive Decimal : Type :=
| Finite (sign : bool) (coeff : N) (exp : Z)
| Infinity (sign : bool)
| NaN (sign : bool) (signaling : bool) (payload : N).

Inductive rounding : Type := ROUND_HALF_EVEN | ROUND_HALF_UP.

Module Dec.

Definition prec : Z := 28.
Definition Emax : Z := 999999.
Definition Emin : Z := -999999.
Definition Etiny : Z := Emin - prec + 1.
Definition Etop : Z := Emax - prec + 1.

Definition pow10 (k : Z) : N := (10 ^ Z.to_N k)%N.

Fixpoint ndigits_fuel (fuel : nat) (n : N) : Z :=
  match fuel with
  | O => 1
  | S fuel' => if (n <? 10)%N then 1 else 1 + ndigits_fuel fuel' (n / 10)%N
  end.

(** [len(str(n))]: the number of decimal digits of [n] (1 for 0). *)
Definition ndigits (n : N) : Z := ndigits_fuel (N.to_nat (N.size n)) n.

Definition is_nan (d : Decimal) : bool :=
  match d with NaN _ _ _ => true | _ => false end.

Definition is_zero (d : Decimal) : bool :=
  match d with Finite _ 0%N _ => true | _ => false end.

(** *** Construction from text: [Decimal(text)]

    The text is stripped, underscores are removed, and what is left must be
    [sign? (digits [. digits?] | . digits) ((e|E) sign? digits)?], or
    [sign? inf[inity]], or [sign? s? nan digits?] in any letter case.  The
    conversion is exact: no rounding to the context precision happens here. *)

Definition split_sign (s : string) : bool * string :=
  match s with
  | String "+" r => (false, r)
  | String "-" r => (true, r)
  | _ => (false, s)
  end.

Definition all_digits (s : string) : bool := Str.forallb Str.isdigit s.

Definition parse_exponent (s : string) : option Z :=
  match s with
  | EmptyString => Some 0
  | String c r =>
      if Ascii.eqb (Str.lower_char c) "e" then
        let (neg, ds) := split_sign r in
        if Str.truthy ds && all_digits ds then
          let v := Z.of_N (Str.digits_value ds) in
          Some (if neg then - v else v)
        else None
      else None
  end.

Definition parse_number (sign : bool) (s : string) : option Decimal :=
  let (intpart, r1) := Str.span Str.isdigit s in
  let '(fracpart, r2) :=
    match r1 with
    | String "." r => Str.span Str.isdigit r
    | _ => (EmptyString, r1)
    end in
  if Str.truthy intpart || Str.truthy fracpart then
    match parse_exponent r2 with
    | Some e =>
        Some (Finite sign (Str.digits_value (intpart ++ fracpart))
                (e - Z.of_nat (String.length fracpart)))
    | None => None
    end
  else None.

Definition parse_special (sign : bool) (s : string) : option Decimal :=
  let t := Str.lower s in
  if String.eqb t "inf" || String.eqb t "infinity" then Some (Infinity sign)
  else
    let (signaling, t1) :=
      match t with
      | String "s" r => (true, r)
      | _ => (false, t)
      end in
    match Str.strip_prefix "nan" t1 with
    | Some diag =>
        if all_digits diag then Some (NaN sign signaling (Str.digits_value diag))
        else None
    | None => None
    end.

(** [Decimal(text)]; a syntax error signals [ConversionSyntax], a kind of
    [InvalidOperation], which is trapped. *)
Definition of_string (text : string) : result Decimal :=
  let (sign, body) := split_sign (Str.remove_char "_" (Str.strip text)) in
  match parse_number sign body with
  | Some d => Ok d
  | None =>
      match parse_special sign body with
      | Some d => Ok d
      | None => Raise InvalidOperation
      end
  end.

Definition of_Z (z : Z) : Decimal := Finite (z <? 0) (Z.abs_N z) 0.

(** *** Comparison

    Ordering comparisons ([<], [<=], [>], [>=]) signal [InvalidOperation]
    when either operand is a NaN, quiet or signaling. *)

Definition signed (s : bool) (c : N) : Z :=
  if s then - Z.of_N c else Z.of_N c.

Definition cmp_finite (s1 : bool) (c1 : N) (e1 : Z)
                      (s2 : bool) (c2 : N) (e2 : Z) : comparison :=
  let m := Z.min e1 e2 in
  (signed s1 c1 * 10 ^ (e1 - m) ?= signed s2 c2 * 10 ^ (e2 - m)).

Definition compare (a b : Decimal) : option comparison :=
  match a, b with
  | NaN _ _ _, _ | _, NaN _ _ _ => None
  | Infinity s1, Infinity s2 =>
      Some (if Bool.eqb s1 s2 then Eq else if s1 then Lt else Gt)
  | Infinity s1, Finite _ _ _ => Some (if s1 then Lt else Gt)
  | Finite _ _ _, Infinity s2 => Some (if s2 then Gt else Lt)
  | Finite s1 c1 e1, Finite s2 c2 e2 => Some (cmp_finite s1 c1 e1 s2 c2 e2)
  end.

Definition ordering (test : comparison -> bool) (a b : Decimal) : result bool :=
  match compare a b with
  | Some c => Ok (test c)
  | None => Raise InvalidOperation
  end.

Definition lt := ordering (fun c => match c with Lt => true | _ => false end).
Definition le := ordering (fun c => match c with Gt => false | _ => true end).
Definition ge := ordering (fun c => match c with Lt => false | _ => true end).

(** *** Rounding to the context: [_fix] *)

(** The coefficient [c] with its last [k] digits rounded away. *)
Definition round_digits (mode : rounding) (c : N) (k : Z) : N :=
  let p := pow10 k in
  let q := (c / p)%N in
  let r := (c mod p)%N in
  match mode with
  | ROUND_HALF_UP => if (p <=? 2 * r)%N then (q + 1)%N else q
  | ROUND_HALF_EVEN =>
      if (p <? 2 * r)%N then (q + 1)%N
      else if (p =? 2 * r)%N && N.odd q then (q + 1)%N
      else q
  end.

Definition fix_nan (s signaling : bool) (payload : N) : Decimal :=
  NaN s signaling (payload mod pow10 prec)%N.

Definition _fix (d : Decimal) : result Decimal :=
  match d with
  | NaN s signaling payload => Ok (fix_nan s signaling payload)
  | Infinity _ => Ok d
  | Finite s c e =>
      if (c =? 0)%N then Ok (Finite s 0 (Z.min (Z.max e Etiny) Emax))
      else
        let exp_min := ndigits c + e - prec in
        if Etop <? exp_min then Raise Overflow
        else
          let exp_min := Z.max exp_min Etiny in
          if e <? exp_min then
            let coeff := round_digits ROUND_HALF_EVEN c (exp_min - e) in
            let (coeff, exp_min) :=
              if prec <? ndigits coeff then ((coeff / 10)%N, exp_min + 1)
              else (coeff, exp_min) in
            if Etop <? exp_min then Raise Overflow
            else Ok (Finite s coeff exp_min)
          else Ok d
  end.

(** [_check_nans]: a signaling NaN operand is an error, a quiet one is the
    result. *)
Definition check_nans (a b : Decimal) : option (result Decimal) :=
  match a, b with
  | NaN _ true _, _ => Some (Raise InvalidOperation)
  | NaN _ false _, NaN _ true _ => Some (Raise InvalidOperation)
  | NaN s false p, _ => Some (Ok (fix_nan s false p))
  | _, NaN _ true _ => Some (Raise InvalidOperation)
  | _, NaN s false p => Some (Ok (fix_nan s false p))
  | _, _ => None
  end.

Definition sign_of (d : Decimal) : bool :=
  match d with
  | Finite s _ _ | Infinity s | NaN s _ _ => s
  end.

(** *** [a * b] *)
Definition mul (a b : Decimal) : result Decimal :=
  let s := xorb (sign_of a) (sign_of b) in
  match check_nans a b with
  | Some r => r
  | None =>
      match a, b with
      | Finite _ c1 e1, Finite _ c2 e2 => _fix (Finite s (c1 * c2) (e1 + e2))
      | Infinity _, other | other, Infinity _ =>
          if is_zero other then Raise InvalidOperation else Ok (Infinity s)
      | _, _ => Raise InvalidOperation
      end
  end.

(** The quotient digits of [__truediv__] before the final [_fix]: one guard
    digit beyond the precision, made sticky when the division is inexact, or
    the exact quotient brought as close to the ideal exponent as possible. *)
Fixpoint strip_zeros (fuel : nat) (coeff : N) (exp ideal : Z) : N * Z :=
  match fuel with
  | O => (coeff, exp)
  | S fuel' =>
      if (exp <? ideal) && (coeff mod 10 =? 0)%N
      then strip_zeros fuel' (coeff / 10)%N (exp + 1) ideal
      else (coeff, exp)
  end.

Definition div_digits (c1 : N) (e1 : Z) (c2 : N) (e2 : Z) : N * Z :=
  let shift := ndigits c2 - ndigits c1 + prec + 1 in
  let exp := e1 - e2 - shift in
  let num := if 0 <=? shift then (c1 * pow10 shift)%N else c1 in
  let den := if 0 <=? shift then c2 else (c2 * pow10 (- shift))%N in
  let coeff := (num / den)%N in
  let remainder := (num mod den)%N in
  if (remainder =? 0)%N
  then strip_zeros (Z.to_nat (e1 - e2 - exp)) coeff exp (e1 - e2)
  else (if (coeff mod 5 =? 0)%N then (coeff + 1)%N else coeff, exp).

(** *** [a / b] *)
Definition div (a b : Decimal) : result Decimal :=
  let s := xorb (sign_of a) (sign_of b) in
  match check_nans a b with
  | Some r => r
  | None =>
      match a, b with
      | Infinity _, Infinity _ => Raise InvalidOperation
      | Infinity _, _ => Ok (Infinity s)
      | _, Infinity _ => Ok (Finite s 0 Etiny)
      | Finite _ c1 e1, Finite _ c2 e2 =>
          if (c2 =? 0)%N then
            if (c1 =? 0)%N then Raise InvalidOperation else Raise DivisionByZero
          else if (c1 =? 0)%N then _fix (Finite s 0 (e1 - e2))
          else let (coeff, exp) := div_digits c1 e1 c2 e2 in
               _fix (Finite s coeff exp)
      | _, _ => Raise InvalidOperation
      end
  end.

(** [_rescale]: the value at exponent [exp], padded with zeros or rounded. *)
Definition rescale (s : bool) (c : N) (e exp : Z) (mode : rounding) : Decimal :=
  if (c =? 0)%N then Finite s 0 exp
  else if exp <=? e then Finite s (c * pow10 (e - exp)) exp
  else Finite s (round_digits mode c (exp - e)) exp.

Definition adjusted (c : N) (e : Z) : Z := e + ndigits c - 1.

(** *** [a.quantize(q, rounding=mode)] *)
Definition quantize (a q : Decimal) (mode : rounding) : result Decimal :=
  match check_nans a q with
  | Some r => r
  | None =>
      match a, q with
      | Infinity _, Infinity _ => Ok a
      | Finite s c e, Finite _ _ exp =>
          if negb ((Etiny <=? exp) && (exp <=? Emax)) then Raise InvalidOperation
          else if (c =? 0)%N then _fix (Finite s 0 exp)
          else if Emax <? adjusted c e then Raise InvalidOperation
          else if prec <? adjusted c e - exp + 1 then Raise InvalidOperation
          else
            match rescale s c e exp mode with
            | Finite s' c' e' =>
                if Emax <? adjusted c' e' then Raise InvalidOperation
                else if prec <? ndigits c' then Raise InvalidOperation
                else _fix (Finite s' c' e')
            | other => Ok other
            end
      | _, _ => Raise InvalidOperation
      end
  end.

End Dec.

(** ** Python values read from JSON and CSV

    [json.loads] yields [None], booleans, integers, floats, strings, lists
    and dictionaries.  A float is kept as the text [str] prints for it and
    whether it is non-zero, which is all the script observes of it.  The
    printed form of a list or a dictionary is a bracketed text, abbreviated
    here to its brackets. *)

Set Warnings "-register-all".

Inductive json : Type :=
| JNull
| JBool (b : bool)
| JInt (n : Z)
| JFloat (nonzero : bool) (text : string)
| JStr (s : string)
| JList (items : list json)
| JObject (fields : list (string * json)).

Module Py.

Definition decimal_digit (d : N) : ascii := ascii_of_N (48 + d).

Fixpoint str_of_N_fuel (fuel : nat) (n : N) (acc : string) : string :=
  match fuel with
  | O => acc
  | S fuel' =>
      let acc' := String (decimal_digit (n mod 10)) acc in
      if (n <? 10)%N then acc' else str_of_N_fuel fuel' (n / 10)%N acc'
  end.

Definition str_of_N (n : N) : string :=
  str_of_N_fuel (S (N.to_nat (N.size n))) n EmptyString.

Definition str_of_Z (z : Z) : string :=
  if z <? 0 then String "-" (str_of_N (Z.abs_N z)) else str_of_N (Z.abs_N z).

(** [str(value)] *)
Definition str (value : json) : string :=
  match value with
  | JNull => "None"
  | JBool true => "True"
  | JBool false => "False"
  | JInt n => str_of_Z n
  | JFloat _ text => text
  | JStr s => s
  | JList _ => "[...]"
  | JObject _ => "{...}"
  end.

(** Truth value of an object. *)
Definition truthy (value : json) : bool :=
  match value with
  | JNull => false
  | JBool b => b
  | JInt n => negb (n =? 0)
  | JFloat nonzero _ => nonzero
  | JStr s => Str.truthy s
  | JList items => match items with [] => false | _ => true end
  | JObject fields => match fields with [] => false | _ => true end
  end.

(** [a or b] *)
Definition or_else (a b : json) : json := if truthy a then a else b.

Fixpoint lookup {V : Type} (key : string) (fields : list (string * V)) : option V :=
  match fields with
  | [] => None
  | (k, v) :: rest => if String.eqb k key then Some v else lookup key rest
  end.

(** [obj.get(key)]: only a dictionary has the method. *)
Definition get (obj : json) (key : string) : result json :=
  match obj with
  | JObject fields =>
      Ok (match lookup key fields with Some v => v | None => JNull end)
  | _ => Raise AttributeError
  end.

(** [obj.strip()]: only a string has the method. *)
Definition strip (obj : json) : result string :=
  match obj with
  | JStr s => Ok (Str.strip s)
  | _ => Raise AttributeError
  end.

(** [try: body except kind: return fallback] *)
Definition try_except {A : Type} (body : result A)
    (caught : exception -> bool) (fallback : A) : result A :=
  match body with
  | Ok a => Ok a
  | Raise e => if caught e then Ok fallback else Raise e
  end.

Definition is_InvalidOperation (e : exception) : bool :=
  match e with InvalidOperation => true | _ => false end.

Definition is_ValueError (e : exception) : bool :=
  match e with ValueError => true | _ => false end.

End Py.

(** ** The script: records *)

Record Thresholds : Type := {
  github_regular_monthly_minimum : Decimal;
  github_highlighted_monthly_minimum : Decimal;
  liberapay_regular_weekly_minimum : Decimal;
  liberapay_highlighted_weekly_minimum : Decimal
}.

(** ** Amount parsing and classification *)

Definition parse_decimal (value : json) : result (option Decimal) :=
  match value with
  | JNull => Ok None
  | _ =>
      let text := Str.strip (Py.str value) in
      if negb (Str.truthy text) then Ok None
      else
        Py.try_except (d <- Dec.of_string text ;; Ok (Some d))
          Py.is_InvalidOperation None
  end.

(** The four threshold arguments of the command line, already converted by
    [decimal_arg]. *)
Record Namespace : Type := {
  args_github_regular_monthly_minimum : Decimal;
  args_github_highlighted_monthly_minimum : Decimal;
  args_liberapay_regular_weekly_minimum : Decimal;
  args_liberapay_highlighted_weekly_minimum : Decimal
}.

Fixpoint check_non_negative (values : list Decimal) : result unit :=
  match values with
  | [] => Ok tt
  | value :: rest =>
      negative <- Dec.lt value (Dec.of_Z 0) ;;
      if negative then Raise (RuntimeError "Threshold values must be non-negative.")
      else check_non_negative rest
  end.

Definition build_thresholds (args : Namespace) : result Thresholds :=
  let thresholds := {|
    github_regular_monthly_minimum := args_github_regular_monthly_minimum args;
    github_highlighted_monthly_minimum := args_github_highlighted_monthly_minimum args;
    liberapay_regular_weekly_minimum := args_liberapay_regular_weekly_minimum args;
    liberapay_highlighted_weekly_minimum := args_liberapay_highlighted_weekly_minimum args
  |} in
  _ <- check_non_negative
         [github_regular_monthly_minimum thresholds;
          github_highlighted_monthly_minimum thresholds;
          liberapay_regular_weekly_minimum thresholds;
          liberapay_highlighted_weekly_minimum thresholds] ;;
  github_bad <- Dec.lt (github_highlighted_monthly_minimum thresholds)
                       (github_regular_monthly_minimum thresholds) ;;
  if github_bad then
    Raise (RuntimeError "GitHub highlighted minimum must be greater than or equal to the GitHub regular minimum.")
  else
    liberapay_bad <- Dec.lt (liberapay_highlighted_weekly_minimum thresholds)
                            (liberapay_regular_weekly_minimum thresholds) ;;
    if liberapay_bad then
      Raise (RuntimeError "Liberapay highlighted minimum must be greater than or equal to the Liberapay regular minimum.")
    else Ok thresholds.

Definition monthly_tier (monthly_amount regular_minimum highlighted_minimum : Decimal)
  : result (option string) :=
  is_highlighted <- Dec.ge monthly_amount highlighted_minimum ;;
  if is_highlighted then Ok (Some "highlighted")
  else
    above_regular <- Dec.le regular_minimum monthly_amount ;;
    if above_regular then
      below_highlighted <- Dec.lt monthly_amount highlighted_minimum ;;
      if below_highlighted then Ok (Some "regular") else Ok None
    else Ok None.

Definition liberapay_tier (weekly_amount annual_amount : Decimal)
    (thresholds : Thresholds) : result (option string) :=
  is_highlighted <- Dec.ge weekly_amount (liberapay_highlighted_weekly_minimum thresholds) ;;
  if is_highlighted then Ok (Some "highlighted")
  else
    is_regular <- Dec.ge weekly_amount (liberapay_regular_weekly_minimum thresholds) ;;
    if is_regular then Ok (Some "regular") else Ok None.

(** ** [datetime.datetime]

    A datetime is its calendar fields and, when it is aware, the offset of
    its time zone from UTC in microseconds.  [fromisoformat] follows the
    documented grammar of the texts [isoformat] emits,
    [YYYY-MM-DD[*HH[:MM[:SS[.fff[fff]]]][+HH:MM[:SS[.ffffff]]]]]; later
    CPython releases accept further ISO 8601 spellings, which are malformed
    here. *)

Record datetime : Type := {
  year : Z; month : Z; day : Z;
  hour : Z; minute : Z; second : Z; microsecond : Z;
  utcoffset : option Z
}.

Module DT.

Definition MINYEAR : Z := 1.
Definition MAXYEAR : Z := 9999.

Definition _is_leap (y : Z) : bool :=
  (y mod 4 =? 0) && (negb (y mod 100 =? 0) || (y mod 400 =? 0)).

Definition _days_before_year (y : Z) : Z :=
  let y := y - 1 in y * 365 + y / 4 - y / 100 + y / 400.

Definition _DAYS_IN_MONTH (m : Z) : Z :=
  if m =? 2 then 28
  else if (m =? 4) || (m =? 6) || (m =? 9) || (m =? 11) then 30
  else 31.

Definition _DAYS_BEFORE_MONTH (m : Z) : Z :=
  nth (Z.to_nat m) [0; 0; 31; 59; 90; 120; 151; 181; 212; 243; 273; 304; 334] 0.

Definition _days_in_month (y m : Z) : Z :=
  if (m =? 2) && _is_leap y then 29 else _DAYS_IN_MONTH m.

Definition _days_before_month (y m : Z) : Z :=
  _DAYS_BEFORE_MONTH m + (if (2 <? m) && _is_leap y then 1 else 0).

Definition _ymd2ord (y m d : Z) : Z :=
  _days_before_year y + _days_before_month y m + d.

Definition _DI400Y : Z := 146097.
Definition _DI100Y : Z := 36524.
Definition _DI4Y : Z := 1461.
Definition _MAXORDINAL : Z := 3652059.

Definition _ord2ymd (n : Z) : Z * Z * Z :=
  let n := n - 1 in
  let n400 := n / _DI400Y in let n := n mod _DI400Y in
  let y := n400 * 400 + 1 in
  let n100 := n / _DI100Y in let n := n mod _DI100Y in
  let n4 := n / _DI4Y in let n := n mod _DI4Y in
  let n1 := n / 365 in let n := n mod 365 in
  let y := y + n100 * 100 + n4 * 4 + n1 in
  if (n1 =? 4) || (n100 =? 4) then (y - 1, 12, 31)
  else
    let leapyear := (n1 =? 3) && (negb (n4 =? 24) || (n100 =? 3)) in
    let m := Z.shiftr (n + 50) 5 in
    let preceding := _DAYS_BEFORE_MONTH m + (if (2 <? m) && leapyear then 1 else 0) in
    if n <? preceding then
      let m := m - 1 in
      let preceding :=
        preceding - (_DAYS_IN_MONTH m + (if (m =? 2) && leapyear then 1 else 0)) in
      (y, m, n - preceding + 1)
    else (y, m, n - preceding + 1).

Definition US_PER_SECOND : Z := 1000000.
Definition US_PER_DAY : Z := 86400 * US_PER_SECOND.

(** The constructor's range checks. *)
Definition valid_fields (y m d hh mm ss us : Z) : bool :=
  (MINYEAR <=? y) && (y <=? MAXYEAR) && (1 <=? m) && (m <=? 12) &&
  (1 <=? d) && (d <=? _days_in_month y m) &&
  (0 <=? hh) && (hh <=? 23) && (0 <=? mm) && (mm <=? 59) &&
  (0 <=? ss) && (ss <=? 59) && (0 <=? us) && (us <=? 999999).

(** Microseconds between 0001-01-01T00:00:00 and the fields read as they
    stand, without regard to the offset. *)
Definition field_micros (d : datetime) : Z :=
  (_ymd2ord (year d) (month d) (day d) - 1) * US_PER_DAY
  + ((hour d * 60 + minute d) * 60 + second d) * US_PER_SECOND
  + microsecond d.

(** The instant of an aware datetime on the UTC time line. *)
Definition utc_micros (d : datetime) : Z :=
  field_micros d - match utcoffset d with Some off => off | None => 0 end.

(** [n] ASCII digits read as a number, and the rest. *)
Fixpoint parse_digits (n : nat) (s : string) : option (Z * string) :=
  match n with
  | O => Some (0, s)
  | S n' =>
      match s with
      | String c r =>
          if Str.isdigit c then
            match parse_digits n' r with
            | Some (v, rest) =>
                Some (Z.of_N (Str.digit_value c) * 10 ^ Z.of_nat n' + v, rest)
            | None => None
            end
          else None
      | EmptyString => None
      end
  end.

Definition expect (c : ascii) (s : string) : option string :=
  match s with
  | String c' r => if Ascii.eqb c c' then Some r else None
  | EmptyString => None
  end.

(** [.fff] or [.ffffff] up to the end of [s], in microseconds. *)
Definition parse_fraction (s : string) : option Z :=
  match String.length s with
  | 3%nat => match parse_digits 3 s with Some (v, _) => Some (v * 1000) | None => None end
  | 6%nat => match parse_digits 6 s with Some (v, _) => Some v | None => None end
  | _ => None
  end.

(** [HH[:MM[:SS[.fff[fff]]]]] up to the end of [s]. *)
Definition parse_hh_mm_ss_ff (s : string) : option (Z * Z * Z * Z) :=
  match parse_digits 2 s with
  | None => None
  | Some (hh, EmptyString) => Some (hh, 0, 0, 0)
  | Some (hh, r1) =>
      match expect ":" r1 with
      | None => None
      | Some r1' =>
          match parse_digits 2 r1' with
          | None => None
          | Some (mm, EmptyString) => Some (hh, mm, 0, 0)
          | Some (mm, r2) =>
              match expect ":" r2 with
              | None => None
              | Some r2' =>
                  match parse_digits 2 r2' with
                  | None => None
                  | Some (ss, EmptyString) => Some (hh, mm, ss, 0)
                  | Some (ss, r3) =>
                      match expect "." r3 with
                      | None => None
                      | Some frac =>
                          match parse_fraction frac with
                          | Some us => Some (hh, mm, ss, us)
                          | None => None
                          end
                      end
                  end
              end
          end
      end
  end.

Definition is_sign (c : ascii) : bool := Ascii.eqb c "+" || Ascii.eqb c "-".

Definition has_tz_length (s : string) : bool :=
  let n := String.length s in
  Nat.eqb n 5 || Nat.eqb n 8 || Nat.eqb n 15.

(** The time zone suffix: absent, or an offset strictly within a day. *)
Definition parse_tz (s : string) : option (option Z) :=
  match s with
  | EmptyString => Some None
  | String sign tzstr =>
      if is_sign sign && has_tz_length tzstr then
        match parse_hh_mm_ss_ff tzstr with
        | Some (hh, mm, ss, us) =>
            let off := ((hh * 60 + mm) * 60 + ss) * US_PER_SECOND + us in
            if off <? US_PER_DAY
            then Some (Some (if Ascii.eqb sign "-" then - off else off))
            else None
        | None => None
        end
      else None
  end.

Definition parse_time (s : string) : option (Z * Z * Z * Z * option Z) :=
  let (timestr, tzpart) := Str.span (fun c => negb (is_sign c)) s in
  match parse_hh_mm_ss_ff timestr, parse_tz tzpart with
  | Some (hh, mm, ss, us), Some tz => Some (hh, mm, ss, us, tz)
  | _, _ => None
  end.

Definition parse_date (s : string) : option (Z * Z * Z * string) :=
  match parse_digits 4 s with
  | Some (y, r) =>
      match expect "-" r with
      | Some r =>
          match parse_digits 2 r with
          | Some (m, r) =>
              match expect "-" r with
              | Some r =>
                  match parse_digits 2 r with
                  | Some (d, r) => Some (y, m, d, r)
                  | None => None
                  end
              | None => None
              end
          | None => None
          end
      | None => None
      end
  | None => None
  end.

Definition make (y m d hh mm ss us : Z) (tz : option Z) : result datetime :=
  if valid_fields y m d hh mm ss us then
    Ok {| year := y; month := m; day := d; hour := hh; minute := mm;
          second := ss; microsecond := us; utcoffset := tz |}
  else Raise ValueError.

(** [datetime.fromisoformat(text)] *)
Definition fromisoformat (text : string) : result datetime :=
  match parse_date text with
  | Some (y, m, d, EmptyString) => make y m d 0 0 0 0 None
  | Some (y, m, d, String _separator tstr) =>
      match parse_time tstr with
      | Some (hh, mm, ss, us, tz) => make y m d hh mm ss us tz
      | None => Raise ValueError
      end
  | None => Raise ValueError
  end.

(** The aware UTC datetime at a number of microseconds after
    0001-01-01T00:00:00+00:00; outside the representable years the date
    arithmetic raises [OverflowError]. *)
Definition of_utc_micros (t : Z) : result datetime :=
  let ordinal := t / US_PER_DAY + 1 in
  let rest := t mod US_PER_DAY in
  if (1 <=? ordinal) && (ordinal <=? _MAXORDINAL) then
    let '(y, m, d) := _ord2ymd ordinal in
    let secs := rest / US_PER_SECOND in
    Ok {| year := y; month := m; day := d;
          hour := secs / 3600; minute := (secs / 60) mod 60; second := secs mod 60;
          microsecond := rest mod US_PER_SECOND; utcoffset := Some 0 |}
  else Raise OverflowError.

Section Astimezone.

(** The conversion of a naive datetime, read as local time of the machine
    the script runs on, to UTC.  It depends on the system time zone. *)
Variable local_to_utc : datetime -> result datetime.

(** [d.astimezone(timezone.utc)] *)
Definition astimezone_utc (d : datetime) : result datetime :=
  match utcoffset d with
  | Some off => of_utc_micros (field_micros d - off)
  | None => local_to_utc d
  end.

End Astimezone.

End DT.

(** ** [urllib.parse.quote] and [html.escape] *)

Module Url.

Definition hex_digit (n : N) : ascii :=
  if (n <? 10)%N then ascii_of_N (48 + n) else ascii_of_N (55 + n).

Definition always_safe (c : ascii) : bool :=
  Str.isalpha c || Str.isdigit c ||
  Ascii.eqb c "_" || Ascii.eqb c "." || Ascii.eqb c "-" || Ascii.eqb c "~".

(** [quote(s)] with the default [safe="/"]. *)
Fixpoint quote (s : string) : string :=
  match s with
  | EmptyString => EmptyString
  | String c r =>
      if always_safe c || Ascii.eqb c "/" then String c (quote r)
      else String "%" (String (hex_digit (Str.code c / 16))
                         (String (hex_digit (Str.code c mod 16)) (quote r)))
  end.

End Url.

Module Html.

Definition dquote : ascii := ascii_of_N 34.

(** [html.escape(s, quote=True)] *)
Fixpoint escape (s : string) : string :=
  match s with
  | EmptyString => EmptyString
  | String c r =>
      (if Ascii.eqb c "&" then "&amp;"
       else if Ascii.eqb c "<" then "&lt;"
       else if Ascii.eqb c ">" then "&gt;"
       else if Ascii.eqb c dquote then "&quot;"
       else if Ascii.eqb c "'" then "&#x27;"
       else String c EmptyString) ++ escape r
  end.

End Html.

(** ** Date parsing *)

Section Adapters.

(** How the machine running the script converts a naive local time to UTC. *)
Variable local_to_utc : datetime -> result datetime.

Definition parse_started_at (value : string) (date_only : bool)
  : result (option datetime) :=
  let text := Str.strip value in
  if negb (Str.truthy text) then Ok None
  else
    Py.try_except
      (if date_only then
         d <- DT.fromisoformat (text ++ "T00:00:00+00:00") ;;
         Ok (Some d)
       else
         d <- DT.fromisoformat (Str.replace "Z" "+00:00" text) ;;
         u <- DT.astimezone_utc local_to_utc d ;;
         Ok (Some u))
      Py.is_ValueError None.

(** ** Sponsors *)

Record Sponsor : Type := {
  platform : string;
  key : string;
  name : string;
  profile_url : string;
  avatar_url : string;
  started_at : datetime;
  tier : string;
  monthly_amount : Decimal;
  currency : string
}.

Definition WEEKS_PER_YEAR : Decimal := Finite false 52 0.
Definition MONTHS_PER_YEAR : Decimal := Finite false 12 0.
Definition LIBERAPAY_AVATAR_FALLBACK : string :=
  "https://liberapay.com/assets/liberapay/icon-v2_black.200.png".
Definition SUPPORTED_CURRENCIES : list string := ["USD"; "EUR"].
Definition REGULAR_WIDTH : string := "80px".
Definition HIGHLIGHTED_WIDTH : string := "120px".

(** ** The Liberapay adapter: one row of the CSV export

    [csv.DictReader] gives a dictionary from column names to texts; a column
    missing from a short row reads as [None]. *)

Definition csv_row : Type := list (string * option string).

Definition row_get (row : csv_row) (column : string) : option string :=
  match Py.lookup column row with
  | Some v => v
  | None => None
  end.

(** [row.get(column) or fallback] *)
Definition row_get_or (row : csv_row) (column fallback : string) : string :=
  match row_get row column with
  | Some s => Str.or_else s fallback
  | None => fallback
  end.

Definition json_of_field (v : option string) : json :=
  match v with
  | Some s => JStr s
  | None => JNull
  end.

(** The body of the loop of [fetch_liberapay_sponsors]: [Ok None] is
    [continue], [Ok (Some s)] appends [s]. *)
Definition liberapay_row (thresholds : Thresholds) (row : csv_row)
  : result (option Sponsor) :=
  let sponsor_username := Str.strip (row_get_or row "patron_username" EmptyString) in
  if negb (Str.truthy sponsor_username) then Ok None
  else
    let currency := Str.upper (Str.strip (row_get_or row "donation_currency" EmptyString)) in
    if negb (existsb (String.eqb currency) SUPPORTED_CURRENCIES) then Ok None
    else
      weekly <- parse_decimal (json_of_field (row_get row "weekly_amount")) ;;
      match weekly with
      | None => Ok None
      | Some weekly_amount =>
          started <- parse_started_at (row_get_or row "pledge_date" EmptyString) true ;;
          match started with
          | None => Ok None
          | Some started_at =>
              annual_amount <- Dec.mul weekly_amount WEEKS_PER_YEAR ;;
              tier <- liberapay_tier weekly_amount annual_amount thresholds ;;
              match tier with
              | None => Ok None
              | Some tier =>
                  monthly <- Dec.div annual_amount MONTHS_PER_YEAR ;;
                  monthly_amount <- Dec.quantize monthly (Finite false 1 (-2)) ROUND_HALF_UP ;;
                  let display_name :=
                    Str.or_else
                      (Str.strip (row_get_or row "patron_public_name" sponsor_username))
                      sponsor_username in
                  let avatar_url :=
                    Str.or_else
                      (Str.strip (row_get_or row "patron_avatar_url" EmptyString))
                      LIBERAPAY_AVATAR_FALLBACK in
                  Ok (Some {|
                    platform := "liberapay";
                    key := Str.lower sponsor_username;
                    name := display_name;
                    profile_url := "https://liberapay.com/" ++ Url.quote sponsor_username;
                    avatar_url := avatar_url;
                    started_at := started_at;
                    tier := tier;
                    monthly_amount := monthly_amount;
                    currency := currency |})
              end
          end
      end.

(** ** The GitHub adapter: one sponsorship node

    A node is a dictionary; the objects under it are whatever the response
    carries. *)

Definition dict : Type := list (string * json).

Definition dict_get (d : dict) (k : string) : json :=
  match Py.lookup k d with
  | Some v => v
  | None => JNull
  end.

(** [value != text] *)
Definition differs_from (value : json) (text : string) : bool :=
  match value with
  | JStr s => negb (String.eqb s text)
  | _ => true
  end.

(** The price of the tier in one of its two fields. *)
Definition tier_price (node : dict) (field : string) : result (option Decimal) :=
  value <- Py.get (Py.or_else (dict_get node "tier") (JObject [])) field ;;
  parse_decimal value.

(** The body of the node loop of [fetch_github_sponsors]: [Ok None] is
    [continue], [Ok (Some s)] appends [s]. *)
Definition github_node (thresholds : Thresholds) (node : dict)
  : result (option Sponsor) :=
  if negb (Py.truthy (dict_get node "isActive"))
     || Py.truthy (dict_get node "isOneTimePayment") then Ok None
  else if differs_from (dict_get node "privacyLevel") "PUBLIC" then Ok None
  else
    let sponsor_entity := Py.or_else (dict_get node "sponsorEntity") (JObject []) in
    login_field <- Py.get sponsor_entity "login" ;;
    sponsor_login <- Py.strip (Py.or_else login_field (JStr EmptyString)) ;;
    url_field <- Py.get sponsor_entity "url" ;;
    sponsor_url <- Py.strip (Py.or_else url_field (JStr EmptyString)) ;;
    if negb (Str.truthy sponsor_login) || negb (Str.truthy sponsor_url) then Ok None
    else
      created <- Py.strip (Py.or_else (dict_get node "createdAt") (JStr EmptyString)) ;;
      started <- parse_started_at created false ;;
      match started with
      | None => Ok None
      | Some started_at =>
          cents <- tier_price node "monthlyPriceInCents" ;;
          amount <-
            match cents with
            | None =>
                dollars <- tier_price node "monthlyPriceInDollars" ;;
                match dollars with
                | None => Ok None
                | Some dollars => Ok (Some dollars)
                end
            | Some cents =>
                monthly_amount <- Dec.div cents (Finite false 100 0) ;;
                Ok (Some monthly_amount)
            end ;;
          match amount with
          | None => Ok None
          | Some monthly_amount =>
              tier <- monthly_tier monthly_amount
                        (github_regular_monthly_minimum thresholds)
                        (github_highlighted_monthly_minimum thresholds) ;;
              match tier with
              | None => Ok None
              | Some tier =>
                  name_field <- Py.get sponsor_entity "name" ;;
                  stripped_name <- Py.strip (Py.or_else name_field (JStr sponsor_login)) ;;
                  Ok (Some {|
                    platform := "github";
                    key := Str.lower sponsor_login;
                    name := Str.or_else stripped_name sponsor_login;
                    profile_url := sponsor_url;
                    avatar_url := "https://github.com/" ++ Url.quote sponsor_login ++ ".png";
                    started_at := started_at;
                    tier := tier;
                    monthly_amount := monthly_amount;
                    currency := "USD" |})
              end
          end
      end.

(** [for node in nodes: ...]: the sponsors of one page, or the first
    exception a node raises. *)
Fixpoint github_nodes (thresholds : Thresholds) (nodes : list dict)
  : result (list Sponsor) :=
  match nodes with
  | [] => Ok []
  | node :: rest =>
      s <- github_node thresholds node ;;
      sponsors <- github_nodes thresholds rest ;;
      Ok (match s with Some s => s :: sponsors | None => sponsors end)
  end.

End Adapters.

(** ** Merge and rank *)

Definition identity (s : Sponsor) : string * string := (platform s, key s).

Definition identity_eqb (a b : string * string) : bool :=
  String.eqb (fst a) (fst b) && String.eqb (snd a) (snd b).

(** [d[k] = v] on an insertion-ordered dictionary: a present key keeps its
    place and takes the new value, a new key goes last. *)
Fixpoint dict_set {V : Type} (k : string * string) (v : V)
    (d : list ((string * string) * V)) : list ((string * string) * V) :=
  match d with
  | [] => [(k, v)]
  | (k', v') :: rest =>
      if identity_eqb k' k then (k', v) :: rest
      else (k', v') :: dict_set k v rest
  end.

(** [for sponsor in sponsors: unique[(sponsor.platform, sponsor.key)] = sponsor] *)
Fixpoint collect (sponsors : list Sponsor)
    (unique : list ((string * string) * Sponsor)) : list ((string * string) * Sponsor) :=
  match sponsors with
  | [] => unique
  | sponsor :: rest => collect rest (dict_set (identity sponsor) sponsor unique)
  end.

Definition values {K V : Type} (d : list (K * V)) : list V := List.map snd d.

(** The sort key.  Every [started_at] the adapters build is aware, and aware
    datetimes compare by their instant. *)
Definition sort_key (s : Sponsor) : Z * string * string * string :=
  (DT.utc_micros (started_at s), Str.casefold (name s), platform s, key s).

Definition lex (c1 c2 : comparison) : comparison :=
  match c1 with Eq => c2 | _ => c1 end.

Definition pair_compare {A B : Type} (ca : A -> A -> comparison)
    (cb : B -> B -> comparison) (x y : A * B) : comparison :=
  lex (ca (fst x) (fst y)) (cb (snd x) (snd y)).

(** Tuples compare lexicographically, strings by code point. *)
Definition sort_key_compare : Z * string * string * string ->
                              Z * string * string * string -> comparison :=
  pair_compare
    (pair_compare (pair_compare Z.compare String.compare) String.compare)
    String.compare.

Definition key_lt (a b : Sponsor) : bool :=
  match sort_key_compare (sort_key a) (sort_key b) with Lt => true | _ => false end.

(** [sorted] is stable: an element goes before the first one that is not
    smaller than it, and elements are placed from the last to the first. *)
Fixpoint insert_sorted (x : Sponsor) (l : list Sponsor) : list Sponsor :=
  match l with
  | [] => [x]
  | y :: rest => if key_lt y x then y :: insert_sorted x rest else x :: y :: rest
  end.

Fixpoint sorted (l : list Sponsor) : list Sponsor :=
  match l with
  | [] => []
  | x :: rest => insert_sorted x (sorted rest)
  end.

Definition sort_and_dedupe (sponsors : list Sponsor) : list Sponsor :=
  sorted (values (collect sponsors [])).

(** The list [main] ranks: Liberapay's sponsors, when a username was given,
    in front of GitHub's. *)
Definition merged (liberapay : option (list Sponsor)) (github : list Sponsor)
  : list Sponsor :=
  match liberapay with
  | Some patrons => patrons ++ github
  | None => github
  end.

Definition with_tier (t : string) (sponsors : list Sponsor) : list Sponsor :=
  sort_and_dedupe (filter (fun sponsor => String.eqb (tier sponsor) t) sponsors).

(** ** Rendering *)

Definition quoted (s : string) : string :=
  String Html.dquote s ++ String Html.dquote EmptyString.

Definition render_sponsor (sponsor : Sponsor) (width : string) : string :=
  "<a href=" ++ quoted (Html.escape (profile_url sponsor)) ++ ">"
  ++ "<img src=" ++ quoted (Html.escape (avatar_url sponsor)) ++ " "
  ++ "width=" ++ quoted width ++ " alt=" ++ quoted (Html.escape (name sponsor))
  ++ " /></a>&nbsp;&nbsp;".

Definition render_all (sponsors : list Sponsor) (width : string) : string :=
  Str.concat (List.map (fun sponsor => render_sponsor sponsor width) sponsors).

(** ** [re]: the one pattern and its substitution template

    [replace_marker] compiles [<!-- M -->.*?<!-- M -->] with [re.DOTALL],
    where [M] is the escaped marker: two literal sentinels around a lazy
    run of any characters.  The pattern has no groups.  The replacement is a
    template: [pattern.subn] parses it for backslash escapes before it
    searches.  An [re.error] carries the reason Python gives, without the
    position and the quoted fragment. *)

Module Re.

Inductive piece : Type :=
| Lit (text : string)
| Group (index : N).

Definition backslash : ascii := "\".

(** The tokenizer reads a character, or a backslash together with the
    character after it, and always holds the next token in advance. *)
Definition advance (rest : string) : result (option string * string) :=
  match rest with
  | EmptyString => Ok (None, EmptyString)
  | String c r =>
      if Ascii.eqb c backslash then
        match r with
        | EmptyString => Raise (re_error "bad escape (end of pattern)")
        | String c' r' => Ok (Some (String c (String c' EmptyString)), r')
        end
      else Ok (Some (String c EmptyString), r)
  end.

Definition single (p : ascii -> bool) (token : option string) : option ascii :=
  match token with
  | Some (String c EmptyString) => if p c then Some c else None
  | _ => None
  end.

Definition is_token (c : ascii) (token : option string) : bool :=
  match single (Ascii.eqb c) token with Some _ => true | None => false end.

Fixpoint getuntil (fuel : nat) (next : option string) (rest : string)
    (acc : string) : result (string * (option string * string)) :=
  match fuel with
  | O => Raise (re_error "missing >, unterminated name")
  | S fuel' =>
      match next with
      | None =>
          Raise (re_error (if Str.truthy acc then "missing >, unterminated name"
                           else "missing group name"))
      | Some c =>
          st <- advance rest ;;
          if String.eqb c ">" then
            if Str.truthy acc then Ok (acc, st)
            else Raise (re_error "missing group name")
          else getuntil fuel' (fst st) (snd st) (acc ++ c)
      end
  end.

Definition is_identifier (s : string) : bool :=
  match s with
  | EmptyString => false
  | String c r =>
      (Str.isalpha c || Ascii.eqb c "_")
      && Str.forallb (fun x => Str.isalpha x || Str.isdigit x || Ascii.eqb x "_") r
  end.

Fixpoint octal_value_from (acc : N) (s : string) : N :=
  match s with
  | EmptyString => acc
  | String c r => octal_value_from (8 * acc + Str.digit_value c)%N r
  end.

(** [chr(n)] for [n < 256], in UTF-8. *)
Definition chr (n : N) : string :=
  if (n <? 128)%N then String (ascii_of_N n) EmptyString
  else String (ascii_of_N (192 + n / 64))
         (String (ascii_of_N (128 + n mod 64)) EmptyString).

Definition ESCAPES (c : ascii) : option N :=
  if Ascii.eqb c "a" then Some 7%N
  else if Ascii.eqb c "b" then Some 8%N
  else if Ascii.eqb c "f" then Some 12%N
  else if Ascii.eqb c "n" then Some 10%N
  else if Ascii.eqb c "r" then Some 13%N
  else if Ascii.eqb c "t" then Some 9%N
  else if Ascii.eqb c "v" then Some 11%N
  else if Ascii.eqb c backslash then Some 92%N
  else None.

Definition invalid_group {A : Type} (index : N) : result A :=
  Raise (re_error ("invalid group reference " ++ Py.str_of_N index)).

(** [addgroup]: the pattern has no groups, so only group 0, the whole
    match, can be referred to. *)
Definition addgroup (index : N) (literal : string) (acc : list piece)
  : result (list piece) :=
  if (0 <? index)%N then invalid_group index
  else Ok (acc ++ [Lit literal; Group index])%list.

Fixpoint template_loop (fuel : nat) (next : option string) (rest : string)
    (literal : string) (acc : list piece) : result (list piece) :=
  match fuel with
  | O => Ok (acc ++ [Lit literal])%list
  | S fuel' =>
      match next with
      | None => Ok (acc ++ [Lit literal])%list
      | Some this =>
          st <- advance rest ;;
          let (next1, rest1) := st in
          match this with
          | String b (String c _) =>
              if negb (Ascii.eqb b backslash) then
                template_loop fuel' next1 rest1 (literal ++ this) acc
              else if Ascii.eqb c "g" then
                if is_token "<" next1 then
                  st2 <- advance rest1 ;;
                  g <- getuntil fuel' (fst st2) (snd st2) EmptyString ;;
                  let '(name, (next3, rest3)) := g in
                  if Str.forallb Str.isdigit name then
                    acc' <- addgroup (Str.digits_value name) literal acc ;;
                    template_loop fuel' next3 rest3 EmptyString acc'
                  else if is_identifier name then Raise IndexError
                  else Raise (re_error "bad character in group name")
                else Raise (re_error "missing <")
              else if Ascii.eqb c "0" then
                match single Str.isoctal next1 with
                | Some d1 =>
                    st2 <- advance rest1 ;;
                    let (next2, rest2) := st2 in
                    match single Str.isoctal next2 with
                    | Some d2 =>
                        st3 <- advance rest2 ;;
                        let digits := String c (String d1 (String d2 EmptyString)) in
                        template_loop fuel' (fst st3) (snd st3)
                          (literal ++ chr (octal_value_from 0 digits mod 256)) acc
                    | None =>
                        let digits := String c (String d1 EmptyString) in
                        template_loop fuel' next2 rest2
                          (literal ++ chr (octal_value_from 0 digits)) acc
                    end
                | None => template_loop fuel' next1 rest1 (literal ++ chr 0) acc
                end
              else if Str.isdigit c then
                match single Str.isdigit next1 with
                | Some d1 =>
                    st2 <- advance rest1 ;;
                    let (next2, rest2) := st2 in
                    match
                      (if Str.isoctal c && Str.isoctal d1
                       then single Str.isoctal next2 else None)
                    with
                    | Some d2 =>
                        st3 <- advance rest2 ;;
                        let value :=
                          octal_value_from 0 (String c (String d1 (String d2 EmptyString))) in
                        if (255 <? value)%N then
                          Raise (re_error "octal escape value outside of range 0-0o377")
                        else
                          template_loop fuel' (fst st3) (snd st3) (literal ++ chr value) acc
                    | None =>
                        acc' <- addgroup (Str.digits_value (String c (String d1 EmptyString)))
                                  literal acc ;;
                        template_loop fuel' next2 rest2 EmptyString acc'
                    end
                | None =>
                    acc' <- addgroup (Str.digit_value c) literal acc ;;
                    template_loop fuel' next1 rest1 EmptyString acc'
                end
              else
                match ESCAPES c with
                | Some n => template_loop fuel' next1 rest1 (literal ++ chr n) acc
                | None =>
                    if Str.isalpha c then Raise (re_error "bad escape")
                    else template_loop fuel' next1 rest1 (literal ++ this) acc
                end
          | _ => template_loop fuel' next1 rest1 (literal ++ this) acc
          end
      end
  end.

(** [parse_template]: every token has at least one character, so
    [length template] rounds reach its end. *)
Definition parse_template (template : string) : result (list piece) :=
  st <- advance template ;;
  template_loop (S (String.length template)) (fst st) (snd st) EmptyString [].

Fixpoint expand (template : list piece) (matched : string) : string :=
  match template with
  | [] => EmptyString
  | Lit text :: rest => text ++ expand rest matched
  | Group _ :: rest => matched ++ expand rest matched
  end.

(** The leftmost match of [sentinel .*? sentinel]: the text before it, the
    match and the text after it.  The first sentinel that has another one
    after its end opens the match, and the nearest such one closes it. *)
Definition search (sentinel content : string) : option (string * string * string) :=
  match Str.find sentinel content with
  | None => None
  | Some (before, rest) =>
      match Str.find sentinel rest with
      | None => None
      | Some (interior, after) =>
          Some (before, sentinel ++ interior ++ sentinel, after)
      end
  end.

Fixpoint subn_loop (fuel : nat) (sentinel : string) (template : list piece)
    (content : string) (count : nat) (made : nat) : string * nat :=
  match fuel with
  | O => (content, made)
  | S fuel' =>
      match search sentinel content with
      | None => (content, made)
      | Some (before, matched, after) =>
          if Nat.eqb count (S made) then
            (before ++ expand template matched ++ after, S made)
          else
            let (tail, n) := subn_loop fuel' sentinel template after count (S made) in
            (before ++ expand template matched ++ tail, n)
      end
  end.

(** [pattern.subn(repl, content, count)]: the text with at most [count]
    matches replaced, all of them when [count] is 0, and how many were. *)
Definition subn (sentinel repl content : string) (count : nat)
  : result (string * nat) :=
  template <- parse_template repl ;;
  Ok (subn_loop (String.length content) sentinel template content count 0).

End Re.

(** ** The document splice *)

Definition replace_marker (content marker replacement : string) : result string :=
  let sentinel := "<!-- " ++ marker ++ " -->" in
  r <- Re.subn sentinel (sentinel ++ replacement ++ sentinel) content 1 ;;
  let (updated_content, count) := r in
  if negb (Nat.eqb count 1) then
    Raise (RuntimeError ("README marker '" ++ marker ++ "' was not found exactly once."))
  else Ok updated_content.

(** The two splices of [main]. *)
Definition update_readme (readme : string)
    (highlighted_sponsors regular_sponsors : list Sponsor) : result string :=
  readme <- replace_marker readme "sponsors-highlighted"
              (render_all highlighted_sponsors HIGHLIGHTED_WIDTH) ;;
  replace_marker readme "sponsors" (render_all regular_sponsors REGULAR_WIDTH).

(** * The run around the core *)

(** ** Exceptions and outcomes *)

(** The exceptions of the functions above, and those of the libraries
    around them: [URLError] stands for the class and its subclasses and
    carries the text [str] gives; [OtherError] is an exception of a class
    that is neither [RuntimeError] nor [URLError]. *)
Inductive error : Type :=
| Core (e : exception)
| TypeError
| csv_Error (msg : string)
| ArgumentTypeError (msg : string)
| URLError (text : string)
| OtherError (name : string).

Inductive outcome (A : Type) : Type :=
| Return (a : A)
| Throw (e : error).

Arguments Return {A} a.
Arguments Throw {A} e.

Definition lift {A : Type} (r : result A) : outcome A :=
  match r with
  | Ok a => Return a
  | Raise e => Throw (Core e)
  end.

Definition and_then {A B : Type} (r : outcome A) (k : A -> outcome B) : outcome B :=
  match r with
  | Return a => k a
  | Throw e => Throw e
  end.

Notation "x <~ r ;; k" := (and_then r (fun x => k))
  (at level 61, r at next level, right associativity).

(** ** [csv.reader] and [csv.DictReader] over [io.StringIO]

    The reader of the [excel] dialect: comma, double quote doubled inside a
    quoted field, no escape character, not strict.  [io.StringIO] hands it
    the text line by line, a line ending with its line feed; the reader
    takes the characters of a line and then the end of the line, and a
    record ends at an end of line outside a quoted field.  A field is
    limited to 131072 characters. *)

Module Csv.

Inductive state : Type :=
| START_RECORD
| START_FIELD
| IN_FIELD
| IN_QUOTED_FIELD
| QUOTE_IN_QUOTED_FIELD
| EAT_CRNL.

Record reader : Type := {
  st : state;
  field : string;
  field_len : N;
  fields : list string
}.

Definition parse_reset : reader :=
  {| st := START_RECORD; field := EmptyString; field_len := 0; fields := [] |}.

Definition set_state (s : state) (r : reader) : reader :=
  {| st := s; field := field r; field_len := field_len r; fields := fields r |}.

Definition field_limit : N := 131072.

Definition linefeed : ascii := ascii_of_N 10.
Definition carriage_return : ascii := ascii_of_N 13.

Definition is_newline (c : ascii) : bool :=
  Ascii.eqb c linefeed || Ascii.eqb c carriage_return.

(** A byte that continues a character of the UTF-8 encoding. *)
Definition continuation (c : ascii) : bool := Str.in_range 128 191 c.

Definition parse_save_field (s : state) (r : reader) : reader :=
  {| st := s; field := EmptyString; field_len := 0;
     fields := (fields r ++ [field r])%list |}.

Definition parse_add_char (s : state) (c : ascii) (r : reader) : outcome reader :=
  if continuation c then
    Return {| st := s; field := field r ++ String c EmptyString;
              field_len := field_len r; fields := fields r |}
  else if (field_limit <=? field_len r)%N then
    Throw (csv_Error "field larger than field limit (131072)")
  else
    Return {| st := s; field := field r ++ String c EmptyString;
              field_len := field_len r + 1; fields := fields r |}.

Definition start_field (c : option ascii) (r : reader) : outcome reader :=
  match c with
  | None => Return (parse_save_field START_RECORD r)
  | Some ch =>
      if is_newline ch then Return (parse_save_field EAT_CRNL r)
      else if Ascii.eqb ch Html.dquote then Return (set_state IN_QUOTED_FIELD r)
      else if Ascii.eqb ch "," then Return (parse_save_field START_FIELD r)
      else parse_add_char IN_FIELD ch r
  end.

(** [parse_process_char]; the end of a line is [None]. *)
Definition parse_process_char (c : option ascii) (r : reader) : outcome reader :=
  match st r with
  | START_RECORD =>
      match c with
      | None => Return r
      | Some ch =>
          if is_newline ch then Return (set_state EAT_CRNL r)
          else start_field c r
      end
  | START_FIELD => start_field c r
  | IN_FIELD =>
      match c with
      | None => Return (parse_save_field START_RECORD r)
      | Some ch =>
          if is_newline ch then Return (parse_save_field EAT_CRNL r)
          else if Ascii.eqb ch "," then Return (parse_save_field START_FIELD r)
          else parse_add_char IN_FIELD ch r
      end
  | IN_QUOTED_FIELD =>
      match c with
      | None => Return r
      | Some ch =>
          if Ascii.eqb ch Html.dquote then Return (set_state QUOTE_IN_QUOTED_FIELD r)
          else parse_add_char IN_QUOTED_FIELD ch r
      end
  | QUOTE_IN_QUOTED_FIELD =>
      match c with
      | None => Return (parse_save_field START_RECORD r)
      | Some ch =>
          if Ascii.eqb ch Html.dquote then parse_add_char IN_QUOTED_FIELD ch r
          else if Ascii.eqb ch "," then Return (parse_save_field START_FIELD r)
          else if is_newline ch then Return (parse_save_field EAT_CRNL r)
          else parse_add_char IN_FIELD ch r
      end
  | EAT_CRNL =>
      match c with
      | None => Return (set_state START_RECORD r)
      | Some ch =>
          if is_newline ch then Return r
          else Throw (csv_Error "new-line character seen in unquoted field - do you need to open the file in universal-newline mode?")
      end
  end.

(** What the end of the input leaves of a record that is under way. *)
Definition at_end_of_input (r : reader) : list (list string) :=
  match st r with
  | IN_QUOTED_FIELD => [(fields r ++ [field r])%list]
  | _ => []
  end.

(** After the end of a line: the record when it is complete. *)
Definition after_line (r : reader) : option (list string) :=
  match st r with
  | START_RECORD => Some (fields r)
  | _ => None
  end.

(** The records of a text up to the first error, and that error.
    [in_line] tells that the current line has characters; [r] is the reader
    within a record and [parse_reset] between two. *)
Fixpoint records (text : string) (in_line : bool) (r : reader)
  : list (list string) * option error :=
  match text with
  | EmptyString =>
      if in_line then
        match parse_process_char None r with
        | Throw e => ([], Some e)
        | Return r' =>
            match after_line r' with
            | Some record => ([record], None)
            | None => (at_end_of_input r', None)
            end
        end
      else (at_end_of_input r, None)
  | String c rest =>
      match parse_process_char (Some c) r with
      | Throw e => ([], Some e)
      | Return r' =>
          if Ascii.eqb c linefeed then
            match parse_process_char None r' with
            | Throw e => ([], Some e)
            | Return r'' =>
                match after_line r'' with
                | Some record =>
                    let (more, err) := records rest false parse_reset in
                    (record :: more, err)
                | None => records rest false r''
                end
            end
          else records rest true r'
      end
  end.

Definition reader_of (text : string) : list (list string) * option error :=
  records text false parse_reset.

(** [d[key] = value] *)
Fixpoint put (key : string) (value : option string) (d : csv_row) : csv_row :=
  match d with
  | [] => [(key, value)]
  | (k, v) :: rest =>
      if String.eqb k key then (k, value) :: rest else (k, v) :: put key value rest
  end.

(** [dict(zip(fieldnames, row))], then [None] for the names the row is too
    short for.  The fields a row has beyond the names go under the key
    [None], which no lookup by name reaches: they are left out. *)
Fixpoint zip_row (fieldnames : list string) (row : list string) (d : csv_row) : csv_row :=
  match fieldnames with
  | [] => d
  | name :: names =>
      match row with
      | value :: values => zip_row names values (put name (Some value) d)
      | [] => zip_row names [] (put name None d)
      end
  end.

Definition is_blank (record : list string) : bool :=
  match record with [] => true | _ => false end.

(** The rows [csv.DictReader] yields up to the first error of the reader:
    the first record names the columns, and empty records are passed over. *)
Definition DictReader (text : string) : list csv_row * option error :=
  let (all, err) := reader_of text in
  match all with
  | [] => ([], err)
  | fieldnames :: rows =>
      (List.map (fun row => zip_row fieldnames row [])
         (filter (fun row => negb (is_blank row)) rows), err)
  end.

End Csv.

(** ** The command line *)

(** [decimal_arg]: the conversion [argparse] applies to each threshold. *)
Definition decimal_arg (value : string) : outcome Decimal :=
  parsed <~ lift (parse_decimal (JStr value)) ;;
  match parsed with
  | None => Throw (ArgumentTypeError ("Invalid decimal value: " ++ value))
  | Some parsed => Return parsed
  end.

(** What [parse_args] returns: the login, the Liberapay user name when one
    was given, the four thresholds and the path of the README. *)
Record Args : Type := {
  github_login : string;
  liberapay_username : option string;
  minimums : Namespace;
  readme : string
}.

(** ** Values of a response *)

Module Json.

(** The characters of a text: a byte with the bytes that continue it. *)
Fixpoint chars (s : string) (current : string) : list string :=
  match s with
  | EmptyString =>
      match current with EmptyString => [] | _ => [current] end
  | String c rest =>
      if Csv.continuation c then chars rest (current ++ String c EmptyString)
      else
        match current with
        | EmptyString => chars rest (String c EmptyString)
        | _ => current :: chars rest (String c EmptyString)
        end
  end.

(** [for x in value]: the items of a list, the characters of a text, the
    keys of a dictionary; nothing else can be iterated. *)
Definition iterate (value : json) : outcome (list json) :=
  match value with
  | JList items => Return items
  | JStr s => Return (List.map JStr (chars s EmptyString))
  | JObject fields => Return (List.map (fun kv => JStr (fst kv)) fields)
  | _ => Throw TypeError
  end.

(** [obj.get(key)] *)
Definition get (obj : json) (key : string) : outcome json := lift (Py.get obj key).

(** [obj.get(key, default)] *)
Definition get_default (obj : json) (key : string) (default : json) : outcome json :=
  match obj with
  | JObject fields =>
      Return (match Py.lookup key fields with Some v => v | None => default end)
  | _ => Throw (Core AttributeError)
  end.

(** A list or a dictionary cannot be a member of a set. *)
Definition hashable (value : json) : bool :=
  match value with
  | JList _ | JObject _ => false
  | _ => true
  end.

(** [value == text] *)
Definition equals (value : json) (text : string) : bool :=
  match value with
  | JStr s => String.eqb s text
  | _ => false
  end.

End Json.

(** ** The GitHub adapter: pages *)

Definition GITHUB_GRAPHQL_URL : string := "https://api.github.com/graphql".

Definition GITHUB_QUERY_TEMPLATE : string := Str.strip "
query($login:String!,$first:Int!,$after:String){
  __OWNER_TYPE__(login:$login){
    sponsorshipsAsMaintainer(first:$first, after:$after, activeOnly:true, includePrivate:false){
      pageInfo{hasNextPage endCursor}
      nodes{
        id
        createdAt
        isActive
        isOneTimePayment
        privacyLevel
        sponsorEntity{
          __typename
          ... on User{ login name url }
          ... on Organization{ login name url }
        }
        tier{
          monthlyPriceInCents
          monthlyPriceInDollars
        }
      }
    }
  }
}
".

(** How one page ends the [while] loop or continues it. *)
Inductive step : Type :=
| Break
| Finished (sponsors : list Sponsor)
| Continue (after : json) (sponsors : list Sponsor).

(** How the process ends: with a status, after what the script has printed
    on the error stream, or with the traceback of an exception the script
    does not handle. *)
Inductive ending : Type :=
| Exit (status : Z) (stderr : string)
| Traceback (e : error).

Section Run.

(** The machine and the world the script runs in: the time zone, the text
    Python prints for a value, the JSON codec, the network and the files.
    A request or a file operation changes the world. *)
Variable local_to_utc : datetime -> result datetime.
Variable printed : json -> string.
Variable json_dumps : json -> string.
Variable json_loads : string -> outcome json.
Variable world : Type.
Variable fetch_text :
  string -> list (string * string) -> option string -> world -> outcome string * world.
Variable read_text : string -> world -> outcome string * world.
Variable write_text : string -> string -> world -> outcome unit * world.

Definition fetch_json (url : string) (headers : list (string * string))
    (data : option string) (w : world) : outcome json * world :=
  let (text, w') := fetch_text url headers data w in
  (text <~ text ;; json_loads text, w').

(** [{error.get("type") for error in errors}] *)
Fixpoint error_types (errors : list json) : outcome (list json) :=
  match errors with
  | [] => Return []
  | error :: rest =>
      type <~ Json.get error "type" ;;
      if Json.hashable type then
        types <~ error_types rest ;;
        Return (type :: types)
      else Throw TypeError
  end.

(** [error_types == {"NOT_FOUND"}] *)
Definition only_not_found (types : list json) : bool :=
  negb (Nat.eqb (List.length types) 0)
  && forallb (fun type => Json.equals type "NOT_FOUND") types.

(** [for node in nodes: ...] *)
Fixpoint page_nodes (thresholds : Thresholds) (nodes : list json)
  : outcome (list Sponsor) :=
  match nodes with
  | [] => Return []
  | node :: rest =>
      match node with
      | JObject node =>
          s <~ lift (github_node local_to_utc thresholds node) ;;
          sponsors <~ page_nodes thresholds rest ;;
          Return (match s with Some s => s :: sponsors | None => sponsors end)
      | _ => Throw (Core AttributeError)
      end
  end.

(** The body of the [while] loop after the response has arrived. *)
Definition github_page (thresholds : Thresholds) (owner_type : string)
    (response : json) (sponsors : list Sponsor) : outcome step :=
  errors <~ Json.get response "errors" ;;
  if Py.truthy errors then
    items <~ Json.iterate errors ;;
    types <~ error_types items ;;
    if only_not_found types then Return Break
    else Throw (Core (RuntimeError ("GitHub GraphQL query failed: " ++ printed errors)))
  else
    data <~ Json.get_default response "data" (JObject []) ;;
    container <~ Json.get data owner_type ;;
    if negb (Py.truthy container) then Return Break
    else
      maintainer <~ Json.get container "sponsorshipsAsMaintainer" ;;
      let sponsorships := Py.or_else maintainer (JObject []) in
      nodes <~ Json.get_default sponsorships "nodes" (JList []) ;;
      items <~ Json.iterate nodes ;;
      found <~ page_nodes thresholds items ;;
      let sponsors := (sponsors ++ found)%list in
      info <~ Json.get sponsorships "pageInfo" ;;
      let page_info := Py.or_else info (JObject []) in
      has_next <~ Json.get page_info "hasNextPage" ;;
      if negb (Py.truthy has_next) then Return (Finished sponsors)
      else
        after <~ Json.get page_info "endCursor" ;;
        Return (Continue after sponsors).

Definition github_payload (login owner_type : string) (after : json) : json :=
  JObject
    [("query", JStr (Str.replace "__OWNER_TYPE__" owner_type GITHUB_QUERY_TEMPLATE));
     ("variables", JObject [("login", JStr login); ("first", JInt 100); ("after", after)])].

Definition github_headers (token : string) : list (string * string) :=
  [("Authorization", "Bearer " ++ token); ("Content-Type", "application/json")].

(** The [while True] loop of one owner type, for at most [fuel] pages:
    [None] when more pages remain, the sponsors when the loop returns, no
    sponsors when it breaks. *)
Fixpoint github_pages (fuel : nat) (login token : string) (thresholds : Thresholds)
    (owner_type : string) (after : json) (sponsors : list Sponsor) (w : world)
  : option (outcome (option (list Sponsor)) * world) :=
  match fuel with
  | O => None
  | S fuel' =>
      let payload := json_dumps (github_payload login owner_type after) in
      let (response, w') :=
        fetch_json GITHUB_GRAPHQL_URL (github_headers token) (Some payload) w in
      match response <~ response ;; github_page thresholds owner_type response sponsors with
      | Throw e => Some (Throw e, w')
      | Return Break => Some (Return None, w')
      | Return (Finished sponsors) => Some (Return (Some sponsors), w')
      | Return (Continue after sponsors) =>
          github_pages fuel' login token thresholds owner_type after sponsors w'
      end
  end.

(** [for owner_type in owner_types: ...], then the error of the login no
    owner type has. *)
Fixpoint github_owners (fuel : nat) (login token : string) (thresholds : Thresholds)
    (owner_types : list string) (w : world) : option (outcome (list Sponsor) * world) :=
  match owner_types with
  | [] =>
      Some (Throw (Core (RuntimeError
              ("Unable to find GitHub organization or user '" ++ login ++ "'."))), w)
  | owner_type :: rest =>
      match github_pages fuel login token thresholds owner_type JNull [] w with
      | None => None
      | Some (Throw e, w') => Some (Throw e, w')
      | Some (Return (Some sponsors), w') => Some (Return sponsors, w')
      | Some (Return None, w') => github_owners fuel login token thresholds rest w'
      end
  end.

Definition fetch_github_sponsors (fuel : nat) (login token : string)
    (thresholds : Thresholds) (w : world) : option (outcome (list Sponsor) * world) :=
  github_owners fuel login token thresholds ["organization"; "user"] w.

(** ** The Liberapay adapter: the export *)

(** [for row in rows: ...] *)
Fixpoint liberapay_rows (thresholds : Thresholds) (rows : list csv_row)
  : result (list Sponsor) :=
  match rows with
  | [] => Ok []
  | row :: rest =>
      s <- liberapay_row local_to_utc thresholds row ;;
      sponsors <- liberapay_rows thresholds rest ;;
      Ok (match s with Some s => s :: sponsors | None => sponsors end)
  end.

(** The rows are read as the loop asks for them: an error of the reader
    comes after the rows before it have been processed. *)
Definition fetch_liberapay_sponsors (username : string) (thresholds : Thresholds)
    (w : world) : outcome (list Sponsor) * world :=
  let csv_url := "https://liberapay.com/" ++ Url.quote username ++ "/patrons/public.csv" in
  let (csv_data, w') := fetch_text csv_url [] None w in
  (csv_data <~ csv_data ;;
   let (rows, err) := Csv.DictReader csv_data in
   sponsors <~ lift (liberapay_rows thresholds rows) ;;
   match err with
   | Some e => Throw e
   | None => Return sponsors
   end, w').

(** ** [main] *)

(** [main] with the value of [GITHUB_TOKEN] in the environment, when it is
    set; [None] when the pages of GitHub do not end within [fuel]. *)
Definition main (fuel : nat) (args : Args) (GITHUB_TOKEN : option string) (w : world)
  : option (outcome Z * world) :=
  match build_thresholds (minimums args) with
  | Raise e => Some (Throw (Core e), w)
  | Ok thresholds =>
      let github_token :=
        Str.strip (match GITHUB_TOKEN with Some t => t | None => EmptyString end) in
      if negb (Str.truthy github_token) then
        Some (Throw (Core (RuntimeError
                "GITHUB_TOKEN is required to fetch GitHub Sponsors data.")), w)
      else
        match fetch_github_sponsors fuel (github_login args) github_token thresholds w with
        | None => None
        | Some (Throw e, w1) => Some (Throw e, w1)
        | Some (Return github, w1) =>
            let (merged, w2) :=
              match liberapay_username args with
              | Some username =>
                  if Str.truthy username then
                    let (patrons, w2) := fetch_liberapay_sponsors username thresholds w1 in
                    (patrons <~ patrons ;; Return (patrons ++ github)%list, w2)
                  else (Return github, w1)
              | None => (Return github, w1)
              end in
            match merged with
            | Throw e => Some (Throw e, w2)
            | Return sponsors =>
                let regular_sponsors := with_tier "regular" sponsors in
                let highlighted_sponsors := with_tier "highlighted" sponsors in
                let (text, w3) := read_text (readme args) w2 in
                match text <~ text ;;
                      lift (update_readme text highlighted_sponsors regular_sponsors) with
                | Throw e => Some (Throw e, w3)
                | Return text =>
                    let (written, w4) := write_text (readme args) text w3 in
                    Some (_ <~ written ;; Return 0, w4)
                end
            end
        end
  end.

(** The last lines of the file: [main] under [try], with the two handled
    exceptions printed before the status 1. *)
Definition script (fuel : nat) (args : Args) (GITHUB_TOKEN : option string) (w : world)
  : option (ending * world) :=
  match main fuel args GITHUB_TOKEN w with
  | None => None
  | Some (Return status, w') => Some (Exit status EmptyString, w')
  | Some (Throw (Core (RuntimeError msg)), w') =>
      Some (Exit 1 (msg ++ String Csv.linefeed EmptyString), w')
  | Some (Throw (URLError text), w') =>
      Some (Exit 1 (text ++ String Csv.linefeed EmptyString), w')
  | Some (Throw e, w') => Some (Traceback e, w')
  end.

End Run.

(** * Specification vocabulary *)

(** The order on decimal numbers: what [<=] and [<] evaluate to when neither
    side is a NaN. *)
Definition Dle (a b : Decimal) : Prop :=
  Dec.compare a b = Some Lt \/ Dec.compare a b = Some Eq.

Definition Dlt (a b : Decimal) : Prop := Dec.compare a b = Some Lt.

Definition number (d : Decimal) : Prop := Dec.is_nan d = false.

(** Tiers by exclusivity: excluded, then regular, then highlighted. *)
Definition tier_rank (t : option string) : nat :=
  match t with
  | None => 0
  | Some t => if String.eqb t "highlighted" then 2 else 1
  end.

(** The order of the sort key. *)
Definition key_le (a b : Sponsor) : Prop :=
  sort_key_compare (sort_key a) (sort_key b) <> Gt.

(** [s] is the last record of [l] with its identity. *)
Definition last_of_identity (s : Sponsor) (l : list Sponsor) : Prop :=
  exists l1 l2,
    l = (l1 ++ s :: l2)%list /\ Forall (fun t => identity t <> identity s) l2.

(** [a] comes before [b] in [l]. *)
Definition before (a b : Sponsor) (l : list Sponsor) : Prop :=
  exists l1 l2 l3, l = (l1 ++ a :: l2 ++ b :: l3)%list.

(** [unique.get(k)] *)
Fixpoint dict_lookup {V : Type} (k : string * string)
    (d : list ((string * string) * V)) : option V :=
  match d with
  | [] => None
  | (k', v) :: rest => if identity_eqb k' k then Some v else dict_lookup k rest
  end.

(** The last record of [l] with identity [k]. *)
Fixpoint find_last (k : string * string) (l : list Sponsor) : option Sponsor :=
  match l with
  | [] => None
  | s :: rest =>
      match find_last k rest with
      | Some x => Some x
      | None => if identity_eqb (identity s) k then Some s else None
      end
  end.

(** A node whose tier carries [price] in its cents field. *)
Definition priced (node : dict) (price : json) : dict :=
  ("tier", JObject [("monthlyPriceInCents", price)]) :: node.

(** The sentinel of a marker, and a document with one region spliced. *)
Definition sentinel (marker : string) : string := "<!-- " ++ marker ++ " -->".

Definition spliced (before marker interior after : string) : string :=
  before ++ sentinel marker ++ interior ++ sentinel marker ++ after.

(** Sample data. *)
Definition utc_machine (d : datetime) : result datetime :=
  Ok {| year := year d; month := month d; day := day d; hour := hour d;
        minute := minute d; second := second d; microsecond := microsecond d;
        utcoffset := Some 0 |}.

Definition sample_thresholds : Thresholds := {|
  github_regular_monthly_minimum := Dec.of_Z 5;
  github_highlighted_monthly_minimum := Dec.of_Z 20;
  liberapay_regular_weekly_minimum := Dec.of_Z 0;
  liberapay_highlighted_weekly_minimum := Dec.of_Z 5
|}.

Definition sample_node : dict :=
  [("isActive", JBool true);
   ("isOneTimePayment", JBool false);
   ("privacyLevel", JStr "PUBLIC");
   ("createdAt", JStr "2024-03-01T12:00:00Z");
   ("sponsorEntity",
    JObject [("login", JStr "octocat"); ("name", JStr "The Octocat");
             ("url", JStr "https://github.com/octocat")])].

Definition sample_sponsor (display_name : string) : Sponsor := {|
  platform := "github";
  key := "octocat";
  name := display_name;
  profile_url := "https://github.com/octocat";
  avatar_url := "https://github.com/octocat.png";
  started_at := {| year := 2024; month := 3; day := 1; hour := 12; minute := 0;
                   second := 0; microsecond := 0; utcoffset := Some 0 |};
  tier := "regular";
  monthly_amount := Dec.of_Z 10;
  currency := "USD"
|}.

(** The sample node with a display name and a price of ten dollars. *)
Definition named_node (display_name : string) : dict :=
  [("isActive", JBool true);
   ("isOneTimePayment", JBool false);
   ("privacyLevel", JStr "PUBLIC");
   ("createdAt", JStr "2024-03-01T12:00:00Z");
   ("sponsorEntity",
    JObject [("login", JStr "octocat"); ("name", JStr display_name);
             ("url", JStr "https://github.com/octocat")]);
   ("tier", JObject [("monthlyPriceInCents", JInt 1000)])].

Definition sample_readme : string :=
  spliced "# Sponsors " "sponsors" "old" " end".

(** [floor (a / b + 1/2)]: the fraction [a / b] rounded half up to an
    integer, in exact arithmetic. *)
Definition round_half_up (a b : N) : N := ((2 * a + b) / (2 * b))%N.

(** The exact monthly amount of a weekly amount [c * 10 ^ e], in
    hundredths: [round_half_up (weekly * 52 / 12, 2 decimals)]. *)
Definition monthly_cents (c : N) (e : Z) : N :=
  round_half_up (c * 52 * 100 * Dec.pow10 e) (12 * Dec.pow10 (- e)).

(** The value of a finite decimal in hundredths, padded or rounded half up. *)
Definition in_cents (c : N) (e : Z) : N :=
  if -2 <=? e then (c * Dec.pow10 (e + 2))%N
  else round_half_up c (Dec.pow10 (- 2 - e)).

(** The quotient digits of a dividend by 12 with the sticky last digit. *)
Definition sticky (N0 : N) : N :=
  if ((N0 / 12) mod 5 =? 0)%N then (N0 / 12 + 1)%N else (N0 / 12)%N.

(** Two rows of a Liberapay export. *)
Definition five_row : csv_row :=
  [("patron_username", Some "alice");
   ("donation_currency", Some "EUR");
   ("weekly_amount", Some "5.00");
   ("pledge_date", Some "2024-01-15")].

Definition long_row : csv_row :=
  [("patron_username", Some "alice");
   ("donation_currency", Some "EUR");
   ("weekly_amount", Some "0.0011538461538461538461538461538461538461");
   ("pledge_date", Some "2024-01-15")].

(** A comparison that is a total order. *)
Class Order {A : Type} (cmp : A -> A -> comparison) : Prop := {
  cmp_antisym : forall x y, cmp y x = CompOpp (cmp x y);
  cmp_eq : forall x y, cmp x y = Eq -> x = y;
  cmp_trans : forall x y z, cmp x y = Lt -> cmp y z = Lt -> cmp x z = Lt
}.

Arguments cmp_antisym {A} cmp {_} x y.
Arguments cmp_eq {A} cmp {_} x y _.
Arguments cmp_trans {A} cmp {_} x y z _ _.

(** A text the template parser reads as it stands. *)
Definition no_backslash (s : string) : Prop :=
  Str.forallb (fun c => negb (Ascii.eqb c Re.backslash)) s = true.

(** A threshold below zero. *)
Definition negative (d : Decimal) : Prop := Dlt d (Dec.of_Z 0).

(** A sponsor's tier is the one its amount has under the two minimums. *)
Definition classified (t : string) (amount regular_minimum highlighted_minimum : Decimal)
  : Prop :=
  (t = "highlighted" /\ Dle highlighted_minimum amount) \/
  (t = "regular" /\ Dle regular_minimum amount /\ Dlt amount highlighted_minimum).

(** A text of ASCII digits. *)
Definition digits (s : string) : Prop := Str.forallb Str.isdigit s = true.

(** How often a character occurs in a text. *)
Fixpoint count (x : ascii) (s : string) : nat :=
  match s with
  | EmptyString => O
  | String c r => ((if Ascii.eqb c x then 1 else 0) + count x r)%nat
  end.

(** The characters that delimit tags and attribute values. *)
Definition markup (c : ascii) : bool :=
  Ascii.eqb c "<" || Ascii.eqb c ">" || Ascii.eqb c Html.dquote || Ascii.eqb c "'".

(** The characters [quote] leaves or produces. *)
Definition url_safe (c : ascii) : bool :=
  Url.always_safe c || Ascii.eqb c "/".

(** A character [escape] leaves alone. *)
Definition plain (c : ascii) : bool := negb (Ascii.eqb c "&" || markup c).

(** A Liberapay row with an infinite weekly amount. *)
Definition infinite_row : csv_row :=
  [("patron_username", Some "alice");
   ("donation_currency", Some "EUR");
   ("weekly_amount", Some "Infinity");
   ("pledge_date", Some "2024-01-15")].




(** The month and the day of the [n]-th day of a year, counted from 0: the
    estimate and its correction at the end of [_ord2ymd]. *)
Definition month_and_day (leapyear : bool) (n : Z) : Z * Z :=
  let m := Z.shiftr (n + 50) 5 in
  let preceding := DT._DAYS_BEFORE_MONTH m + (if (2 <? m) && leapyear then 1 else 0) in
  if n <? preceding then
    let m := m - 1 in
    let preceding :=
      preceding - (DT._DAYS_IN_MONTH m + (if (m =? 2) && leapyear then 1 else 0)) in
    (m, n - preceding + 1)
  else (m, n - preceding + 1).

(** A day of a year is where its month and day say. *)
Definition day_in_place (leapyear : bool) (n : Z) : bool :=
  let (m, d) := month_and_day leapyear n in
  (1 <=? m) && (m <=? 12) && (1 <=? d) &&
  (d <=? (if (m =? 2) && leapyear then 29 else DT._DAYS_IN_MONTH m)) &&
  (DT._DAYS_BEFORE_MONTH m + (if (2 <? m) && leapyear then 1 else 0) + d =? n + 1).

(** The days of a year without its last day in a leap year. *)
Definition days_of_year : list Z := List.map Z.of_nat (seq 0 365).

(** The instants the years 1 to 9999 hold, in microseconds. *)
Definition representable (t : Z) : Prop := 0 <= t < DT._MAXORDINAL * DT.US_PER_DAY.

(** A datetime whose fields the constructor accepts. *)
Definition valid (d : datetime) : Prop :=
  DT.valid_fields (year d) (month d) (day d) (hour d) (minute d) (second d)
    (microsecond d) = true.

(** ** Exports as a writer of the dialect writes them *)

(** A character that needs no quoting in a field. *)
Definition unquoted (c : ascii) : bool :=
  negb (Ascii.eqb c "," || Ascii.eqb c Html.dquote || Csv.is_newline c).

(** A text with its double quotes doubled, and a field between quotes. *)
Fixpoint doubled (f : string) : string :=
  match f with
  | EmptyString => EmptyString
  | String c rest =>
      if Ascii.eqb c Html.dquote then String c (String c (doubled rest))
      else String c (doubled rest)
  end.

Definition in_quotes (f : string) : string :=
  String Html.dquote (doubled f ++ String Html.dquote EmptyString).

(** A field as it is written: between quotes when a character needs it. *)
Definition written (f : string) : string :=
  if Str.forallb unquoted f then f else in_quotes f.

Fixpoint join (fields : list string) : string :=
  match fields with
  | [] => EmptyString
  | [f] => f
  | f :: rest => f ++ "," ++ join rest
  end.

(** A record as it is written: its fields with commas between them, and
    the record of one empty field between quotes, not to be an empty
    line. *)
Definition written_record (record : list string) : string :=
  match record with
  | [EmptyString] => in_quotes EmptyString
  | _ => join (List.map written record)
  end.

(** The line ends an export can have. *)
Definition line_end (t : string) : Prop :=
  t = String Csv.linefeed EmptyString \/
  t = String Csv.carriage_return (String Csv.linefeed EmptyString).

(** The text of records written one per line. *)
Fixpoint export (t : string) (all : list (list string)) : string :=
  match all with
  | [] => EmptyString
  | record :: rest => written_record record ++ t ++ export t rest
  end.

(** A record of at least one field, each within the limit of the reader. *)
Definition within_limit (f : string) : Prop :=
  (N.of_nat (String.length f) <= Csv.field_limit)%N.

Definition writable (record : list string) : Prop :=
  record <> [] /\ Forall within_limit record.

(** The reader between two fields, with no character of the next. *)
Definition at_field (s : Csv.state) (done : list string) : Csv.reader :=
  {| Csv.st := s; Csv.field := EmptyString; Csv.field_len := 0; Csv.fields := done |}.

(** Where the reader is after a field: within it, after its closing quote,
    or where it was when the field is empty. *)
Definition after_field (s : Csv.state) (f : string) (r : Csv.reader) : Prop :=
  Csv.st r = Csv.IN_FIELD \/ Csv.st r = Csv.QUOTE_IN_QUOTED_FIELD \/
  (f = EmptyString /\ Csv.st r = s).

(** A sponsor that the body of the row loop makes of some row. *)
Definition made_of_row l2u (thresholds : Thresholds) (s : Sponsor) : Prop :=
  exists row, liberapay_row l2u thresholds row = Ok (Some s).

(** ** Pages of sponsorships *)

(** A response without errors that holds, for the owner type, a page of
    nodes with its [hasNextPage] and [endCursor]. *)
Definition is_page (owner_type : string) (response : json) (nodes : list dict)
    (has_next end_cursor : json) : Prop :=
  exists fields data container sponsorships page_info,
    response = JObject fields /\
    Py.truthy (dict_get fields "errors") = false /\
    Json.get_default response "data" (JObject []) = Return (JObject data) /\
    dict_get data owner_type = JObject container /\
    dict_get container "sponsorshipsAsMaintainer" = JObject sponsorships /\
    Json.get_default (JObject sponsorships) "nodes" (JList [])
    = Return (JList (List.map JObject nodes)) /\
    dict_get sponsorships "pageInfo" = JObject page_info /\
    dict_get page_info "hasNextPage" = has_next /\
    dict_get page_info "endCursor" = end_cursor.

(** A response whose errors are all of type NOT_FOUND. *)
Definition is_not_found (response : json) : Prop :=
  exists fields errors,
    response = JObject fields /\
    dict_get fields "errors" = JList errors /\ errors <> [] /\
    Forall (fun error => exists e, error = JObject e /\ dict_get e "type" = JStr "NOT_FOUND")
      errors.

(** A response without errors that holds nothing for the owner type. *)
Definition has_no_owner (owner_type : string) (response : json) : Prop :=
  exists fields data,
    response = JObject fields /\
    Py.truthy (dict_get fields "errors") = false /\
    Json.get_default response "data" (JObject []) = Return (JObject data) /\
    Py.truthy (dict_get data owner_type) = false.

(** A sponsor that the body of the node loop makes of some node. *)
Definition made_of_node l2u (thresholds : Thresholds) (s : Sponsor) : Prop :=
  exists node, github_node l2u thresholds node = Ok (Some s).

Section Pages.

Variable local_to_utc : datetime -> result datetime.
Variable printed : json -> string.
Variable json_dumps : json -> string.
Variable json_loads : string -> outcome json.
Variable world : Type.
Variable fetch_text :
  string -> list (string * string) -> option string -> world -> outcome string * world.
Variables (login token : string) (thresholds : Thresholds).

(** The request of a page after a cursor, as the loop sends it. *)
Definition request (owner_type : string) (after : json) (w : world)
  : outcome json * world :=
  fetch_json json_loads world fetch_text GITHUB_GRAPHQL_URL (github_headers token)
    (Some (json_dumps (github_payload login owner_type after))) w.

(** The world answers the request after [after] with a page, the request
    after the cursor of that page with the next page, and so on to a page
    that has no next page. *)
Inductive served (owner_type : string) : json -> world -> list (list dict) -> world -> Prop :=
| served_last after w response nodes has_next end_cursor w' :
    request owner_type after w = (Return response, w') ->
    is_page owner_type response nodes has_next end_cursor ->
    Py.truthy has_next = false ->
    served owner_type after w [nodes] w'
| served_next after w response nodes has_next end_cursor w1 rest w' :
    request owner_type after w = (Return response, w1) ->
    is_page owner_type response nodes has_next end_cursor ->
    Py.truthy has_next = true ->
    served owner_type end_cursor w1 rest w' ->
    served owner_type after w (nodes :: rest) w'.

(** The world answers the first request with a response that ends the loop
    without sponsors. *)
Definition unknown (owner_type : string) (w w' : world) : Prop :=
  exists response,
    request owner_type JNull w = (Return response, w') /\
    (is_not_found response \/ has_no_owner owner_type response).

End Pages.

(** ** A README with its two regions *)

(** The text does not hold the pattern. *)
Definition absent (pattern text : string) : Prop := Str.find pattern text = None.

(** The text is empty or begins with the opening angle bracket. *)
Definition opens_tag (text : string) : bool :=
  match text with
  | EmptyString => true
  | String c _ => Ascii.eqb c "<"
  end.

(** No opening angle bracket is followed by an exclamation mark, given
    whether the character before the text is such a bracket. *)
Fixpoint no_comment (after_bracket : bool) (text : string) : bool :=
  match text with
  | EmptyString => true
  | String c rest =>
      negb (after_bracket && Ascii.eqb c "!") && no_comment (Ascii.eqb c "<") rest
  end.

(** Whether the text, or else what is before it, ends with the bracket. *)
Fixpoint ends_with_bracket (after_bracket : bool) (text : string) : bool :=
  match text with
  | EmptyString => after_bracket
  | String c rest => ends_with_bracket (Ascii.eqb c "<") rest
  end.

(** Sponsors whose URLs and names hold no backslash. *)
Definition without_backslash (sponsors : list Sponsor) : Prop :=
  Forall (fun s => no_backslash (profile_url s) /\ no_backslash (avatar_url s) /\
                   no_backslash (name s)) sponsors.

(** The two sentinels of the README. *)
Definition HIGHLIGHTED : string := sentinel "sponsors-highlighted".
Definition REGULAR : string := sentinel "sponsors".

(** A text that opens no comment and does not end with a bracket. *)
Definition tame (text : string) : Prop :=
  no_comment false text = true /\ ends_with_bracket false text = false.

(** ** The calls of a run *)

(** A call to the world: a request, the README read, the README written
    and whether the writing was done. *)
Inductive event : Type :=
| Requested (url : string)
| Opened (path : string)
| Written (path text : string) (done : bool).

Definition is_write (e : event) : bool :=
  match e with Written _ _ _ => true | _ => false end.

Definition succeeded {A : Type} (r : outcome A) : bool :=
  match r with Return _ => true | Throw _ => false end.

(** A world with the list of the calls made to it. *)
Section Recorded.

Variable world : Type.
Variable fetch_text :
  string -> list (string * string) -> option string -> world -> outcome string * world.
Variable read_text : string -> world -> outcome string * world.
Variable write_text : string -> string -> world -> outcome unit * world.

Definition recorded_fetch (url : string) (headers : list (string * string))
    (data : option string) (lw : list event * world)
  : outcome string * (list event * world) :=
  let (text, w') := fetch_text url headers data (snd lw) in
  (text, ((fst lw ++ [Requested url])%list, w')).

Definition recorded_read (path : string) (lw : list event * world)
  : outcome string * (list event * world) :=
  let (text, w') := read_text path (snd lw) in
  (text, ((fst lw ++ [Opened path])%list, w')).

Definition recorded_write (path text : string) (lw : list event * world)
  : outcome unit * (list event * world) :=
  let (r, w') := write_text path text (snd lw) in
  (r, ((fst lw ++ [Written path text (succeeded r)])%list, w')).

End Recorded.

(** A list of calls none of which writes. *)
Definition quiet (calls : list event) : Prop :=
  Forall (fun e => is_write e = false) calls.

(** ** A sample world *)

(** The requests GitHub has answered and the text of the README. *)
Record sample_world : Type := {
  answered : nat;
  document : string
}.

Definition hubot_node : dict :=
  [("isActive", JBool true);
   ("isOneTimePayment", JBool false);
   ("privacyLevel", JStr "PUBLIC");
   ("createdAt", JStr "2023-11-05T08:30:00+01:00");
   ("sponsorEntity",
    JObject [("login", JStr "hubot"); ("name", JStr "Hubot");
             ("url", JStr "https://github.com/hubot")]);
   ("tier", JObject [("monthlyPriceInCents", JInt 2500)])].

Definition sample_not_found : json :=
  JObject
    [("data", JObject [("organization", JNull)]);
     ("errors",
      JList [JObject [("type", JStr "NOT_FOUND"); ("path", JList [JStr "organization"])]])].

Definition sample_page (owner_type : string) (nodes : list dict) (has_next end_cursor : json)
  : json :=
  JObject
    [("data",
      JObject
        [(owner_type,
          JObject
            [("sponsorshipsAsMaintainer",
              JObject
                [("pageInfo",
                  JObject [("hasNextPage", has_next); ("endCursor", end_cursor)]);
                 ("nodes", JList (List.map JObject nodes))])])])].

Definition sample_columns : list string :=
  ["patron_username"; "patron_public_name"; "donation_currency"; "weekly_amount";
   "pledge_date"].

Definition sample_patron : list string :=
  ["alice"; "Alice, A."; "EUR"; "5.00"; "2024-01-15"].

Definition sample_export : string :=
  export (String Csv.linefeed EmptyString) [sample_columns; sample_patron].

(** GitHub does not know the login as an organization and has two pages
    for it as a user; Liberapay has the export. *)
Definition sample_fetch_text (url : string) (headers : list (string * string))
    (data : option string) (w : sample_world) : outcome string * sample_world :=
  if String.eqb url GITHUB_GRAPHQL_URL then
    (match answered w with
     | O => Return "not found"
     | S O => Return "first page"
     | S (S O) => Return "second page"
     | _ => Throw (URLError "<urlopen error timed out>")
     end, {| answered := S (answered w); document := document w |})
  else (Return sample_export, w).

Definition sample_loads (text : string) : outcome json :=
  if String.eqb text "not found" then Return sample_not_found
  else if String.eqb text "first page" then
    Return (sample_page "user" [named_node "The Octocat"] (JBool true) (JStr "Mg"))
  else if String.eqb text "second page" then
    Return (sample_page "user" [hubot_node] (JBool false) JNull)
  else Throw (OtherError "JSONDecodeError").

Definition sample_dumps (value : json) : string := "{}".

Definition sample_printed (value : json) : string := "[]".

Definition sample_read (path : string) (w : sample_world) : outcome string * sample_world :=
  (Return (document w), w).

Definition sample_write (path text : string) (w : sample_world)
  : outcome unit * sample_world :=
  (Return tt, {| answered := answered w; document := text |}).

Definition sample_document : string :=
  "# Sponsors " ++ HIGHLIGHTED ++ "old" ++ HIGHLIGHTED ++ " and " ++ REGULAR ++ "old"
  ++ REGULAR ++ " end".

Definition sample_start : sample_world :=
  {| answered := 0; document := sample_document |}.

Definition sample_args : Args := {|
  github_login := "hcloud-k8s";
  liberapay_username := Some "hcloud-k8s";
  minimums := {| args_github_regular_monthly_minimum := Dec.of_Z 5;
                 args_github_highlighted_monthly_minimum := Dec.of_Z 20;
                 args_liberapay_regular_weekly_minimum := Dec.of_Z 0;
                 args_liberapay_highlighted_weekly_minimum := Dec.of_Z 5 |};
  readme := "README.md"
|}.

(** An error of a response: an object whose type can be a member of a set. *)
Definition typed_error (error : json) : Prop :=
  exists e, error = JObject e /\ Json.hashable (dict_get e "type") = true.

(** An error of a type other than NOT_FOUND. *)
Definition other_error (error : json) : Prop :=
  exists e, error = JObject e /\ Json.equals (dict_get e "type") "NOT_FOUND" = false.

(** A response that reports a failure: some error is of another type than
    NOT_FOUND. *)
Definition is_failure (response : json) (errors : list json) : Prop :=
  exists fields,
    response = JObject fields /\ dict_get fields "errors" = JList errors /\
    Forall typed_error errors /\ Exists other_error errors.

Definition sample_failure : json :=
  JObject
    [("data", JObject [("organization", JNull)]);
     ("errors",
      JList [JObject [("type", JStr "NOT_FOUND")]; JObject [("type", JStr "FORBIDDEN")]])].

(** GitHub answers every request with the failure. *)
Definition failing_fetch_text (url : string) (headers : list (string * string))
    (data : option string) (w : sample_world) : outcome string * sample_world :=
  (Return "failure", {| answered := S (answered w); document := document w |}).

Definition failing_loads (text : string) : outcome json := Return sample_failure.

(** * Properties *)

(** ** The order on decimals *)

Lemma pow10_scale (e m m' : Z) :
  m' <= m -> m <= e -> 10 ^ (e - m') = 10 ^ (e - m) * 10 ^ (m - m').
Proof.
  intros H1 H2. rewrite <- Z.pow_add_r by lia. f_equal. lia.
Qed.

Lemma mul_compare_pos (x y p : Z) : 0 < p -> (x * p ?= y * p) = (x ?= y).
Proof.
  intros Hp.
  destruct (Z.compare_spec x y) as [H | H | H].
  - subst. apply Z.compare_refl.
  - apply Z.compare_lt_iff. nia.
  - apply Z.compare_gt_iff. nia.
Qed.

Lemma cmp_finite_scale s1 c1 e1 s2 c2 e2 m :
  m <= e1 -> m <= e2 ->
  Dec.cmp_finite s1 c1 e1 s2 c2 e2
  = (Dec.signed s1 c1 * 10 ^ (e1 - m) ?= Dec.signed s2 c2 * 10 ^ (e2 - m)).
Proof.
  intros H1 H2. unfold Dec.cmp_finite.
  set (m0 := Z.min e1 e2).
  rewrite (pow10_scale e1 m0 m), (pow10_scale e2 m0 m) by (unfold m0; lia).
  rewrite !Z.mul_assoc.
  symmetry. apply mul_compare_pos.
  apply Z.pow_pos_nonneg; unfold m0; lia.
Qed.

Lemma compare_antisym (a b : Decimal) :
  Dec.compare b a = option_map CompOpp (Dec.compare a b).
Proof.
  destruct a as [s1 c1 e1 | s1 | s1 g1 p1], b as [s2 c2 e2 | s2 | s2 g2 p2];
    simpl; try reflexivity.
  - f_equal. unfold Dec.cmp_finite. rewrite (Z.min_comm e2 e1).
    apply Z.compare_antisym.
  - destruct s2; reflexivity.
  - destruct s1; reflexivity.
  - destruct s1, s2; reflexivity.
Qed.

Lemma compare_number (a b : Decimal) :
  number a -> number b -> exists c, Dec.compare a b = Some c.
Proof.
  unfold number. destruct a, b; simpl; intros; try discriminate; eauto.
Qed.

Lemma compare_some_number (a b : Decimal) c :
  Dec.compare a b = Some c -> number a /\ number b.
Proof.
  unfold number. destruct a, b; simpl; intros; try discriminate; auto.
Qed.

(** Three finite decimals compared on one scale. *)
Lemma cmp_finite_trans s1 c1 e1 s2 c2 e2 s3 c3 e3 :
  Dec.cmp_finite s1 c1 e1 s2 c2 e2 <> Gt ->
  Dec.cmp_finite s2 c2 e2 s3 c3 e3 <> Gt ->
  Dec.cmp_finite s1 c1 e1 s3 c3 e3 <> Gt /\
  (Dec.cmp_finite s1 c1 e1 s3 c3 e3 = Eq ->
   Dec.cmp_finite s1 c1 e1 s2 c2 e2 = Eq /\ Dec.cmp_finite s2 c2 e2 s3 c3 e3 = Eq).
Proof.
  set (m := Z.min e1 (Z.min e2 e3)).
  rewrite (cmp_finite_scale s1 c1 e1 s2 c2 e2 m),
          (cmp_finite_scale s2 c2 e2 s3 c3 e3 m),
          (cmp_finite_scale s1 c1 e1 s3 c3 e3 m) by (unfold m; lia).
  generalize (Dec.signed s1 c1 * 10 ^ (e1 - m)),
             (Dec.signed s2 c2 * 10 ^ (e2 - m)),
             (Dec.signed s3 c3 * 10 ^ (e3 - m)).
  intros x y z Hxy Hyz.
  rewrite !Z.compare_eq_iff. rewrite Z.compare_gt_iff in *. lia.
Qed.

Lemma Dle_alt (a b : Decimal) :
  Dle a b <-> exists c, Dec.compare a b = Some c /\ c <> Gt.
Proof.
  unfold Dle. split.
  - intros [H | H]; rewrite H; eexists; split; eauto; discriminate.
  - intros [c [H Hc]]. rewrite H. destruct c; auto. congruence.
Qed.

Lemma Dle_trans_strong (a b c : Decimal) :
  Dle a b -> Dle b c ->
  Dle a c /\ (Dec.compare a c = Some Eq ->
              Dec.compare a b = Some Eq /\ Dec.compare b c = Some Eq).
Proof.
  rewrite !Dle_alt. intros [x [Hx Hx']] [y [Hy Hy']].
  destruct a as [s1 c1 e1 | s1 | s1 g1 p1]; try discriminate;
  destruct b as [s2 c2 e2 | s2 | s2 g2 p2]; try discriminate;
  destruct c as [s3 c3 e3 | s3 | s3 g3 p3]; try discriminate;
  simpl in *;
  try (destruct s1; simpl in *); try (destruct s2; simpl in *);
  try (destruct s3; simpl in *);
  repeat match goal with
         | H : Some _ = Some _ |- _ => injection H as H; subst
         end;
  try congruence;
  try (split; [eexists; split; [reflexivity | discriminate] | discriminate]);
  try (split; [eexists; split; [reflexivity | discriminate] | auto]).
  all: destruct (cmp_finite_trans _ c1 e1 _ c2 e2 _ c3 e3 Hx' Hy') as [H1 H2].
  all: split; [eexists; split; [reflexivity | exact H1] |].
  all: intros H; injection H as H; destruct (H2 H); split; congruence.
Qed.

Lemma Dle_trans (a b c : Decimal) : Dle a b -> Dle b c -> Dle a c.
Proof. intros H1 H2. apply (Dle_trans_strong a b c H1 H2). Qed.

Lemma Dlt_Dle (a b : Decimal) : Dlt a b -> Dle a b.
Proof. unfold Dlt, Dle. auto. Qed.

Lemma Dle_Dlt_trans (a b c : Decimal) : Dle a b -> Dlt b c -> Dle a c /\ Dlt a c.
Proof.
  intros H1 H2.
  destruct (Dle_trans_strong a b c H1 (Dlt_Dle _ _ H2)) as [H3 H4].
  split; [exact H3 |].
  unfold Dlt in *. destruct H3 as [H3 | H3]; [exact H3 |].
  destruct (H4 H3) as [_ H5]. congruence.
Qed.

(** [a >= b], [a <= b] and [a < b] in terms of the order. *)
Lemma ge_spec (a b : Decimal) :
  number a -> number b ->
  (Dec.ge a b = Ok true /\ Dle b a) \/ (Dec.ge a b = Ok false /\ Dlt a b).
Proof.
  intros Ha Hb. destruct (compare_number a b Ha Hb) as [c Hc].
  unfold Dec.ge, Dec.ordering, Dle, Dlt.
  rewrite (compare_antisym a b), Hc. simpl.
  destruct c; simpl; auto.
Qed.

Lemma le_spec (a b : Decimal) :
  number a -> number b ->
  (Dec.le a b = Ok true /\ Dle a b) \/ (Dec.le a b = Ok false /\ Dlt b a).
Proof.
  intros Ha Hb. destruct (compare_number a b Ha Hb) as [c Hc].
  unfold Dec.le, Dec.ordering, Dle, Dlt.
  rewrite (compare_antisym a b), Hc. simpl.
  destruct c; simpl; auto.
Qed.

Lemma lt_spec (a b : Decimal) :
  number a -> number b ->
  (Dec.lt a b = Ok true /\ Dlt a b) \/ (Dec.lt a b = Ok false /\ Dle b a).
Proof.
  intros Ha Hb. destruct (compare_number a b Ha Hb) as [c Hc].
  unfold Dec.lt, Dec.ordering, Dle, Dlt.
  rewrite (compare_antisym a b), Hc. simpl.
  destruct c; simpl; auto.
Qed.

Lemma Dlt_not_Dle (a b : Decimal) : Dlt a b -> Dle b a -> False.
Proof.
  unfold Dlt, Dle. rewrite (compare_antisym a b).
  intros ->. simpl. intros [H | H]; discriminate.
Qed.

Lemma ordering_nan_l test (a b : Decimal) :
  Dec.is_nan a = true -> Dec.ordering test a b = Raise InvalidOperation.
Proof. destruct a; try discriminate. reflexivity. Qed.

(** ** Classification *)

Lemma monthly_tier_cases (a r h : Decimal) :
  number a -> number r -> number h ->
  (Dle h a /\ monthly_tier a r h = Ok (Some "highlighted")) \/
  (Dlt a h /\ Dle r a /\ monthly_tier a r h = Ok (Some "regular")) \/
  (Dlt a h /\ Dlt a r /\ monthly_tier a r h = Ok None).
Proof.
  intros Ha Hr Hh. unfold monthly_tier.
  destruct (ge_spec a h Ha Hh) as [[-> H1] | [-> H1]]; simpl; auto.
  destruct (le_spec r a Hr Ha) as [[-> H2] | [-> H2]]; simpl; auto.
  destruct (lt_spec a h Ha Hh) as [[-> H3] | [-> H3]]; simpl; auto.
  exfalso. eapply Dlt_not_Dle; eauto.
Qed.

Lemma monthly_tier_nan (p : N) (sg signaling : bool) (r h : Decimal) :
  monthly_tier (NaN sg signaling p) r h = Raise InvalidOperation.
Proof. reflexivity. Qed.

(** C4 (amended).  For every monthly amount and pair of minimums that are
    numbers, [monthly_tier] returns "highlighted" exactly when the amount is
    at least the highlighted minimum, "regular" exactly when it is at least
    the regular minimum and below the highlighted one, and [None] exactly
    when it is neither. *)
Theorem monthly_tier_classifies (a r h : Decimal) :
  number a -> number r -> number h ->
  (monthly_tier a r h = Ok (Some "highlighted") <-> Dle h a) /\
  (monthly_tier a r h = Ok (Some "regular") <-> Dle r a /\ Dlt a h) /\
  (monthly_tier a r h = Ok None <-> ~ Dle h a /\ ~ (Dle r a /\ Dlt a h)).
Proof.
  intros Ha Hr Hh.
  destruct (monthly_tier_cases a r h Ha Hr Hh)
    as [[H1 ->] | [[H1 [H2 ->]] | [H1 [H2 ->]]]];
    repeat split; unfold not; intros;
    repeat match goal with H : _ /\ _ |- _ => destruct H end;
    try discriminate; try reflexivity; try assumption; try tauto;
    try (exfalso; eauto using Dlt_not_Dle).
Qed.

Lemma monthly_tier_classifies_witness :
  monthly_tier (Dec.of_Z 10) (Dec.of_Z 5) (Dec.of_Z 20) = Ok (Some "regular")
  <-> Dle (Dec.of_Z 5) (Dec.of_Z 10) /\ Dlt (Dec.of_Z 10) (Dec.of_Z 20).
Proof.
  apply (monthly_tier_classifies (Dec.of_Z 10) (Dec.of_Z 5) (Dec.of_Z 20));
    reflexivity.
Defined.

(** A NaN amount is neither at least the highlighted minimum nor within the
    regular band, yet the result is not [None]: the comparison raises. *)
Lemma monthly_tier_nan_not_excluded :
  let a := NaN false false 0 in
  let r := Dec.of_Z 5 in
  let h := Dec.of_Z 20 in
  ~ Dle h a /\ ~ (Dle r a /\ Dlt a h) /\
  monthly_tier a r h <> Ok None /\
  monthly_tier a r h = Raise InvalidOperation.
Proof.
  cbv zeta. repeat split.
  - intros [H | H]; discriminate.
  - intros [[H | H] _]; discriminate.
  - discriminate.
Qed.

(** C5.  For amounts [a1 < a2] and minimums with the highlighted one at
    least the regular one, [monthly_tier] returns for both, and the tier of
    [a1] is never more exclusive than that of [a2]. *)
Theorem monthly_tier_monotone (a1 a2 r h : Decimal) :
  Dlt a1 a2 -> Dle r h ->
  exists t1 t2,
    monthly_tier a1 r h = Ok t1 /\ monthly_tier a2 r h = Ok t2 /\
    (tier_rank t1 <= tier_rank t2)%nat.
Proof.
  intros H12 Hrh.
  destruct (compare_some_number a1 a2 _ H12) as [N1 N2].
  assert (Nr : number r /\ number h).
  { destruct Hrh as [H | H]; apply (compare_some_number _ _ _ H). }
  destruct Nr as [Nr Nh].
  destruct (monthly_tier_cases a1 r h N1 Nr Nh)
    as [[A1 ->] | [[A1 [A2 ->]] | [A1 [A2 ->]]]];
  destruct (monthly_tier_cases a2 r h N2 Nr Nh)
    as [[B1 ->] | [[B1 [B2 ->]] | [B1 [B2 ->]]]];
  do 2 eexists; (split; [reflexivity | split; [reflexivity |]]); simpl;
    try lia; exfalso.
  all: try (destruct (Dle_Dlt_trans h a1 a2 A1 H12) as [H _]).
  all: try (destruct (Dle_Dlt_trans r a1 a2 A2 H12) as [H' _]).
  all: match goal with
       | H1 : Dlt ?x ?y, H2 : Dle ?y ?x |- _ => exact (Dlt_not_Dle x y H1 H2)
       end.
Qed.

Lemma monthly_tier_monotone_witness :
  exists t1 t2,
    monthly_tier (Dec.of_Z 10) (Dec.of_Z 5) (Dec.of_Z 20) = Ok t1 /\
    monthly_tier (Dec.of_Z 25) (Dec.of_Z 5) (Dec.of_Z 20) = Ok t2 /\
    (tier_rank t1 <= tier_rank t2)%nat.
Proof.
  apply (monthly_tier_monotone (Dec.of_Z 10) (Dec.of_Z 25) (Dec.of_Z 5) (Dec.of_Z 20)).
  - reflexivity.
  - left. reflexivity.
Defined.

Lemma lt_false_Dle (a b : Decimal) : Dec.lt a b = Ok false -> Dle b a.
Proof.
  unfold Dec.lt, Dec.ordering, Dle. rewrite (compare_antisym a b).
  destruct (Dec.compare a b) as [[]|]; simpl; intros H; try discriminate; auto.
Qed.

Lemma check_non_negative_ok (values : list Decimal) (u : unit) :
  check_non_negative values = Ok u -> Forall (Dle (Dec.of_Z 0)) values.
Proof.
  induction values as [| v rest IH]; simpl; intros H; [constructor |].
  destruct (Dec.lt v (Dec.of_Z 0)) as [[] | e] eqn:E; simpl in H; try discriminate.
  constructor; [apply lt_false_Dle, E | apply IH, H].
Qed.

(** X4.  The thresholds [build_thresholds] accepts are non-negative numbers
    with each highlighted minimum at least the regular one. *)
Lemma build_thresholds_enforces (args : Namespace) (t : Thresholds) :
  build_thresholds args = Ok t ->
  Dle (github_regular_monthly_minimum t) (github_highlighted_monthly_minimum t) /\
  Dle (liberapay_regular_weekly_minimum t) (liberapay_highlighted_weekly_minimum t) /\
  Dle (Dec.of_Z 0) (github_regular_monthly_minimum t) /\
  Dle (Dec.of_Z 0) (liberapay_regular_weekly_minimum t).
Proof.
  unfold build_thresholds. cbv zeta.
  destruct (check_non_negative _) as [u | e] eqn:E; simpl; try discriminate.
  apply check_non_negative_ok in E.
  destruct (Dec.lt _ _) as [[] | e] eqn:E1 at 1; simpl; try discriminate.
  destruct (Dec.lt _ _) as [[] | e] eqn:E2 at 1; simpl; try discriminate.
  intros H. injection H as <-. simpl.
  inversion E as [| ? ? Z1 E']; subst. inversion E' as [| ? ? Z2 E'']; subst.
  inversion E'' as [| ? ? Z3 E3]; subst.
  repeat split; auto using lt_false_Dle.
Qed.

Lemma build_thresholds_enforces_witness :
  Dle (Dec.of_Z 5) (Dec.of_Z 20) /\ Dle (Dec.of_Z 0) (Dec.of_Z 5) /\
  Dle (Dec.of_Z 0) (Dec.of_Z 5) /\ Dle (Dec.of_Z 0) (Dec.of_Z 0).
Proof.
  apply (build_thresholds_enforces
           {| args_github_regular_monthly_minimum := Dec.of_Z 5;
              args_github_highlighted_monthly_minimum := Dec.of_Z 20;
              args_liberapay_regular_weekly_minimum := Dec.of_Z 0;
              args_liberapay_highlighted_weekly_minimum := Dec.of_Z 5 |}
           sample_thresholds).
  reflexivity.
Defined.

(** ** Comparisons that are total orders *)

Lemma cmp_refl {A : Type} (cmp : A -> A -> comparison) `{Order A cmp} (x : A) :
  cmp x x = Eq.
Proof.
  pose proof (cmp_antisym cmp x x) as E. destruct (cmp x x); simpl in E; congruence.
Qed.

#[export] Instance Z_order : Order Z.compare.
Proof.
  split.
  - intros x y. apply Z.compare_antisym.
  - intros x y. apply Z.compare_eq.
  - intros x y z. rewrite !Z.compare_lt_iff. lia.
Qed.

#[export] Instance ascii_order : Order Ascii.compare.
Proof.
  split.
  - intros x y. apply Ascii.compare_antisym.
  - intros x y. apply Ascii.compare_eq_iff.
  - intros x y z. unfold Ascii.compare. rewrite !N.compare_lt_iff. lia.
Qed.

Lemma string_compare_trans (x y z : string) :
  String.compare x y = Lt -> String.compare y z = Lt -> String.compare x z = Lt.
Proof.
  revert y z. induction x as [| a x IH]; intros [| b y] [| c z]; simpl;
    try discriminate; auto.
  destruct (Ascii.compare a b) eqn:Eab; try discriminate;
  destruct (Ascii.compare b c) eqn:Ebc; try discriminate; intros H1 H2.
  - apply (cmp_eq Ascii.compare) in Eab, Ebc. subst.
    rewrite (cmp_refl Ascii.compare). eauto.
  - apply (cmp_eq Ascii.compare) in Eab. subst. rewrite Ebc. reflexivity.
  - apply (cmp_eq Ascii.compare) in Ebc. subst. rewrite Eab. reflexivity.
  - rewrite (cmp_trans Ascii.compare _ _ _ Eab Ebc). reflexivity.
Qed.

#[export] Instance string_order : Order String.compare.
Proof.
  split.
  - intros x y. apply String.compare_antisym.
  - intros x y. apply String.compare_eq_iff.
  - apply string_compare_trans.
Qed.

#[export] Instance pair_order {A B : Type} (ca : A -> A -> comparison)
    (cb : B -> B -> comparison) `{Order A ca} `{Order B cb} :
  Order (pair_compare ca cb).
Proof.
  split.
  - intros [a b] [a' b']. unfold pair_compare. simpl.
    rewrite (cmp_antisym ca a a'), (cmp_antisym cb b b').
    destruct (ca a a'); reflexivity.
  - intros [a b] [a' b']. unfold pair_compare. simpl.
    destruct (ca a a') eqn:E; try discriminate.
    intros E'. apply (cmp_eq ca) in E. apply (cmp_eq cb) in E'. congruence.
  - intros [a b] [a' b'] [a'' b'']. unfold pair_compare. simpl.
    destruct (ca a a') eqn:E1; try discriminate;
    destruct (ca a' a'') eqn:E2; try discriminate; intros H1 H2.
    + apply (cmp_eq ca) in E1, E2. subst. rewrite (cmp_refl ca).
      exact (cmp_trans cb _ _ _ H1 H2).
    + apply (cmp_eq ca) in E1. subst. rewrite E2. reflexivity.
    + apply (cmp_eq ca) in E2. subst. rewrite E1. reflexivity.
    + rewrite (cmp_trans ca _ _ _ E1 E2). reflexivity.
Qed.

#[export] Instance sort_key_order : Order sort_key_compare.
Proof. unfold sort_key_compare. typeclasses eauto. Qed.

Lemma key_lt_iff (a b : Sponsor) :
  key_lt a b = true <-> sort_key_compare (sort_key a) (sort_key b) = Lt.
Proof.
  unfold key_lt. destruct (sort_key_compare _ _); split; congruence.
Qed.

Lemma key_lt_false_iff (a b : Sponsor) : key_lt b a = false <-> key_le a b.
Proof.
  unfold key_lt, key_le.
  rewrite (cmp_antisym sort_key_compare (sort_key a) (sort_key b)).
  destruct (sort_key_compare _ _); simpl; split; congruence.
Qed.

Lemma key_le_trans (a b c : Sponsor) : key_le a b -> key_le b c -> key_le a c.
Proof.
  unfold key_le. intros H1 H2.
  destruct (sort_key_compare (sort_key a) (sort_key b)) eqn:E1; try congruence;
  destruct (sort_key_compare (sort_key b) (sort_key c)) eqn:E2; try congruence.
  - apply (cmp_eq sort_key_compare) in E1. rewrite E1, E2. discriminate.
  - apply (cmp_eq sort_key_compare) in E1. rewrite E1, E2. discriminate.
  - apply (cmp_eq sort_key_compare) in E2. rewrite <- E2, E1. discriminate.
  - rewrite (cmp_trans sort_key_compare _ _ _ E1 E2). discriminate.
Qed.

Lemma key_lt_le (a b : Sponsor) : key_lt a b = true -> key_le a b.
Proof. rewrite key_lt_iff. unfold key_le. congruence. Qed.

(** Equal sort keys mean equal identities. *)
Lemma key_eq_identity (a b : Sponsor) :
  sort_key_compare (sort_key a) (sort_key b) = Eq -> identity a = identity b.
Proof.
  intros E. apply (cmp_eq sort_key_compare) in E. unfold sort_key in E. unfold identity. congruence.
Qed.

(** ** [sorted] *)

Lemma insert_sorted_perm (x : Sponsor) (l : list Sponsor) :
  Permutation (insert_sorted x l) (x :: l).
Proof.
  induction l as [| y rest IH]; cbn [insert_sorted]; [reflexivity |].
  destruct (key_lt y x); [| reflexivity].
  rewrite IH. apply perm_swap.
Qed.

Lemma sorted_perm (l : list Sponsor) : Permutation (sorted l) l.
Proof.
  induction l as [| x rest IH]; simpl; [reflexivity |].
  rewrite insert_sorted_perm. now constructor.
Qed.

Lemma insert_sorted_ordered (x : Sponsor) (l : list Sponsor) :
  StronglySorted key_le l -> StronglySorted key_le (insert_sorted x l).
Proof.
  induction 1 as [| y rest Hs IH Hy]; cbn [insert_sorted].
  - repeat constructor.
  - destruct (key_lt y x) eqn:E.
    + constructor; [exact IH |].
      rewrite insert_sorted_perm.
      constructor; [apply key_lt_le, E | exact Hy].
    + apply key_lt_false_iff in E.
      constructor; [constructor; assumption |].
      constructor; [exact E |].
      eapply Forall_impl; [| exact Hy]. intros z Hz. eapply key_le_trans; eauto.
Qed.

Lemma sorted_ordered (l : list Sponsor) : StronglySorted key_le (sorted l).
Proof.
  induction l as [| x rest IH]; simpl; [constructor |].
  apply insert_sorted_ordered, IH.
Qed.

(** ** The deduplicating dictionary *)

Lemma identity_eqb_eq (a b : string * string) : identity_eqb a b = true <-> a = b.
Proof.
  destruct a as [a1 a2], b as [b1 b2]. unfold identity_eqb. simpl.
  rewrite andb_true_iff, !String.eqb_eq. split; [intros []; congruence |].
  intros H. injection H as -> ->. auto.
Qed.

Lemma identity_eqb_refl (a : string * string) : identity_eqb a a = true.
Proof. now apply identity_eqb_eq. Qed.

Lemma identity_eqb_neq (a b : string * string) : identity_eqb a b = false <-> a <> b.
Proof.
  rewrite <- identity_eqb_eq. destruct (identity_eqb a b); split; congruence.
Qed.

Section Dict.

Context {V : Type}.
Implicit Types (d : list ((string * string) * V)) (k : string * string) (v : V).

Lemma lookup_set_same k v d : dict_lookup k (dict_set k v d) = Some v.
Proof.
  induction d as [| [k' v'] rest IH]; simpl.
  - now rewrite identity_eqb_refl.
  - destruct (identity_eqb k' k) eqn:E; simpl; rewrite E; auto.
Qed.

Lemma lookup_set_other k k' v d :
  k' <> k -> dict_lookup k' (dict_set k v d) = dict_lookup k' d.
Proof.
  intros Hne. induction d as [| [k0 v0] rest IH]; simpl.
  - assert (E : identity_eqb k k' = false) by (apply identity_eqb_neq; congruence).
    now rewrite E.
  - destruct (identity_eqb k0 k) eqn:E; simpl.
    + apply identity_eqb_eq in E. subst k0.
      assert (E : identity_eqb k k' = false) by (apply identity_eqb_neq; congruence).
      now rewrite E.
    + destruct (identity_eqb k0 k'); auto.
Qed.

Lemma keys_set k v d k' :
  In k' (List.map fst (dict_set k v d)) <-> k' = k \/ In k' (List.map fst d).
Proof.
  induction d as [| [k0 v0] rest IH]; simpl.
  - intuition.
  - destruct (identity_eqb k0 k) eqn:E; simpl.
    + apply identity_eqb_eq in E. subst. intuition.
    + rewrite IH. intuition.
Qed.

Lemma keys_set_nodup k v d :
  NoDup (List.map fst d) -> NoDup (List.map fst (dict_set k v d)).
Proof.
  induction d as [| [k0 v0] rest IH]; simpl; intros H.
  - repeat constructor. intros [].
  - inversion H as [| ? ? Hn Hr]; subst.
    destruct (identity_eqb k0 k) eqn:E; simpl.
    + constructor; assumption.
    + constructor; [| auto].
      rewrite keys_set. intros [-> | Hin]; [| contradiction].
      now rewrite identity_eqb_refl in E.
Qed.

Lemma in_lookup k v d :
  NoDup (List.map fst d) -> (In (k, v) d <-> dict_lookup k d = Some v).
Proof.
  induction d as [| [k0 v0] rest IH]; simpl; intros H.
  - split; [intros [] | discriminate].
  - inversion H as [| ? ? Hn Hr]; subst.
    destruct (identity_eqb k0 k) eqn:E.
    + apply identity_eqb_eq in E. subst k0. split.
      * intros [Heq | Hin]; [congruence |].
        exfalso. apply Hn. change k with (fst (k, v)). now apply in_map.
      * intros Heq. left. congruence.
    + rewrite <- (IH Hr). split; [| auto].
      intros [Heq | Hin]; [| exact Hin].
      injection Heq as -> ->. now rewrite identity_eqb_refl in E.
Qed.

End Dict.

Lemma collect_lookup (l : list Sponsor) d k :
  dict_lookup k (collect l d)
  = match find_last k l with Some s => Some s | None => dict_lookup k d end.
Proof.
  revert d. induction l as [| s rest IH]; intros d; simpl; [reflexivity |].
  rewrite IH. destruct (find_last k rest); [reflexivity |].
  destruct (identity_eqb (identity s) k) eqn:E.
  - apply identity_eqb_eq in E. subst k. apply lookup_set_same.
  - apply lookup_set_other. apply identity_eqb_neq in E. congruence.
Qed.

Lemma collect_nodup (l : list Sponsor) d :
  NoDup (List.map fst d) -> NoDup (List.map fst (collect l d)).
Proof.
  revert d. induction l as [| s rest IH]; intros d H; simpl; [exact H |].
  apply IH, keys_set_nodup, H.
Qed.

Lemma dict_set_keyed (s : Sponsor) d :
  Forall (fun kv => fst kv = identity (snd kv)) d ->
  Forall (fun kv => fst kv = identity (snd kv)) (dict_set (identity s) s d).
Proof.
  induction 1 as [| [k0 v0] rest Hk Hr IH]; simpl.
  - repeat constructor.
  - destruct (identity_eqb k0 (identity s)) eqn:E.
    + constructor; [| exact Hr]. simpl. now apply identity_eqb_eq.
    + constructor; assumption.
Qed.

Lemma collect_keyed (l : list Sponsor) d :
  Forall (fun kv => fst kv = identity (snd kv)) d ->
  Forall (fun kv => fst kv = identity (snd kv)) (collect l d).
Proof.
  revert d. induction l as [| s rest IH]; intros d H; simpl; [exact H |].
  apply IH, dict_set_keyed, H.
Qed.

Lemma keyed_values (d : list ((string * string) * Sponsor)) :
  Forall (fun kv => fst kv = identity (snd kv)) d ->
  List.map identity (values d) = List.map fst d.
Proof.
  unfold values. induction 1 as [| [k v] rest Hk Hr IH]; simpl; [reflexivity |].
  simpl in Hk. congruence.
Qed.

Lemma find_last_identity k l s : find_last k l = Some s -> identity s = k.
Proof.
  induction l as [| x rest IH]; simpl; [discriminate |].
  destruct (find_last k rest); [intros H; injection H as ->; auto |].
  destruct (identity_eqb (identity x) k) eqn:E; [| discriminate].
  intros H. injection H as <-. now apply identity_eqb_eq.
Qed.

Lemma find_last_none k l :
  find_last k l = None <-> Forall (fun t => identity t <> k) l.
Proof.
  induction l as [| x rest IH]; simpl.
  - split; auto.
  - destruct (find_last k rest) eqn:E.
    + split; [discriminate |]. intros H. inversion H; subst.
      destruct IH as [_ IH]. discriminate IH. assumption.
    + destruct (identity_eqb (identity x) k) eqn:E'.
      * split; [discriminate |]. intros H. inversion H as [| ? ? Hx _]; subst.
        apply identity_eqb_eq in E'. contradiction.
      * split; [| reflexivity]. intros _. constructor.
        -- now apply identity_eqb_neq.
        -- now apply IH.
Qed.

Lemma find_last_spec (l : list Sponsor) (s : Sponsor) :
  find_last (identity s) l = Some s <-> last_of_identity s l.
Proof.
  unfold last_of_identity. induction l as [| x rest IH]; simpl.
  - split; [discriminate |]. intros [[| ? ?] [l2 [H _]]]; discriminate.
  - destruct (find_last (identity s) rest) as [y |] eqn:E.
    + split.
      * intros H. injection H as ->. destruct IH as [IH _].
        destruct (IH eq_refl) as [l1 [l2 [-> Hl2]]].
        exists (x :: l1), l2. auto.
      * intros [l1 [l2 [H Hl2]]]. destruct l1 as [| z l1]; simpl in H.
        -- injection H as -> ->. apply find_last_none in Hl2. congruence.
        -- injection H as -> ->. apply IH. eauto.
    + apply find_last_none in E. destruct (identity_eqb (identity x) (identity s)) eqn:E'.
      * split.
        -- intros H. injection H as ->. exists [], rest. auto.
        -- intros [l1 [l2 [H Hl2]]]. destruct l1 as [| z l1]; simpl in H.
           ++ injection H as -> ->. reflexivity.
           ++ injection H as -> ->. rewrite Forall_app in E. destruct E as [_ E].
              inversion E; subst. congruence.
      * split; [discriminate |].
        intros [l1 [l2 [H Hl2]]]. destruct l1 as [| z l1]; simpl in H.
        -- injection H as -> ->. now rewrite identity_eqb_refl in E'.
        -- injection H as -> ->. rewrite Forall_app in E. destruct E as [_ E].
           inversion E; subst. congruence.
Qed.

Lemma find_last_app k (l1 l2 : list Sponsor) :
  find_last k (l1 ++ l2)
  = match find_last k l2 with Some s => Some s | None => find_last k l1 end.
Proof.
  induction l1 as [| x rest IH]; simpl.
  - destruct (find_last k l2); reflexivity.
  - rewrite IH. destruct (find_last k l2); reflexivity.
Qed.

Lemma find_last_in k l s : find_last k l = Some s -> In s l.
Proof.
  induction l as [| x rest IH]; simpl; [discriminate |].
  destruct (find_last k rest); [intros H; injection H as ->; auto |].
  destruct (identity_eqb (identity x) k); [| discriminate].
  intros H. injection H as ->. auto.
Qed.

Lemma collected_values (l : list Sponsor) (s : Sponsor) :
  In s (values (collect l [])) <-> find_last (identity s) l = Some s.
Proof.
  assert (Hk := collect_keyed l [] (Forall_nil _)).
  assert (Hn := collect_nodup l [] (NoDup_nil _)).
  unfold values. rewrite in_map_iff. split.
  - intros [[k v] [Hv Hin]]. simpl in Hv. subst v.
    rewrite Forall_forall in Hk. pose proof (Hk _ Hin) as Hid. simpl in Hid. subst k.
    apply (in_lookup _ _ _ Hn) in Hin. rewrite collect_lookup in Hin.
    destruct (find_last (identity s) l); [assumption | discriminate].
  - intros H. exists (identity s, s). split; [reflexivity |].
    apply (in_lookup _ _ _ Hn). rewrite collect_lookup, H. reflexivity.
Qed.

Lemma collected_nodup (l : list Sponsor) :
  NoDup (List.map identity (values (collect l []))).
Proof.
  rewrite keyed_values by (apply collect_keyed; constructor).
  apply collect_nodup. constructor.
Qed.

Lemma sort_and_dedupe_in (l : list Sponsor) (s : Sponsor) :
  In s (sort_and_dedupe l) <-> find_last (identity s) l = Some s.
Proof.
  unfold sort_and_dedupe. rewrite <- collected_values. split.
  - apply Permutation_in, sorted_perm.
  - apply Permutation_in. symmetry. apply sorted_perm.
Qed.

Lemma sort_and_dedupe_nodup (l : list Sponsor) :
  NoDup (List.map identity (sort_and_dedupe l)).
Proof.
  unfold sort_and_dedupe.
  eapply Permutation_NoDup; [| apply collected_nodup].
  apply Permutation_map. symmetry. apply sorted_perm.
Qed.

(** C6.  [sort_and_dedupe] keeps exactly one record per identity
    [(platform, key)], the last one of the input with that identity; in the
    merged list, where Liberapay's records come before GitHub's, the record
    kept for an identity that a GitHub record has is a GitHub record. *)
Theorem sort_and_dedupe_last_wins (sponsors : list Sponsor) :
  NoDup (List.map identity (sort_and_dedupe sponsors)) /\
  (forall s, In s (sort_and_dedupe sponsors) <-> last_of_identity s sponsors) /\
  (forall t, In t sponsors ->
     exists s, In s (sort_and_dedupe sponsors) /\ identity s = identity t) /\
  (forall patrons github s,
     sponsors = merged (Some patrons) github ->
     In s (sort_and_dedupe sponsors) ->
     (exists g, In g github /\ identity g = identity s) ->
     In s github).
Proof.
  split; [apply sort_and_dedupe_nodup |].
  split; [intros s; rewrite sort_and_dedupe_in; apply find_last_spec |].
  split.
  - intros t Ht.
    destruct (find_last (identity t) sponsors) as [s |] eqn:E.
    + pose proof (find_last_identity _ _ _ E) as Hid.
      exists s. split; [| exact Hid].
      apply sort_and_dedupe_in. now rewrite Hid.
    + apply find_last_none in E. rewrite Forall_forall in E.
      now destruct (E t Ht).
  - intros patrons github s -> Hin [g [Hg Hid]].
    apply sort_and_dedupe_in in Hin. simpl in Hin.
    rewrite find_last_app in Hin.
    destruct (find_last (identity s) github) as [s' |] eqn:E.
    + injection Hin as ->. eapply find_last_in, E.
    + apply find_last_none in E. rewrite Forall_forall in E.
      now destruct (E g Hg).
Qed.

Lemma strongly_sorted_before (R : Sponsor -> Sponsor -> Prop) (l : list Sponsor) a b :
  StronglySorted R l -> before a b l -> R a b.
Proof.
  intros Hs [l1 [l2 [l3 ->]]].
  induction l1 as [| x l1 IH]; simpl in Hs.
  - apply StronglySorted_inv in Hs as [_ Hf].
    rewrite Forall_forall in Hf. apply Hf.
    apply in_or_app. right. now left.
  - apply StronglySorted_inv in Hs as [Hs _]. auto.
Qed.

Lemma sorted_strict (l : list Sponsor) :
  StronglySorted key_le l -> NoDup (List.map identity l) ->
  StronglySorted (fun a b => key_lt a b = true) l.
Proof.
  induction 1 as [| a rest Hs IH Ha]; simpl; intros Hn; constructor.
  - apply IH. now inversion Hn.
  - inversion Hn as [| ? ? Hnotin _]; subst.
    rewrite Forall_forall in *. intros b Hb.
    apply key_lt_iff. specialize (Ha b Hb). unfold key_le in Ha.
    destruct (sort_key_compare (sort_key a) (sort_key b)) eqn:E; try congruence.
    exfalso. apply Hnotin. rewrite (key_eq_identity a b E). now apply in_map.
Qed.

Lemma sort_key_compare_eq (a b : Sponsor) :
  sort_key_compare (sort_key a) (sort_key b)
  = lex (DT.utc_micros (started_at a) ?= DT.utc_micros (started_at b))
      (lex (String.compare (Str.casefold (name a)) (Str.casefold (name b)))
         (pair_compare String.compare String.compare (identity a) (identity b))).
Proof.
  unfold sort_key_compare, sort_key, identity, pair_compare. cbn [fst snd].
  destruct (DT.utc_micros (started_at a) ?= DT.utc_micros (started_at b));
    try reflexivity.
  destruct (String.compare (Str.casefold (name a)) (Str.casefold (name b)));
    reflexivity.
Qed.

(** C7.  The output of [sort_and_dedupe] is sorted by
    [(started_at, name.casefold(), platform, key)], strictly: a sponsor that
    comes before another has a smaller key, and when the two agree on
    [started_at] and on the case-folded name, their identities differ and
    [(platform, key)] decides. *)
Theorem sort_and_dedupe_strictly_sorted (sponsors : list Sponsor) :
  StronglySorted key_le (sort_and_dedupe sponsors) /\
  StronglySorted (fun a b => key_lt a b = true) (sort_and_dedupe sponsors) /\
  (forall a b,
     before a b (sort_and_dedupe sponsors) ->
     DT.utc_micros (started_at a) = DT.utc_micros (started_at b) ->
     Str.casefold (name a) = Str.casefold (name b) ->
     identity a <> identity b /\
     pair_compare String.compare String.compare (identity a) (identity b) = Lt).
Proof.
  assert (Hle : StronglySorted key_le (sort_and_dedupe sponsors))
    by apply sorted_ordered.
  assert (Hlt := sorted_strict _ Hle (sort_and_dedupe_nodup sponsors)).
  split; [exact Hle |]. split; [exact Hlt |].
  intros a b Hab Ht Hn.
  pose proof (strongly_sorted_before _ _ _ _ Hlt Hab) as Hk.
  apply key_lt_iff in Hk. rewrite sort_key_compare_eq in Hk.
  rewrite Ht, Hn, Z.compare_refl, (cmp_refl String.compare) in Hk.
  cbn [lex] in Hk. split; [| exact Hk].
  intros Hid. unfold pair_compare in Hk. rewrite Hid in Hk.
  rewrite !(cmp_refl String.compare) in Hk. discriminate Hk.
Qed.

(** ** The GitHub adapter *)

(** Case analysis on the scrutinees of a hypothesis, in evaluation order. *)
Ltac crunch H :=
  repeat (cbn [bind] in H;
          match type of H with
          | context [bind ?r _] =>
              let E := fresh "E" in destruct r eqn:E; try discriminate H
          | context [match ?x with _ => _ end] =>
              let E := fresh "E" in destruct x eqn:E; try discriminate H
          end).

Lemma dict_get_cons k' v (d : dict) k :
  dict_get ((k', v) :: d) k = if String.eqb k' k then v else dict_get d k.
Proof. unfold dict_get. simpl. destruct (String.eqb k' k); reflexivity. Qed.

(** A node that yields a sponsor at some price raises when its price is the
    text NaN. *)
Lemma github_node_nan_price l2u th node price s :
  github_node l2u th (priced node price) = Ok (Some s) ->
  github_node l2u th (priced node (JStr "NaN")) = Raise InvalidOperation.
Proof.
  unfold github_node, tier_price, priced.
  rewrite !dict_get_cons.
  cbn [String.eqb Ascii.eqb Bool.eqb Py.or_else Py.truthy Py.get Py.lookup].
  intros H. crunch H.
  repeat (cbn [bind]; match goal with E : ?x = _ |- context [?x] => rewrite E end).
  reflexivity.
Qed.

(** An exception of one node is the exception of the page. *)
Lemma github_nodes_abort l2u th (before rest : list dict) node e :
  github_node l2u th node = Raise e ->
  raises (github_nodes l2u th (before ++ node :: rest)).
Proof.
  intros H. induction before as [| x before IH]; simpl.
  - rewrite H. simpl. now exists e.
  - destruct (github_node l2u th x) as [o | e']; simpl; [| now exists e'].
    destruct IH as [e' ->]. simpl. now exists e'.
Qed.


(** C9 (amended).  [parse_decimal] returns a value for the texts NaN and
    Infinity.  [monthly_tier] raises on the NaN amount, whatever the
    minimums, and a node that would yield a sponsor at some price raises
    when its price is the text NaN, which ends the page loop with an
    exception.  The infinite amount does not raise: it is "highlighted" for
    every highlighted minimum that is a number. *)
Theorem non_finite_amounts l2u th node price s :
  github_node l2u th (priced node price) = Ok (Some s) ->
  parse_decimal (JStr "NaN") = Ok (Some (NaN false false 0)) /\
  parse_decimal (JStr "Infinity") = Ok (Some (Infinity false)) /\
  (forall r h, monthly_tier (NaN false false 0) r h = Raise InvalidOperation) /\
  (forall r h, number h ->
     monthly_tier (Infinity false) r h = Ok (Some "highlighted")) /\
  github_node l2u th (priced node (JStr "NaN")) = Raise InvalidOperation /\
  (forall before rest,
     raises (github_nodes l2u th (before ++ priced node (JStr "NaN") :: rest))).
Proof.
  intros H.
  pose proof (github_node_nan_price _ _ _ _ _ H) as Hnan.
  repeat split; try reflexivity; try exact Hnan.
  - intros r h Hh. destruct h; try discriminate; destruct sign; reflexivity.
  - intros before rest. eapply github_nodes_abort, Hnan.
Qed.

Lemma non_finite_amounts_witness :
  github_node utc_machine sample_thresholds (priced sample_node (JStr "NaN"))
  = Raise InvalidOperation.
Proof.
  refine (proj1 (proj2 (proj2 (proj2 (proj2
    (non_finite_amounts utc_machine sample_thresholds sample_node (JInt 1000) _ _)))))).
  vm_compute. reflexivity.
Defined.

(** The infinite amount parses and is classified: nothing is raised. *)
Lemma infinite_amount_is_highlighted :
  parse_decimal (JStr "Infinity") = Ok (Some (Infinity false)) /\
  monthly_tier (Infinity false) (Dec.of_Z 5) (Dec.of_Z 20) = Ok (Some "highlighted") /\
  ~ raises (monthly_tier (Infinity false) (Dec.of_Z 5) (Dec.of_Z 20)).
Proof.
  repeat split. intros [e H]. discriminate H.
Qed.

(** ** Parsing never raises, with one exception *)

Lemma of_string_raises (text : string) (e : exception) :
  Dec.of_string text = Raise e -> e = InvalidOperation.
Proof.
  unfold Dec.of_string.
  destruct (Dec.split_sign _) as [sg body].
  destruct (Dec.parse_number sg body); [discriminate |].
  destruct (Dec.parse_special sg body); [discriminate |].
  congruence.
Qed.

(** X2.  [parse_decimal] returns for every object: no exception escapes. *)
Lemma parse_decimal_total (value : json) : exists o, parse_decimal value = Ok o.
Proof.
  assert (H : forall text,
             exists o,
               (if negb (Str.truthy text) then Ok None
                else Py.try_except (d <- Dec.of_string text ;; Ok (Some d))
                       Py.is_InvalidOperation None) = Ok o).
  { intros text. destruct (negb (Str.truthy text)); [eauto |].
    destruct (Dec.of_string text) as [d | e] eqn:E; simpl; [eauto |].
    apply of_string_raises in E. subst e. simpl. eauto. }
  destruct value; simpl; eauto.
Qed.

(** Absent, empty and blank amounts are no amount. *)
Lemma parse_decimal_blank (text : string) :
  parse_decimal JNull = Ok None /\
  (Str.strip text = EmptyString -> parse_decimal (JStr text) = Ok None).
Proof.
  split; [reflexivity |]. intros H. unfold parse_decimal. simpl. now rewrite H.
Qed.

Lemma make_raises y m d hh mm ss us tz (e : exception) :
  DT.make y m d hh mm ss us tz = Raise e -> e = ValueError.
Proof.
  unfold DT.make. destruct (DT.valid_fields _ _ _ _ _ _ _); congruence.
Qed.

Lemma fromisoformat_raises (text : string) (e : exception) :
  DT.fromisoformat text = Raise e -> e = ValueError.
Proof.
  unfold DT.fromisoformat.
  destruct (DT.parse_date text) as [[[[y m] d] [| sep tstr]] |].
  - apply make_raises.
  - destruct (DT.parse_time tstr) as [[[[[hh mm] ss] us] tz] |].
    + apply make_raises.
    + congruence.
  - congruence.
Qed.

(** X3.  In [date_only] mode [parse_started_at] returns for every text. *)
Lemma parse_started_at_date_only_total l2u (value : string) :
  exists o, parse_started_at l2u value true = Ok o.
Proof.
  unfold parse_started_at.
  destruct (negb (Str.truthy (Str.strip value))); [eauto |].
  destruct (DT.fromisoformat _) as [d | e] eqn:E; simpl; [eauto |].
  apply fromisoformat_raises in E. subst e. simpl. eauto.
Qed.

(** Blank and malformed timestamps are no timestamp. *)
Lemma parse_started_at_malformed l2u (date_only : bool) :
  parse_started_at l2u EmptyString date_only = Ok None /\
  parse_started_at l2u "   " date_only = Ok None /\
  parse_started_at l2u "not-a-date" date_only = Ok None /\
  parse_started_at l2u "2024-02-30T00:00:00Z" date_only = Ok None.
Proof. destruct date_only; repeat split; reflexivity. Qed.

(** C2.  [parse_started_at] raises on a well-formed timestamp whose UTC
    instant lies before year 1: the conversion to UTC raises
    [OverflowError], which the [except ValueError] clause does not catch. *)
Theorem parse_started_at_overflow l2u :
  parse_started_at l2u "0001-01-01T00:00:00+01:00" false = Raise OverflowError.
Proof. reflexivity. Qed.

(** ** The document splice *)

(** C1.  With two regions in the document [replace_marker] does not raise:
    it replaces the first region and returns, leaving the second. *)
Theorem replace_marker_two_regions :
  replace_marker
    "<!-- sponsors -->old<!-- sponsors --> and <!-- sponsors -->dup<!-- sponsors -->"
    "sponsors" "NEW"
  = Ok "<!-- sponsors -->NEW<!-- sponsors --> and <!-- sponsors -->dup<!-- sponsors -->".
Proof. vm_compute. reflexivity. Qed.

(** A document with no region raises the error naming the marker, and one
    with a single region has it replaced. *)
Lemma replace_marker_zero_and_one :
  replace_marker "no region here" "sponsors" "NEW"
  = Raise (RuntimeError "README marker 'sponsors' was not found exactly once.") /\
  replace_marker sample_readme "sponsors" "NEW"
  = Ok (spliced "# Sponsors " "sponsors" "NEW" " end").
Proof. split; vm_compute; reflexivity. Qed.

Lemma append_nil_r (s : string) : s ++ EmptyString = s.
Proof. induction s as [| c s IH]; simpl; congruence. Qed.

Lemma append_assoc (a b c : string) : (a ++ b) ++ c = a ++ (b ++ c).
Proof. induction a as [| x a IH]; simpl; congruence. Qed.

Lemma forallb_app p (a b : string) :
  Str.forallb p (a ++ b) = Str.forallb p a && Str.forallb p b.
Proof.
  induction a as [| x a IH]; simpl; [reflexivity |].
  rewrite IH. now rewrite andb_assoc.
Qed.

Lemma strip_prefix_spec (p s rest : string) :
  Str.strip_prefix p s = Some rest <-> s = p ++ rest.
Proof.
  revert s. induction p as [| a p IH]; intros s; simpl.
  - split; congruence.
  - destruct s as [| b s]; [split; discriminate |].
    destruct (Ascii.eqb_spec a b) as [-> | Hne].
    + rewrite IH. split; congruence.
    + split; [discriminate | congruence].
Qed.

Lemma find_some (p s before after : string) :
  Str.find p s = Some (before, after) -> s = before ++ p ++ after.
Proof.
  revert before. induction s as [| c s IH]; intros before; simpl.
  - destruct (Str.strip_prefix p EmptyString) eqn:E; [| discriminate].
    intros H. injection H as <- <-. cbn [append]. now apply strip_prefix_spec.
  - destruct (Str.strip_prefix p (String c s)) eqn:E.
    + intros H. injection H as <- <-. cbn [append]. now apply strip_prefix_spec.
    + destruct (Str.find p s) as [[b a] |]; [| discriminate].
      intros H. injection H as <- <-. simpl. f_equal. now apply IH.
Qed.

Lemma find_none (p s : string) :
  Str.find p s = None -> forall before after, s <> before ++ p ++ after.
Proof.
  induction s as [| c s IH]; simpl.
  - destruct (Str.strip_prefix p EmptyString) eqn:E; [discriminate |].
    intros _ [| x before] after H; [| discriminate].
    simpl in H. apply strip_prefix_spec in H. congruence.
  - destruct (Str.strip_prefix p (String c s)) eqn:E; [discriminate |].
    destruct (Str.find p s) as [[b a] |] eqn:F; [discriminate |].
    intros _ [| x before] after H.
    + simpl in H. apply strip_prefix_spec in H. congruence.
    + simpl in H. injection H as -> H. now apply (IH eq_refl before after).
Qed.

(** A backslash-free template is one literal. *)
Lemma template_loop_literal (rest : string) :
  no_backslash rest ->
  forall fuel c literal acc,
    (String.length rest < fuel)%nat ->
    Ascii.eqb c Re.backslash = false ->
    Re.template_loop fuel (Some (String c EmptyString)) rest literal acc
    = Ok (acc ++ [Re.Lit (literal ++ String c rest)])%list.
Proof.
  unfold no_backslash.
  induction rest as [| d rest IH]; intros Hb fuel c literal acc Hf Hc;
    (destruct fuel as [| fuel]; [simpl in Hf; lia |]).
  - cbn [Re.template_loop Re.advance bind].
    destruct fuel; reflexivity.
  - simpl in Hb. apply andb_true_iff in Hb as [Hd Hb].
    apply negb_true_iff in Hd.
    cbn [Re.template_loop Re.advance bind]. rewrite Hd. cbn [bind].
    rewrite IH by (try assumption; simpl in Hf; lia).
    rewrite append_assoc. reflexivity.
Qed.

Lemma parse_template_literal (template : string) :
  no_backslash template -> Re.parse_template template = Ok [Re.Lit template].
Proof.
  intros Hb. unfold Re.parse_template.
  destruct template as [| c rest]; [reflexivity |].
  unfold no_backslash in Hb. simpl in Hb. apply andb_true_iff in Hb as [Hc Hb].
  apply negb_true_iff in Hc.
  cbn [Re.advance]. rewrite Hc. cbn [bind fst snd].
  rewrite template_loop_literal; try assumption; [reflexivity |].
  simpl. lia.
Qed.

Lemma length_app (a b : string) :
  String.length (a ++ b) = (String.length a + String.length b)%nat.
Proof. induction a as [| x a IH]; simpl; congruence. Qed.

Lemma find_first (p s before after : string) :
  Str.find p s = Some (before, after) ->
  forall b a, s = b ++ p ++ a -> (String.length before <= String.length b)%nat.
Proof.
  revert before. induction s as [| c s IH]; intros before; simpl.
  - destruct (Str.strip_prefix p EmptyString); [| discriminate].
    intros H. injection H as <- <-. simpl. lia.
  - destruct (Str.strip_prefix p (String c s)) eqn:E.
    + intros H. injection H as <- <-. simpl. lia.
    + destruct (Str.find p s) as [[b0 a0] |] eqn:F; [| discriminate].
      intros H. injection H as <- <-. intros [| x b] a Hs.
      * simpl in Hs. apply strip_prefix_spec in Hs. congruence.
      * simpl in Hs. injection Hs as -> Hs. simpl.
        specialize (IH b0 eq_refl b a Hs). lia.
Qed.

Lemma app_split (u v u' v' : string) :
  u ++ v = u' ++ v' -> (String.length u <= String.length u')%nat ->
  exists w, u' = u ++ w /\ v = w ++ v'.
Proof.
  revert u'. induction u as [| x u IH]; intros u' H Hl.
  - exists u'. auto.
  - destruct u' as [| y u']; [simpl in Hl; lia |].
    simpl in H. injection H as -> H. simpl in Hl.
    destruct (IH u' H ltac:(lia)) as [w [-> ->]]. exists w. auto.
Qed.

Lemma search_some (sen content before matched after : string) :
  Re.search sen content = Some (before, matched, after) ->
  (exists interior, matched = sen ++ interior ++ sen) /\
  content = before ++ matched ++ after /\
  forall b i a, content = b ++ sen ++ i ++ sen ++ a ->
                (String.length before <= String.length b)%nat.
Proof.
  unfold Re.search.
  destruct (Str.find sen content) as [[b0 r] |] eqn:F1; [| discriminate].
  destruct (Str.find sen r) as [[i0 a0] |] eqn:F2; [| discriminate].
  intros H. injection H as <- <- <-.
  apply find_some in F2. pose proof (find_some _ _ _ _ F1) as E1.
  split; [eauto |]. split.
  - rewrite E1, F2. now rewrite !append_assoc.
  - intros b i a Hc. eapply find_first; eauto.
Qed.

Lemma search_none (sen content : string) :
  Re.search sen content = None ->
  forall b i a, content <> b ++ sen ++ i ++ sen ++ a.
Proof.
  unfold Re.search.
  destruct (Str.find sen content) as [[b0 r] |] eqn:F1.
  - destruct (Str.find sen r) as [[i0 a0] |] eqn:F2; [discriminate |].
    intros _ b i a Hc.
    pose proof (find_first _ _ _ _ F1 b _ Hc) as Hl.
    apply find_some in F1.
    assert (E : (b0 ++ sen) ++ r = (b ++ sen ++ i) ++ sen ++ a).
    { rewrite !append_assoc. congruence. }
    apply app_split in E as [w [_ Hr]].
    + exact (find_none _ _ F2 w a Hr).
    + rewrite !length_app. lia.
  - intros _ b i a Hc. exact (find_none _ _ F1 b _ Hc).
Qed.

Lemma sentinel_no_backslash (marker : string) :
  no_backslash marker -> no_backslash (sentinel marker).
Proof.
  unfold no_backslash, sentinel. intros H. rewrite !forallb_app, H. reflexivity.
Qed.

(** X1.  For a marker and a replacement without backslashes,
    [replace_marker] raises the error naming the marker when the document
    has no region, and otherwise returns the document with its first region
    replaced by the sentinels around the replacement, the text before and
    after it unchanged. *)
Theorem replace_marker_literal (content marker replacement : string) :
  no_backslash marker -> no_backslash replacement ->
  ((forall b i a, content <> spliced b marker i a) ->
   replace_marker content marker replacement
   = Raise (RuntimeError ("README marker '" ++ marker ++ "' was not found exactly once."))) /\
  (forall b i a,
     content = spliced b marker i a ->
     exists b' i' a',
       content = spliced b' marker i' a' /\
       (String.length b' <= String.length b)%nat /\
       replace_marker content marker replacement
       = Ok (spliced b' marker replacement a')).
Proof.
  intros Hm Hr.
  assert (Ht : Re.parse_template (sentinel marker ++ replacement ++ sentinel marker)
               = Ok [Re.Lit (sentinel marker ++ replacement ++ sentinel marker)]).
  { apply parse_template_literal. pose proof (sentinel_no_backslash _ Hm) as Hs.
    unfold no_backslash in *. now rewrite !forallb_app, Hs, Hr. }
  unfold replace_marker, Re.subn. fold (sentinel marker). rewrite Ht. cbn [bind].
  destruct (Re.search (sentinel marker) content) as [[[b0 m0] a0] |] eqn:Hs.
  - destruct (search_some _ _ _ _ _ Hs) as [[i0 Em] [Ec Hfirst]].
    assert (Hlen : exists n, String.length content = S n).
    { rewrite Ec, Em. unfold sentinel. rewrite !length_app. simpl.
      eexists. rewrite Nat.add_succ_r. reflexivity. }
    destruct Hlen as [n ->]. cbn [Re.subn_loop]. rewrite Hs.
    cbn [Nat.eqb negb Re.expand]. rewrite append_nil_r.
    split.
    + intros Hno. exfalso. apply (Hno b0 i0 a0).
      unfold spliced. rewrite Ec, Em. now rewrite !append_assoc.
    + intros b i a Hc. exists b0, i0, a0. split; [| split].
      * unfold spliced. rewrite Ec, Em. now rewrite !append_assoc.
      * apply (Hfirst b i a). exact Hc.
      * unfold spliced. now rewrite !append_assoc.
  - pose proof (search_none _ _ Hs) as Hnone.
    assert (E : Re.subn_loop (String.length content) (sentinel marker)
                  [Re.Lit (sentinel marker ++ replacement ++ sentinel marker)] content 1 0
                = (content, 0%nat)).
    { destruct (String.length content); cbn [Re.subn_loop]; [| rewrite Hs]; reflexivity. }
    rewrite E. cbn [Nat.eqb negb]. split; [reflexivity |].
    intros b i a Hc. exfalso. exact (Hnone b i a Hc).
Qed.

Lemma replace_marker_literal_witness :
  exists b' i' a',
    sample_readme = spliced b' "sponsors" i' a' /\
    (String.length b' <= String.length "# Sponsors ")%nat /\
    replace_marker sample_readme "sponsors" "NEW" = Ok (spliced b' "sponsors" "NEW" a').
Proof.
  apply (proj2 (replace_marker_literal sample_readme "sponsors" "NEW" eq_refl eq_refl)
           "# Sponsors " "old" " end").
  reflexivity.
Defined.

(** C10.  A display name with a backslash keeps it through [html.escape]
    and reaches the replacement, which [replace_marker] reads as a
    template: in the name [C:\new] the escape [\n] is expanded to a line
    feed, so the region is not the sentinels around the replacement; the
    name [\1] raises [re.error] rather than the marker error; and a
    replacement [\g<0>] is expanded to the region it replaces. *)
Theorem replacement_is_a_template :
  (exists display_name s out,
     Html.escape display_name = display_name /\
     Str.find "\" display_name <> None /\
     github_node utc_machine sample_thresholds (named_node display_name) = Ok (Some s) /\
     name s = display_name /\
     replace_marker sample_readme "sponsors" (render_all [s] REGULAR_WIDTH) = Ok out /\
     out <> spliced "# Sponsors " "sponsors" (render_all [s] REGULAR_WIDTH) " end") /\
  (exists display_name s,
     Html.escape display_name = display_name /\
     Str.find "\" display_name <> None /\
     github_node utc_machine sample_thresholds (named_node display_name) = Ok (Some s) /\
     name s = display_name /\
     replace_marker sample_readme "sponsors" (render_all [s] REGULAR_WIDTH)
     = Raise (re_error "invalid group reference 1")) /\
  replace_marker sample_readme "sponsors" "\g<0>"
  = Ok (spliced "# Sponsors " "sponsors"
          (sentinel "sponsors" ++ "old" ++ sentinel "sponsors") " end").
Proof.
  split; [| split].
  - exists "C:\new". do 2 eexists.
    split; [reflexivity |].
    split; [discriminate |].
    split; [vm_compute; reflexivity |].
    split; [reflexivity |].
    split; [vm_compute; reflexivity |].
    intros H. vm_compute in H. discriminate H.
  - exists "\1". eexists.
    split; [reflexivity |].
    split; [discriminate |].
    split; [vm_compute; reflexivity |].
    split; [reflexivity |].
    vm_compute. reflexivity.
  - vm_compute. reflexivity.
Qed.

(** ** Decimal arithmetic of the monthly amount *)

Ltac lia_div := zify; Z.to_euclidean_division_equations; lia.
Ltac nia_div := zify; Z.to_euclidean_division_equations; nia.

Lemma pow10_pos (k : Z) : (0 < Dec.pow10 k)%N.
Proof. unfold Dec.pow10. apply N.neq_0_lt_0, N.pow_nonzero. discriminate. Qed.

Lemma pow10_add (a b : Z) :
  0 <= a -> 0 <= b -> Dec.pow10 (a + b) = (Dec.pow10 a * Dec.pow10 b)%N.
Proof.
  intros Ha Hb. unfold Dec.pow10. rewrite Z2N.inj_add by assumption.
  apply N.pow_add_r.
Qed.

Lemma pow10_succ (k : Z) : 0 <= k -> Dec.pow10 (k + 1) = (10 * Dec.pow10 k)%N.
Proof.
  intros Hk. rewrite pow10_add by lia. change (Dec.pow10 1) with 10%N. lia.
Qed.

Lemma pow10_neg (k : Z) : k <= 0 -> Dec.pow10 k = 1%N.
Proof. intros Hk. unfold Dec.pow10. destruct k; try reflexivity. lia. Qed.

Lemma pow10_le (a b : Z) : a <= b -> (Dec.pow10 a <= Dec.pow10 b)%N.
Proof.
  intros H. unfold Dec.pow10. apply N.pow_le_mono_r; [discriminate | lia].
Qed.

Lemma ndigits_fuel_spec (fuel : nat) (n : N) :
  (n < 2 ^ N.of_nat fuel)%N -> (0 < n)%N ->
  1 <= Dec.ndigits_fuel fuel n /\
  (Dec.pow10 (Dec.ndigits_fuel fuel n - 1) <= n < Dec.pow10 (Dec.ndigits_fuel fuel n))%N.
Proof.
  revert n. induction fuel as [| fuel IH]; intros n Hn Hpos.
  - change (2 ^ N.of_nat 0)%N with 1%N in Hn. lia.
  - change (Dec.ndigits_fuel (S fuel) n)
      with (if (n <? 10)%N then 1 else 1 + Dec.ndigits_fuel fuel (n / 10)%N).
    destruct (N.ltb_spec n 10) as [Hlt | Hge].
    + split; [lia |]. change (Dec.pow10 (1 - 1)) with 1%N.
      change (Dec.pow10 1) with 10%N. lia.
    + assert (Hq : (n / 10 < 2 ^ N.of_nat fuel)%N).
      { rewrite Nat2N.inj_succ, N.pow_succ_r' in Hn. lia_div. }
      assert (Hq0 : (0 < n / 10)%N) by lia_div.
      destruct (IH _ Hq Hq0) as [H1 [H2 H3]].
      split; [lia |].
      replace (1 + Dec.ndigits_fuel fuel (n / 10) - 1)
        with ((Dec.ndigits_fuel fuel (n / 10) - 1) + 1) by lia.
      replace (1 + Dec.ndigits_fuel fuel (n / 10))
        with (Dec.ndigits_fuel fuel (n / 10) + 1) by lia.
      rewrite !pow10_succ by lia. lia_div.
Qed.

Lemma ndigits_spec (n : N) :
  (0 < n)%N ->
  1 <= Dec.ndigits n /\
  (Dec.pow10 (Dec.ndigits n - 1) <= n < Dec.pow10 (Dec.ndigits n))%N.
Proof.
  intros Hpos. unfold Dec.ndigits. apply ndigits_fuel_spec; [| exact Hpos].
  rewrite N2Nat.id. apply N.size_gt.
Qed.

Lemma pow10_lt_inv (a b : Z) : 0 <= a -> (Dec.pow10 a < Dec.pow10 b)%N -> a < b.
Proof.
  intros Ha H. destruct (Z_lt_le_dec a b) as [| Hle]; [assumption |].
  apply pow10_le in Hle. lia.
Qed.

Lemma ndigits_unique (n : N) (d : Z) :
  1 <= d -> (Dec.pow10 (d - 1) <= n < Dec.pow10 d)%N -> Dec.ndigits n = d.
Proof.
  intros Hd [Hlo Hhi].
  assert (Hpos : (0 < n)%N) by (pose proof (pow10_pos (d - 1)); lia).
  destruct (ndigits_spec n Hpos) as [H1 [H2 H3]].
  assert (Dec.ndigits n - 1 < d) by (apply pow10_lt_inv; lia).
  assert (d - 1 < Dec.ndigits n) by (apply pow10_lt_inv; lia).
  lia.
Qed.

Lemma ndigits_le (n : N) (d : Z) :
  1 <= d -> (n < Dec.pow10 d)%N -> Dec.ndigits n <= d.
Proof.
  intros Hd Hn. destruct (N.eq_dec n 0) as [-> | Hne]; [change (Dec.ndigits 0) with 1; lia |].
  destruct (ndigits_spec n) as [H1 [H2 H3]]; [lia |].
  assert (Dec.ndigits n - 1 < d) by (apply pow10_lt_inv; lia). lia.
Qed.

Lemma ndigits_pos (n : N) : 1 <= Dec.ndigits n.
Proof.
  destruct (N.eq_dec n 0) as [-> | Hne]; [change (Dec.ndigits 0) with 1; lia |].
  apply ndigits_spec. lia.
Qed.

(** A value already within the context is left alone. *)
Lemma fix_small (s : bool) (c : N) (e : Z) :
  c <> 0%N -> Dec.ndigits c <= 28 -> Dec.Etiny <= e -> e <= Dec.Etop ->
  Dec._fix (Finite s c e) = Ok (Finite s c e).
Proof.
  intros Hc Hd Hlo Hhi. unfold Dec._fix.
  destruct (N.eqb_spec c 0); [contradiction |].
  unfold Dec.prec, Dec.Etop, Dec.Emax, Dec.Etiny, Dec.Emin, Dec.prec in *.
  destruct (Z.ltb_spec (999999 - 28 + 1) (Dec.ndigits c + e - 28)); [lia |].
  destruct (Z.ltb_spec e (Z.max (Dec.ndigits c + e - 28) (-999999 - 28 + 1))); [lia |].
  reflexivity.
Qed.

Lemma fix_zero (s : bool) (e : Z) :
  Dec.Etiny <= e <= Dec.Emax -> Dec._fix (Finite s 0 e) = Ok (Finite s 0 e).
Proof.
  intros H. unfold Dec._fix. simpl. f_equal. f_equal. lia.
Qed.

Lemma mul52 (s : bool) (c : N) (e : Z) :
  (c < Dec.pow10 25)%N -> -999000 <= e <= 999000 ->
  Dec.mul (Finite s c e) WEEKS_PER_YEAR = Ok (Finite s (c * 52) e).
Proof.
  intros Hc He. unfold Dec.mul, WEEKS_PER_YEAR. cbn [Dec.check_nans Dec.sign_of].
  rewrite xorb_false_r, Z.add_0_r.
  destruct (N.eq_dec c 0) as [-> | Hne].
  - apply fix_zero. unfold Dec.Etiny, Dec.Emax, Dec.Emin, Dec.prec. lia.
  - apply fix_small.
    + lia.
    + apply ndigits_le; [lia |].
      change (Dec.pow10 28) with (1000 * Dec.pow10 25)%N. lia.
    + unfold Dec.Etiny, Dec.Emin, Dec.prec. lia.
    + unfold Dec.Etop, Dec.Emax, Dec.prec. lia.
Qed.

Section Rounding.

Local Open Scope N_scope.

Lemma rhu_unique (a b q : N) :
  0 < b -> 2 * b * q <= 2 * a + b < 2 * b * (q + 1) -> round_half_up a b = q.
Proof.
  intros Hb H. unfold round_half_up. symmetry.
  apply (N.div_unique _ _ _ (2 * a + b - 2 * b * q)); lia.
Qed.

Lemma rhu_bounds (a b : N) :
  0 < b ->
  2 * b * round_half_up a b <= 2 * a + b < 2 * b * (round_half_up a b + 1).
Proof.
  intros Hb. unfold round_half_up.
  assert (Hne : 2 * b <> 0) by lia.
  pose proof (N.div_mod (2 * a + b) (2 * b) Hne) as E.
  pose proof (N.mod_lt (2 * a + b) (2 * b) Hne) as L.
  set (Q := (2 * a + b) / (2 * b)) in *.
  set (R := (2 * a + b) mod (2 * b)) in *.
  clearbody Q R. nia.
Qed.

Lemma rhu_scale (a b a' b' : N) :
  0 < b -> 0 < b' -> a * b' = a' * b -> round_half_up a b = round_half_up a' b'.
Proof.
  intros Hb Hb' E. apply rhu_unique; [assumption |].
  pose proof (rhu_bounds a' b' Hb') as [H1 H2].
  set (q := round_half_up a' b') in *. split.
  - apply (N.mul_le_mono_pos_r _ _ b'); [lia |]. nia.
  - apply (N.mul_lt_mono_pos_r b'); [lia |]. nia.
Qed.

Lemma double_round (n m : N) : 1 <= m ->
  ((5 * n + 3) / 6 + 5 * m) / (10 * m) = (n + 6 * m) / (12 * m).
Proof. intros Hm. nia_div. Qed.

Lemma double_rhu (Kp n m : N) :
  0 < Kp -> 1 <= m ->
  round_half_up (round_half_up (10 * Kp * n) (12 * Kp)) (10 * m)
  = round_half_up (10 * Kp * n) (12 * Kp * (10 * m)).
Proof.
  intros HK Hm.
  assert (E1 : round_half_up (10 * Kp * n) (12 * Kp) = (5 * n + 3) / 6).
  { unfold round_half_up.
    replace (2 * (10 * Kp * n) + 12 * Kp) with ((5 * n + 3) * (4 * Kp)) by lia.
    replace (2 * (12 * Kp)) with (6 * (4 * Kp)) by lia.
    apply N.Div0.div_mul_cancel_r; lia. }
  rewrite E1. unfold round_half_up.
  replace (2 * ((5 * n + 3) / 6) + 10 * m) with (((5 * n + 3) / 6 + 5 * m) * 2) by lia.
  replace (2 * (10 * m)) with (10 * m * 2) by lia.
  rewrite N.Div0.div_mul_cancel_r by lia.
  replace (2 * (10 * Kp * n) + 12 * Kp * (10 * m)) with ((n + 6 * m) * (20 * Kp)) by lia.
  replace (2 * (12 * Kp * (10 * m))) with (12 * m * (20 * Kp)) by lia.
  rewrite N.Div0.div_mul_cancel_r by lia.
  apply double_round, Hm.
Qed.

End Rounding.

Lemma rhu_formula (c : N) (j : Z) :
  Dec.round_digits ROUND_HALF_UP c j = round_half_up c (Dec.pow10 j).
Proof.
  unfold Dec.round_digits. pose proof (pow10_pos j) as Hp.
  set (p := Dec.pow10 j) in *.
  assert (Hne : p <> 0%N) by lia.
  pose proof (N.div_mod c p Hne) as E. pose proof (N.mod_lt c p Hne) as L.
  set (q := (c / p)%N) in *. set (r := (c mod p)%N) in *. clearbody q r.
  symmetry. destruct (N.leb_spec p (2 * r)); apply rhu_unique; try lia; nia.
Qed.

Lemma rhu_one (c : N) : round_half_up c 1 = c.
Proof. apply rhu_unique; lia. Qed.

Lemma quantize_cents (s : bool) (c : N) (e : Z) :
  c <> 0%N -> Dec.ndigits c + e <= 26 -> -1000020 <= e ->
  (in_cents c e < Dec.pow10 28)%N ->
  Dec.quantize (Finite s c e) (Finite false 1 (-2)) ROUND_HALF_UP
  = Ok (Finite s (in_cents c e) (-2)).
Proof.
  intros Hc Hd He HF. unfold Dec.quantize. cbn [Dec.check_nans].
  change (negb ((Dec.Etiny <=? -2) && (-2 <=? Dec.Emax))) with false. cbv iota.
  destruct (N.eqb_spec c 0) as [| _]; [contradiction |].
  unfold Dec.adjusted, Dec.Emax, Dec.prec.
  destruct (Z.ltb_spec 999999 (e + Dec.ndigits c - 1)); [lia |].
  destruct (Z.ltb_spec 28 (e + Dec.ndigits c - 1 - -2 + 1)); [lia |].
  assert (R : Dec.rescale s c e (-2) ROUND_HALF_UP = Finite s (in_cents c e) (-2)).
  { unfold Dec.rescale, in_cents.
    destruct (N.eqb_spec c 0) as [| _]; [contradiction |].
    destruct (Z.leb_spec (-2) e).
    - reflexivity.
    - now rewrite rhu_formula. }
  rewrite R.
  pose proof (ndigits_le _ 28 ltac:(lia) HF) as HdF.
  pose proof (ndigits_pos (in_cents c e)).
  destruct (Z.ltb_spec 999999 (-2 + Dec.ndigits (in_cents c e) - 1)); [lia |].
  destruct (Z.ltb_spec 28 (Dec.ndigits (in_cents c e))); [lia |].
  destruct (N.eq_dec (in_cents c e) 0) as [-> | Hne].
  - reflexivity.
  - apply fix_small; try assumption; unfold Dec.Etiny, Dec.Etop, Dec.Emin, Dec.Emax, Dec.prec; lia.
Qed.

Lemma in_cents_round (c : N) (e : Z) :
  e <= -2 -> in_cents c e = round_half_up c (Dec.pow10 (- 2 - e)).
Proof.
  intros He. unfold in_cents. destruct (Z.leb_spec (-2) e); [| reflexivity].
  replace e with (-2) by lia. change (Dec.pow10 (-2 + 2)) with 1%N.
  change (Dec.pow10 (-2 - -2)) with 1%N. rewrite rhu_one. lia.
Qed.

Lemma fix_round (s : bool) (q : N) (e k : Z) :
  1 <= k -> Dec.ndigits q = 28 + k -> Dec.Etiny <= e -> e + k + 1 <= Dec.Etop ->
  Dec._fix (Finite s q e)
  = Ok (let c2 := Dec.round_digits ROUND_HALF_EVEN q k in
        if 28 <? Dec.ndigits c2 then Finite s (c2 / 10) (e + k + 1)
        else Finite s c2 (e + k)).
Proof.
  intros Hk Hd Hlo Hhi. unfold Dec._fix.
  assert (Hq : q <> 0%N).
  { intros ->. change (Dec.ndigits 0) with 1 in Hd. lia. }
  destruct (N.eqb_spec q 0) as [| _]; [contradiction |].
  rewrite Hd. unfold Dec.prec, Dec.Etop, Dec.Emax, Dec.Etiny, Dec.Emin, Dec.prec in *.
  replace (28 + k + e - 28) with (e + k) by lia.
  destruct (Z.ltb_spec (999999 - 28 + 1) (e + k)); [lia |].
  rewrite Z.max_l by lia.
  destruct (Z.ltb_spec e (e + k)); [| lia].
  replace (e + k - e) with k by lia. cbv zeta.
  destruct (28 <? Dec.ndigits (Dec.round_digits ROUND_HALF_EVEN q k)).
  - destruct (Z.ltb_spec (999999 - 28 + 1) (e + k + 1)); [lia | reflexivity].
  - destruct (Z.ltb_spec (999999 - 28 + 1) (e + k)); [lia | reflexivity].
Qed.

Ltac split_ifs :=
  repeat match goal with
         | |- context [if ?b then _ else _] =>
             let E := fresh "E" in destruct b eqn:E
         end;
  repeat match goal with
         | E : (_ && _) = true |- _ => apply andb_true_iff in E; destruct E
         | E : (_ && _) = false |- _ => apply andb_false_iff in E; destruct E
         | E : (_ =? _)%N = true |- _ => apply N.eqb_eq in E
         | E : (_ =? _)%N = false |- _ => apply N.eqb_neq in E
         | E : (_ <? _)%N = true |- _ => apply N.ltb_lt in E
         | E : (_ <? _)%N = false |- _ => apply N.ltb_ge in E
         | E : (_ <=? _)%N = true |- _ => apply N.leb_le in E
         | E : (_ <=? _)%N = false |- _ => apply N.leb_gt in E
         end.

Lemma sticky_round_1 (N0 : N) :
  (N0 mod 12 <> 0)%N ->
  Dec.round_digits ROUND_HALF_EVEN (sticky N0) 1 = round_half_up N0 (12 * 10).
Proof.
  intros H. unfold Dec.round_digits, sticky, round_half_up.
  change (Dec.pow10 1) with 10%N. split_ifs; lia_div.
Qed.

Lemma sticky_round_2 (N0 : N) :
  (N0 mod 12 <> 0)%N ->
  Dec.round_digits ROUND_HALF_EVEN (sticky N0) 2 = round_half_up N0 (12 * 100).
Proof.
  intros H. unfold Dec.round_digits, sticky, round_half_up.
  change (Dec.pow10 2) with 100%N. split_ifs; lia_div.
Qed.

Lemma div_digits_12 (A : N) (e : Z) :
  0 <= 31 - Dec.ndigits A ->
  Dec.div_digits A e 12 0
  = (if ((A * Dec.pow10 (31 - Dec.ndigits A)) mod 12 =? 0)%N
     then Dec.strip_zeros (Z.to_nat (31 - Dec.ndigits A))
            (A * Dec.pow10 (31 - Dec.ndigits A) / 12) (e - (31 - Dec.ndigits A)) e
     else (sticky (A * Dec.pow10 (31 - Dec.ndigits A)), e - (31 - Dec.ndigits A))).
Proof.
  intros Hs. unfold Dec.div_digits, sticky.
  change (Dec.ndigits 12) with 2. unfold Dec.prec.
  replace (2 - Dec.ndigits A + 28 + 1) with (31 - Dec.ndigits A) by lia.
  destruct (Z.leb_spec 0 (31 - Dec.ndigits A)); [| lia].
  replace (e - 0 - (31 - Dec.ndigits A)) with (e - (31 - Dec.ndigits A)) by lia.
  replace (e - 0 - (e - (31 - Dec.ndigits A))) with (31 - Dec.ndigits A) by lia.
  replace (e - 0) with e by lia.
  reflexivity.
Qed.

Lemma div_12 (s : bool) (A : N) (e : Z) :
  A <> 0%N ->
  Dec.div (Finite s A e) MONTHS_PER_YEAR
  = (let (coeff, exp) := Dec.div_digits A e 12 0 in Dec._fix (Finite s coeff exp)).
Proof.
  intros HA. unfold Dec.div, MONTHS_PER_YEAR. cbn [Dec.check_nans Dec.sign_of].
  rewrite xorb_false_r. change (12 =? 0)%N with false. cbv iota.
  destruct (N.eqb_spec A 0); [contradiction | reflexivity].
Qed.

Lemma pow_mod3 (n : nat) : ((10 ^ N.of_nat n) mod 3 = 1)%N.
Proof.
  induction n as [| n IH]; [reflexivity |].
  rewrite Nat2N.inj_succ, N.pow_succ_r'.
  set (x := (10 ^ N.of_nat n)%N) in *. clearbody x. lia_div.
Qed.

Lemma pow10_mod3 (k : Z) : (Dec.pow10 k mod 3 = 1)%N.
Proof.
  unfold Dec.pow10. rewrite <- (N2Nat.id (Z.to_N k)). apply pow_mod3.
Qed.

Lemma strip_zeros_all (n : nat) (K : N) (exp : Z) :
  Dec.strip_zeros n (K * 10 ^ N.of_nat n) exp (exp + Z.of_nat n)
  = (K, exp + Z.of_nat n).
Proof.
  revert exp. induction n as [| n IH]; intros exp.
  - simpl. rewrite N.mul_1_r. f_equal. lia.
  - replace (exp + Z.of_nat (S n)) with (exp + 1 + Z.of_nat n) by lia.
    cbn [Dec.strip_zeros].
    destruct (Z.ltb_spec exp (exp + 1 + Z.of_nat n)); [| lia].
    rewrite Nat2N.inj_succ, N.pow_succ_r'.
    replace (K * (10 * 10 ^ N.of_nat n))%N with (K * 10 ^ N.of_nat n * 10)%N by lia.
    rewrite N.Div0.mod_mul, N.div_mul by lia.
    rewrite N.eqb_refl. cbn [andb]. apply IH.
Qed.

Lemma pow10_split (a b : Z) :
  0 <= b <= a -> Dec.pow10 a = (Dec.pow10 b * Dec.pow10 (a - b))%N.
Proof. intros H. rewrite <- pow10_add by lia. f_equal. lia. Qed.

Lemma pow10_nat (k : Z) : Dec.pow10 k = (10 ^ N.of_nat (Z.to_nat k))%N.
Proof. unfold Dec.pow10. now rewrite Z_nat_N. Qed.

Section Pipeline.

Variables (s : bool) (c : N) (e : Z).
Hypothesis Hc0 : c <> 0%N.
Hypothesis Hc : (c < Dec.pow10 25)%N.
Hypothesis He : -999000 <= e.
Hypothesis Hw : e + Dec.ndigits c <= 25.

Let L := Dec.ndigits (c * 52).

Lemma L_bounds :
  1 <= L <= 27 /\ L <= Dec.ndigits c + 2 /\
  (Dec.pow10 (L - 1) <= c * 52 < Dec.pow10 L)%N.
Proof.
  destruct (ndigits_spec (c * 52)) as [H1 [H2 H3]]; [lia |]. fold L in H1, H2, H3.
  destruct (ndigits_spec c) as [G1 [G2 G3]]; [lia |].
  assert (L <= Dec.ndigits c + 2).
  { apply ndigits_le; [lia |]. rewrite pow10_add by lia.
    change (Dec.pow10 2) with 100%N. lia. }
  assert (L <= 27).
  { apply ndigits_le; [lia |]. change (Dec.pow10 27) with (100 * Dec.pow10 25)%N. lia. }
  repeat split; lia.
Qed.

Lemma N0_bounds :
  (Dec.pow10 30 <= c * 52 * Dec.pow10 (31 - L) < Dec.pow10 31)%N.
Proof.
  destruct L_bounds as [[H1 H2] [_ [H3 H4]]].
  assert (E30 : Dec.pow10 30 = (Dec.pow10 (L - 1) * Dec.pow10 (31 - L))%N).
  { rewrite <- pow10_add by lia. f_equal. lia. }
  assert (E31 : Dec.pow10 31 = (Dec.pow10 L * Dec.pow10 (31 - L))%N).
  { rewrite <- pow10_add by lia. f_equal. lia. }
  rewrite E30, E31. pose proof (pow10_pos (31 - L)). split.
  - apply N.mul_le_mono_r. exact H3.
  - apply N.mul_lt_mono_pos_r; [lia | exact H4].
Qed.

Lemma shift_bounds : 4 <= 31 - L <= 30 /\ 2 <= 29 - L - e.
Proof. destruct L_bounds as [[H1 H2] [H3 _]]. lia. Qed.

(** What the exact monthly amount is in terms of the scaled dividend. *)
Lemma monthly_cents_scaled :
  monthly_cents c e
  = round_half_up (c * 52 * Dec.pow10 (31 - L)) (12 * Dec.pow10 (29 - L - e)).
Proof.
  destruct shift_bounds as [[S1 S2] T1].
  unfold monthly_cents.
  pose proof (pow10_pos (- e)). pose proof (pow10_pos (29 - L - e)).
  apply rhu_scale; try lia.
  destruct (Z_le_gt_dec 0 e) as [Hpos | Hneg].
  - rewrite (pow10_neg (- e)) by lia.
    rewrite (pow10_split (31 - L) e) by lia.
    rewrite (pow10_split (31 - L - e) 2) by lia.
    replace (31 - L - e - 2) with (29 - L - e) by lia.
    change (Dec.pow10 2) with 100%N. lia.
  - rewrite (pow10_neg e) by lia.
    rewrite (pow10_split (29 - L - e) (- e)) by lia.
    replace (29 - L - e - - e) with (29 - L) by lia.
    rewrite (pow10_split (31 - L) 2) by lia.
    replace (31 - L - 2) with (29 - L) by lia.
    change (Dec.pow10 2) with 100%N. lia.
Qed.

Lemma monthly_cents_small : (monthly_cents c e < Dec.pow10 28)%N.
Proof.
  rewrite monthly_cents_scaled.
  destruct shift_bounds as [_ T1]. destruct N0_bounds as [_ HN].
  pose proof (pow10_le 2 (29 - L - e) T1) as HT.
  change (Dec.pow10 2) with 100%N in HT.
  set (T := Dec.pow10 (29 - L - e)) in *.
  set (N0 := (c * 52 * Dec.pow10 (31 - L))%N) in *.
  destruct (rhu_bounds N0 (12 * T)) as [B _]; [lia |].
  set (q := round_half_up N0 (12 * T)) in *. clearbody q T N0.
  change (Dec.pow10 31) with 10000000000000000000000000000000%N in HN.
  change (Dec.pow10 28) with 10000000000000000000000000000%N.
  nia.
Qed.

Lemma div_exact :
  (c mod 3 = 0)%N ->
  Dec.div (Finite s (c * 52) e) MONTHS_PER_YEAR = Ok (Finite s (13 * (c / 3)) e).
Proof.
  intros H3.
  destruct L_bounds as [[L1 L2] [L3 _]]. destruct shift_bounds as [[S1 S2] _].
  rewrite div_12 by lia. rewrite div_digits_12 by (fold L; lia). fold L.
  assert (Ec : c = (3 * (c / 3))%N) by lia_div.
  assert (EN : (c * 52 * Dec.pow10 (31 - L) = 13 * (c / 3) * Dec.pow10 (31 - L) * 12)%N).
  { rewrite Ec at 1. lia. }
  rewrite EN, N.Div0.mod_mul, N.div_mul by lia.
  rewrite N.eqb_refl.
  rewrite pow10_nat.
  replace e with (e - (31 - L) + Z.of_nat (Z.to_nat (31 - L))) at 2 3 by lia.
  rewrite strip_zeros_all.
  replace (e - (31 - L) + Z.of_nat (Z.to_nat (31 - L))) with e by lia.
  apply fix_small.
  - lia.
  - apply ndigits_le; [lia |].
    change (Dec.pow10 28) with (1000 * Dec.pow10 25)%N. lia_div.
  - unfold Dec.Etiny, Dec.Emin, Dec.prec. lia.
  - unfold Dec.Etop, Dec.Emax, Dec.prec. pose proof (ndigits_pos c). lia.
Qed.

Lemma in_cents_exact :
  (c mod 3 = 0)%N -> in_cents (13 * (c / 3)) e = monthly_cents c e.
Proof.
  intros H3. assert (Ec : c = (3 * (c / 3))%N) by lia_div.
  unfold in_cents, monthly_cents.
  pose proof (pow10_pos (- e)). pose proof (pow10_pos e).
  set (c' := (c / 3)%N) in *. clearbody c'.
  destruct (Z.leb_spec (-2) e) as [Hge | Hlt].
  - symmetry. apply rhu_unique; [lia |].
    destruct (Z_le_gt_dec 0 e) as [Hpos | Hneg].
    + rewrite (pow10_neg (- e)) by lia.
      rewrite (pow10_split (e + 2) 2) by lia.
      replace (e + 2 - 2) with e by lia.
      change (Dec.pow10 2) with 100%N.
      set (P := Dec.pow10 e) in *. clearbody P. nia.
    + rewrite (pow10_neg e) by lia.
      assert (Hcases : e = -1 \/ e = -2) by lia.
      destruct Hcases as [-> | ->]; vm_compute Dec.pow10; lia.
  - apply rhu_scale; try lia; [apply pow10_pos |].
    rewrite (pow10_neg e) by lia.
    rewrite (pow10_split (- e) 2) by lia.
    replace (- e - 2) with (- 2 - e) by lia.
    change (Dec.pow10 2) with 100%N.
    set (P := Dec.pow10 (- 2 - e)) in *. clearbody P. nia.
Qed.

Lemma dividend_inexact :
  (c mod 3 <> 0)%N -> ((c * 52 * Dec.pow10 (31 - L)) mod 12 <> 0)%N.
Proof.
  intros H3. pose proof (pow10_mod3 (31 - L)) as HP.
  set (P := Dec.pow10 (31 - L)) in *.
  assert (EP : P = (3 * (P / 3) + 1)%N) by lia_div.
  set (p := (P / 3)%N) in *. clearbody p. clearbody P.
  assert (EN : (c * 52 * P = 3 * (c * 52 * p + 17 * c) + c)%N) by nia.
  rewrite EN. set (x := (c * 52 * p + 17 * c)%N). clearbody x. lia_div.
Qed.

Lemma div_inexact :
  (c mod 3 <> 0)%N ->
  exists c3 e3,
    Dec.div (Finite s (c * 52) e) MONTHS_PER_YEAR = Ok (Finite s c3 e3) /\
    c3 <> 0%N /\ Dec.ndigits c3 + e3 <= 26 /\ e3 <= -2 /\ -1000020 <= e3 /\
    round_half_up c3 (Dec.pow10 (- 2 - e3)) = monthly_cents c e.
Proof.
  intros H3.
  destruct L_bounds as [[L1 L2] [L3 _]]. destruct shift_bounds as [[S1 S2] T1].
  pose proof N0_bounds as HN. pose proof (dividend_inexact H3) as Hmod.
  rewrite monthly_cents_scaled.
  rewrite div_12 by lia. rewrite div_digits_12 by (fold L; lia). fold L.
  set (N0 := (c * 52 * Dec.pow10 (31 - L))%N) in *.
  destruct (N.eqb_spec (N0 mod 12) 0) as [| _]; [contradiction |].
  change (Dec.pow10 30) with 1000000000000000000000000000000%N in HN.
  change (Dec.pow10 31) with 10000000000000000000000000000000%N in HN.
  assert (P28 : Dec.pow10 28 = 10000000000000000000000000000%N) by reflexivity.
  assert (P29 : Dec.pow10 29 = 100000000000000000000000000000%N) by reflexivity.
  assert (P30 : Dec.pow10 30 = 1000000000000000000000000000000%N) by reflexivity.
  assert (P27 : Dec.pow10 27 = 1000000000000000000000000000%N) by reflexivity.
  destruct (N.lt_ge_cases (sticky N0) (Dec.pow10 29)) as [Hk | Hk].
  - (* 29 digits: one digit is rounded away *)
    assert (Hd : Dec.ndigits (sticky N0) = 28 + 1).
    { apply ndigits_unique; [lia |]. change (28 + 1 - 1) with 28.
      change (28 + 1) with 29. split; [| exact Hk].
      rewrite P28. unfold sticky. split_ifs; lia_div. }
    rewrite (fix_round _ _ _ 1 ltac:(lia) Hd)
      by (unfold Dec.Etiny, Dec.Etop, Dec.Emin, Dec.Emax, Dec.prec; lia).
    rewrite (sticky_round_1 _ Hmod). cbv zeta.
    set (c2 := round_half_up N0 (12 * 10)).
    assert (Hc2 : (Dec.pow10 27 <= c2 <= Dec.pow10 28)%N).
    { rewrite P27, P28. rewrite P29 in Hk. unfold c2, round_half_up.
      unfold sticky in Hk. revert Hk. split_ifs; intros Hk; lia_div. }
    assert (Hdouble :
              round_half_up c2 (Dec.pow10 (29 - L - e - 1))
              = round_half_up N0 (12 * Dec.pow10 (29 - L - e))).
    { rewrite (pow10_split (29 - L - e - 1) 1) by lia.
      rewrite (pow10_split (29 - L - e) 2) by lia.
      replace (29 - L - e - 1 - 1) with (29 - L - e - 2) by lia.
      change (Dec.pow10 1) with 10%N. change (Dec.pow10 2) with 100%N.
      pose proof (pow10_pos (29 - L - e - 2)) as Hm.
      set (m := Dec.pow10 (29 - L - e - 2)) in *.
      assert (EN : N0 = (10 * 10 * (c * 52 * Dec.pow10 (31 - L - 2)))%N).
      { unfold N0. rewrite (pow10_split (31 - L) 2) by lia.
        change (Dec.pow10 2) with 100%N. lia. }
      unfold c2. rewrite EN.
      rewrite (double_rhu 10) by lia. f_equal. lia. }
    destruct (Z.ltb_spec 28 (Dec.ndigits c2)) as [Hcarry | Hfit].
    + (* the rounded coefficient is 10^28 and loses its last zero *)
      assert (E2 : c2 = Dec.pow10 28).
      { destruct (N.eq_dec c2 (Dec.pow10 28)) as [| Hne]; [assumption |].
        assert (Dec.ndigits c2 <= 28) by (apply ndigits_le; lia). lia. }
      exists (c2 / 10)%N, (e - (31 - L) + 1 + 1).
      split; [reflexivity |].
      assert (E3 : (c2 / 10)%N = Dec.pow10 27) by (rewrite E2, P28, P27; reflexivity).
      split; [rewrite E3, P27; lia |].
      split; [rewrite E3; change (Dec.ndigits (Dec.pow10 27)) with 28; lia |].
      split; [lia |]. split; [lia |].
      rewrite <- Hdouble.
      pose proof (pow10_pos (- 2 - (e - (31 - L) + 1 + 1))).
      pose proof (pow10_pos (29 - L - e - 1)).
      apply rhu_scale; try lia.
      rewrite (pow10_split (29 - L - e - 1) 1) by lia.
      replace (29 - L - e - 1 - 1) with (- 2 - (e - (31 - L) + 1 + 1)) by lia.
      change (Dec.pow10 1) with 10%N. rewrite E3, E2, P27, P28. lia.
    + exists c2, (e - (31 - L) + 1).
      split; [reflexivity |].
      split; [rewrite P27 in Hc2; lia |].
      split; [lia |]. split; [lia |]. split; [lia |].
      rewrite <- Hdouble. f_equal. f_equal. lia.
  - (* 30 digits: two digits are rounded away *)
    assert (Hd : Dec.ndigits (sticky N0) = 28 + 2).
    { apply ndigits_unique; [lia |]. change (28 + 2 - 1) with 29.
      change (28 + 2) with 30. split; [exact Hk |].
      rewrite P30. unfold sticky. split_ifs; lia_div. }
    rewrite (fix_round _ _ _ 2 ltac:(lia) Hd)
      by (unfold Dec.Etiny, Dec.Etop, Dec.Emin, Dec.Emax, Dec.prec; lia).
    rewrite (sticky_round_2 _ Hmod). cbv zeta.
    set (c2 := round_half_up N0 (12 * 100)).
    assert (Hc2 : (Dec.pow10 27 <= c2 < Dec.pow10 28)%N).
    { rewrite P27, P28. rewrite P29 in Hk. unfold c2, round_half_up.
      unfold sticky in Hk. revert Hk. split_ifs; intros Hk; lia_div. }
    assert (Hfit : Dec.ndigits c2 <= 28) by (apply ndigits_le; lia).
    destruct (Z.ltb_spec 28 (Dec.ndigits c2)) as [| _]; [lia |].
    exists c2, (e - (31 - L) + 2).
    split; [reflexivity |].
    split; [rewrite P27 in Hc2; lia |].
    split; [lia |]. split; [lia |]. split; [lia |].
    replace (- 2 - (e - (31 - L) + 2)) with (29 - L - e - 2) by lia.
    destruct (Z.eq_dec (29 - L - e) 2) as [Et | Et].
    + rewrite Et. change (Dec.pow10 (2 - 2)) with 1%N.
      change (Dec.pow10 2) with 100%N. apply rhu_one.
    + rewrite (pow10_split (29 - L - e - 2) 1) by lia.
      rewrite (pow10_split (29 - L - e) 3) by lia.
      replace (29 - L - e - 2 - 1) with (29 - L - e - 3) by lia.
      change (Dec.pow10 1) with 10%N. change (Dec.pow10 3) with 1000%N.
      pose proof (pow10_pos (29 - L - e - 3)) as Hm.
      set (m := Dec.pow10 (29 - L - e - 3)) in *.
      assert (EN : N0 = (10 * 100 * (c * 52 * Dec.pow10 (31 - L - 3)))%N).
      { unfold N0. rewrite (pow10_split (31 - L) 3) by lia.
        change (Dec.pow10 3) with 1000%N. lia. }
      unfold c2. rewrite EN.
      rewrite (double_rhu 100) by lia. f_equal. lia.
Qed.

End Pipeline.

Lemma monthly_cents_zero (e : Z) : monthly_cents 0 e = 0%N.
Proof.
  unfold monthly_cents. pose proof (pow10_pos (- e)).
  apply rhu_unique; lia.
Qed.

(** The three decimal operations of the Liberapay adapter on a weekly amount
    of at most 25 digits below 10^25. *)
Lemma monthly_pipeline (s : bool) (c : N) (e : Z) :
  (c < Dec.pow10 25)%N -> -999000 <= e -> e + Dec.ndigits c <= 25 ->
  (annual <- Dec.mul (Finite s c e) WEEKS_PER_YEAR ;;
   monthly <- Dec.div annual MONTHS_PER_YEAR ;;
   Dec.quantize monthly (Finite false 1 (-2)) ROUND_HALF_UP)
  = Ok (Finite s (monthly_cents c e) (-2)).
Proof.
  intros Hc He Hw. pose proof (ndigits_pos c) as Hd.
  rewrite mul52 by (try assumption; lia). cbn [bind].
  destruct (N.eq_dec c 0) as [-> | Hc0].
  - rewrite monthly_cents_zero. change (0 * 52)%N with 0%N.
    change (Dec.ndigits 0) with 1 in Hw.
    assert (Hdiv : Dec.div (Finite s 0 e) MONTHS_PER_YEAR = Ok (Finite s 0 e)).
    { unfold Dec.div, MONTHS_PER_YEAR. cbn [Dec.check_nans Dec.sign_of].
      rewrite xorb_false_r. change (12 =? 0)%N with false.
      change (0 =? 0)%N with true. cbv iota.
      replace (e - 0) with e by lia.
      apply fix_zero. unfold Dec.Etiny, Dec.Emax, Dec.Emin, Dec.prec. lia. }
    rewrite Hdiv. cbn [bind]. reflexivity.
  - destruct (N.eq_dec (c mod 3) 0) as [H3 | H3].
    + rewrite (div_exact s c e Hc0 Hc He Hw H3). cbn [bind].
      rewrite <- (in_cents_exact c e Hc0 Hc He Hw H3).
      pose proof (monthly_cents_small c e Hc0 Hc Hw) as Hs.
      rewrite <- (in_cents_exact c e Hc0 Hc He Hw H3) in Hs.
      assert (Dec.ndigits (13 * (c / 3)) <= Dec.ndigits c + 1).
      { apply ndigits_le; [lia |]. rewrite pow10_add by lia.
        change (Dec.pow10 1) with 10%N.
        destruct (ndigits_spec c) as [_ [_ Hlt]]; [lia |]. lia_div. }
      assert ((13 * (c / 3))%N <> 0%N) by lia_div.
      apply quantize_cents; try assumption; lia.
    + destruct (div_inexact s c e Hc0 Hc He Hw H3)
        as [c3 [e3 [-> [Hc3 [Hd3 [He3 [He3' Hr]]]]]]].
      cbn [bind].
      pose proof (monthly_cents_small c e Hc0 Hc Hw) as Hs.
      rewrite <- Hr, <- in_cents_round in * by assumption.
      apply quantize_cents; assumption.
Qed.

(** C3 (amended).  For every Liberapay row that is stored and whose weekly
    amount is finite with at most 25 digits, below 10^25 and with an
    exponent of at least -999000, the stored monthly amount is
    [round_half_up (weekly * 52 / 12, 2 decimals)] in exact arithmetic; in
    particular 5.00 a week is 260.00 a year and 21.67 a month. *)
Theorem liberapay_monthly_amount l2u th row s sg c e :
  liberapay_row l2u th row = Ok (Some s) ->
  parse_decimal (json_of_field (row_get row "weekly_amount")) = Ok (Some (Finite sg c e)) ->
  (c < Dec.pow10 25)%N -> -999000 <= e -> e + Dec.ndigits c <= 25 ->
  monthly_amount s = Finite sg (monthly_cents c e) (-2) /\
  Dec.mul (Finite false 500 (-2)) WEEKS_PER_YEAR = Ok (Finite false 26000 (-2)) /\
  monthly_cents 500 (-2) = 2167%N.
Proof.
  intros H Hp Hc He Hw.
  split; [| split; reflexivity].
  unfold liberapay_row in H. rewrite Hp in H.
  crunch H. cbn [bind] in H. injection H as <-. simpl.
  pose proof (monthly_pipeline sg c e Hc He Hw) as P.
  match goal with E : Dec.mul _ _ = Ok _ |- _ => rewrite E in P end.
  cbn [bind] in P.
  match goal with E : Dec.div _ _ = Ok _ |- _ => rewrite E in P end.
  cbn [bind] in P. congruence.
Qed.

Lemma liberapay_monthly_amount_witness :
  exists s, liberapay_row utc_machine sample_thresholds five_row = Ok (Some s) /\
            monthly_amount s = Finite false 2167 (-2).
Proof.
  eexists. split; [vm_compute; reflexivity |].
  refine (proj1 (liberapay_monthly_amount utc_machine sample_thresholds five_row _
                   false 500 (-2) _ _ _ _ _)).
  - vm_compute. reflexivity.
  - vm_compute. reflexivity.
  - vm_compute. reflexivity.
  - lia.
  - vm_compute. discriminate.
Defined.

(** A weekly amount of 40 digits: its product with 52 is rounded to the 28
    digits of the context, the stored monthly amount is 0.01, and the exact
    one rounds to 0.00. *)
Lemma liberapay_monthly_double_rounding :
  exists s,
    liberapay_row utc_machine sample_thresholds long_row = Ok (Some s) /\
    parse_decimal (json_of_field (row_get long_row "weekly_amount"))
    = Ok (Some (Finite false 11538461538461538461538461538461538461 (-40))) /\
    monthly_amount s = Finite false 1 (-2) /\
    monthly_cents 11538461538461538461538461538461538461 (-40) = 0%N.
Proof.
  eexists. split; [vm_compute; reflexivity |].
  repeat split; vm_compute; reflexivity.
Qed.

(** * Further properties of the adapters, the ranking and the rendering *)

(** ** The two classifiers *)

(** X5.  [liberapay_tier] on a weekly amount is [monthly_tier] on it with
    the two Liberapay minimums, for every amount and every minimums, the
    exceptions included; the annual amount plays no part. *)
Theorem liberapay_tier_is_monthly_tier (weekly_amount annual_amount : Decimal)
    (thresholds : Thresholds) :
  liberapay_tier weekly_amount annual_amount thresholds
  = monthly_tier weekly_amount
      (liberapay_regular_weekly_minimum thresholds)
      (liberapay_highlighted_weekly_minimum thresholds).
Proof.
  unfold liberapay_tier, monthly_tier, Dec.ge, Dec.le, Dec.lt, Dec.ordering.
  rewrite (compare_antisym weekly_amount (liberapay_regular_weekly_minimum thresholds)).
  destruct (Dec.compare weekly_amount (liberapay_highlighted_weekly_minimum thresholds))
    as [[] |];
    destruct (Dec.compare weekly_amount (liberapay_regular_weekly_minimum thresholds))
    as [[] |]; reflexivity.
Qed.

(** What a comparison that returns tells about its operands. *)
Lemma ordering_result test (a b : Decimal) (v : bool) :
  Dec.ordering test a b = Ok v -> exists c, Dec.compare a b = Some c /\ test c = v.
Proof.
  unfold Dec.ordering. destruct (Dec.compare a b) as [c |]; [| discriminate].
  intros H. injection H as <-. eauto.
Qed.

Lemma ordering_raises test (a b : Decimal) (e : exception) :
  Dec.ordering test a b = Raise e ->
  e = InvalidOperation /\ (Dec.is_nan a = true \/ Dec.is_nan b = true).
Proof.
  unfold Dec.ordering. destruct (Dec.compare a b) as [c |] eqn:E; [discriminate |].
  intros H. injection H as <-. split; [reflexivity |].
  destruct a, b; simpl in *; auto; discriminate.
Qed.

Lemma lt_true (a b : Decimal) : Dec.lt a b = Ok true -> Dlt a b.
Proof.
  intros H. apply ordering_result in H as [c [Hc Ht]]. unfold Dlt.
  destruct c; try discriminate. exact Hc.
Qed.

Lemma ge_true (a b : Decimal) : Dec.ge a b = Ok true -> Dle b a.
Proof.
  intros H. apply ordering_result in H as [c [Hc Ht]]. unfold Dle.
  rewrite (compare_antisym a b), Hc. destruct c; simpl; auto. discriminate.
Qed.

Lemma ge_false (a b : Decimal) : Dec.ge a b = Ok false -> Dlt a b.
Proof.
  intros H. apply ordering_result in H as [c [Hc Ht]]. unfold Dlt.
  destruct c; try discriminate. exact Hc.
Qed.

Lemma Dle_lt (a b : Decimal) : Dle a b -> Dec.lt b a = Ok false.
Proof.
  unfold Dle, Dec.lt, Dec.ordering. rewrite (compare_antisym a b).
  intros [-> | ->]; reflexivity.
Qed.

(** ** [build_thresholds] *)

(** X6.  [build_thresholds] returns the four arguments as they are when
    the two regular minimums are at least zero and each highlighted minimum
    is at least the regular one. *)
Theorem build_thresholds_accepts (args : Namespace) :
  Dle (Dec.of_Z 0) (args_github_regular_monthly_minimum args) ->
  Dle (args_github_regular_monthly_minimum args)
      (args_github_highlighted_monthly_minimum args) ->
  Dle (Dec.of_Z 0) (args_liberapay_regular_weekly_minimum args) ->
  Dle (args_liberapay_regular_weekly_minimum args)
      (args_liberapay_highlighted_weekly_minimum args) ->
  build_thresholds args
  = Ok {| github_regular_monthly_minimum := args_github_regular_monthly_minimum args;
          github_highlighted_monthly_minimum := args_github_highlighted_monthly_minimum args;
          liberapay_regular_weekly_minimum := args_liberapay_regular_weekly_minimum args;
          liberapay_highlighted_weekly_minimum :=
            args_liberapay_highlighted_weekly_minimum args |}.
Proof.
  intros H1 H2 H3 H4.
  pose proof (Dle_trans _ _ _ H1 H2) as H5.
  pose proof (Dle_trans _ _ _ H3 H4) as H6.
  unfold build_thresholds. cbn [check_non_negative github_regular_monthly_minimum
    github_highlighted_monthly_minimum liberapay_regular_weekly_minimum
    liberapay_highlighted_weekly_minimum].
  rewrite (Dle_lt _ _ H1), (Dle_lt _ _ H5), (Dle_lt _ _ H3), (Dle_lt _ _ H6).
  cbn [bind]. rewrite (Dle_lt _ _ H2). cbn [bind]. rewrite (Dle_lt _ _ H4).
  reflexivity.
Qed.

Lemma build_thresholds_accepts_witness :
  build_thresholds
    {| args_github_regular_monthly_minimum := Dec.of_Z 5;
       args_github_highlighted_monthly_minimum := Dec.of_Z 20;
       args_liberapay_regular_weekly_minimum := Dec.of_Z 0;
       args_liberapay_highlighted_weekly_minimum := Dec.of_Z 5 |}
  = Ok sample_thresholds.
Proof.
  apply (build_thresholds_accepts
           {| args_github_regular_monthly_minimum := Dec.of_Z 5;
              args_github_highlighted_monthly_minimum := Dec.of_Z 20;
              args_liberapay_regular_weekly_minimum := Dec.of_Z 0;
              args_liberapay_highlighted_weekly_minimum := Dec.of_Z 5 |});
    vm_compute; auto.
Defined.


Lemma check_non_negative_raises (values : list Decimal) (e : exception) :
  check_non_negative values = Raise e ->
  (e = InvalidOperation /\ Exists (fun d => Dec.is_nan d = true) values) \/
  (e = RuntimeError "Threshold values must be non-negative." /\ Exists negative values).
Proof.
  induction values as [| d rest IH]; simpl; [discriminate |].
  destruct (Dec.lt d (Dec.of_Z 0)) as [[] | e'] eqn:E; cbn [bind].
  - intros H. injection H as <-. right. split; [reflexivity |].
    constructor. now apply lt_true.
  - intros H. destruct (IH H) as [[-> Hx] | [-> Hx]]; [left | right];
      (split; [reflexivity | now constructor 2]).
  - intros H. injection H as <-. apply ordering_raises in E as [-> [Hn | Hn]].
    + left. split; [reflexivity | now constructor].
    + discriminate Hn.
Qed.

(** X7.  Every error of [build_thresholds] is truthful: [InvalidOperation]
    means an argument is a NaN, the first message that one is negative, the
    second and the third that all are non-negative and the highlighted
    minimum of that platform is below the regular one. *)
Theorem build_thresholds_errors (args : Namespace) (e : exception) :
  build_thresholds args = Raise e ->
  let values := [args_github_regular_monthly_minimum args;
                 args_github_highlighted_monthly_minimum args;
                 args_liberapay_regular_weekly_minimum args;
                 args_liberapay_highlighted_weekly_minimum args] in
  (e = InvalidOperation /\ Exists (fun d => Dec.is_nan d = true) values) \/
  (e = RuntimeError "Threshold values must be non-negative." /\ Exists negative values) \/
  (e = RuntimeError "GitHub highlighted minimum must be greater than or equal to the GitHub regular minimum." /\
   Forall (fun d => Dle (Dec.of_Z 0) d) values /\
   Dlt (args_github_highlighted_monthly_minimum args)
       (args_github_regular_monthly_minimum args)) \/
  (e = RuntimeError "Liberapay highlighted minimum must be greater than or equal to the Liberapay regular minimum." /\
   Forall (fun d => Dle (Dec.of_Z 0) d) values /\
   Dlt (args_liberapay_highlighted_weekly_minimum args)
       (args_liberapay_regular_weekly_minimum args)).
Proof.
  unfold build_thresholds. cbv zeta.
  cbn [github_regular_monthly_minimum github_highlighted_monthly_minimum
       liberapay_regular_weekly_minimum liberapay_highlighted_weekly_minimum].
  destruct (check_non_negative _) as [u | e0] eqn:E; cbn [bind].
  - apply check_non_negative_ok in E.
    destruct (Dec.lt (args_github_highlighted_monthly_minimum args) _)
      as [[] | e1] eqn:E1; cbn [bind].
    + intros H. injection H as <-. right. right. left.
      split; [reflexivity |]. split; [exact E | now apply lt_true].
    + destruct (Dec.lt (args_liberapay_highlighted_weekly_minimum args) _)
        as [[] | e2] eqn:E2; cbn [bind].
      * intros H. injection H as <-. right. right. right.
        split; [reflexivity |]. split; [exact E | now apply lt_true].
      * discriminate.
      * intros H. injection H as <-. left.
        apply ordering_raises in E2 as [-> [Hn | Hn]]; (split; [reflexivity |]).
        -- do 3 constructor 2. now constructor.
        -- do 2 constructor 2. now constructor.
    + intros H. injection H as <-. left.
      apply ordering_raises in E1 as [-> [Hn | Hn]]; (split; [reflexivity |]).
      * constructor 2. now constructor.
      * now constructor.
  - intros H. injection H as <-.
    destruct (check_non_negative_raises _ _ E) as [[-> Hx] | [-> Hx]]; auto.
Qed.

Lemma build_thresholds_errors_witness :
  Exists negative [Dec.of_Z (-1); Dec.of_Z 20; Dec.of_Z 0; Dec.of_Z 5].
Proof.
  destruct (build_thresholds_errors
              {| args_github_regular_monthly_minimum := Dec.of_Z (-1);
                 args_github_highlighted_monthly_minimum := Dec.of_Z 20;
                 args_liberapay_regular_weekly_minimum := Dec.of_Z 0;
                 args_liberapay_highlighted_weekly_minimum := Dec.of_Z 5 |}
              (RuntimeError "Threshold values must be non-negative.") eq_refl)
    as [[H _] | [[_ H] | [[H _] | [H _]]]];
    [discriminate H | exact H | discriminate H | discriminate H].
Defined.

(** ** What the adapters store *)


Lemma or_else_truthy (a b : string) :
  Str.truthy b = true -> Str.truthy (Str.or_else a b) = true.
Proof. intros H. unfold Str.or_else. destruct (Str.truthy a) eqn:E; assumption. Qed.

Lemma monthly_tier_classified (a r h : Decimal) (t : string) :
  monthly_tier a r h = Ok (Some t) -> classified t a r h.
Proof.
  unfold monthly_tier, classified. intros H.
  destruct (Dec.ge a h) as [[] | e] eqn:E1; cbn [bind] in H; try discriminate.
  - injection H as <-. left. split; [reflexivity | now apply ge_true].
  - destruct (Dec.le r a) as [[] | e] eqn:E2; cbn [bind] in H; try discriminate.
    destruct (Dec.lt a h) as [[] | e] eqn:E3; cbn [bind] in H; try discriminate.
    injection H as <-. right. split; [reflexivity |]. split; [| now apply lt_true].
    apply ordering_result in E2 as [c [Hc Ht]]. unfold Dle.
    destruct c; try discriminate; auto.
Qed.

Lemma liberapay_tier_classified (w annual : Decimal) (th : Thresholds) (t : string) :
  liberapay_tier w annual th = Ok (Some t) ->
  classified t w (liberapay_regular_weekly_minimum th)
    (liberapay_highlighted_weekly_minimum th).
Proof.
  unfold liberapay_tier, classified. intros H.
  destruct (Dec.ge w (liberapay_highlighted_weekly_minimum th)) as [[] | e] eqn:E1;
    cbn [bind] in H; try discriminate.
  - injection H as <-. left. split; [reflexivity | now apply ge_true].
  - destruct (Dec.ge w (liberapay_regular_weekly_minimum th)) as [[] | e] eqn:E2;
      cbn [bind] in H; try discriminate.
    injection H as <-. right. split; [reflexivity |].
    split; [now apply ge_true | now apply ge_false].
Qed.

(** X8.  A sponsor the Liberapay adapter stores has a non-blank user name,
    whose lower case is the key and whose percent-encoding ends the profile
    URL, the upper-cased currency of the row, which is USD or EUR, the
    pledge date as [parse_started_at] reads it, the tier its weekly amount
    has under the Liberapay minimums, and a non-empty name and avatar URL. *)
Theorem liberapay_row_stores l2u th row s :
  liberapay_row l2u th row = Ok (Some s) ->
  let username := Str.strip (row_get_or row "patron_username" EmptyString) in
  Str.truthy username = true /\
  platform s = "liberapay" /\
  key s = Str.lower username /\
  profile_url s = "https://liberapay.com/" ++ Url.quote username /\
  currency s = Str.upper (Str.strip (row_get_or row "donation_currency" EmptyString)) /\
  (currency s = "USD" \/ currency s = "EUR") /\
  parse_started_at l2u (row_get_or row "pledge_date" EmptyString) true
  = Ok (Some (started_at s)) /\
  (exists weekly_amount,
     parse_decimal (json_of_field (row_get row "weekly_amount")) = Ok (Some weekly_amount) /\
     classified (tier s) weekly_amount
       (liberapay_regular_weekly_minimum th) (liberapay_highlighted_weekly_minimum th)) /\
  Str.truthy (name s) = true /\
  Str.truthy (avatar_url s) = true.
Proof.
  intros H username. unfold liberapay_row in H. fold username in H.
  destruct (Str.truthy username) eqn:Eu; cbn [negb] in H; [| discriminate].
  destruct (existsb _ SUPPORTED_CURRENCIES) eqn:Ec; cbn [negb] in H; [| discriminate].
  destruct (parse_decimal _) as [[w |] | e] eqn:Ew; cbn [bind] in H; try discriminate.
  destruct (parse_started_at _ _ _) as [[d |] | e] eqn:Ed; cbn [bind] in H; try discriminate.
  destruct (Dec.mul w WEEKS_PER_YEAR) as [annual | e] eqn:Em; cbn [bind] in H;
    try discriminate.
  destruct (liberapay_tier w annual th) as [[t |] | e] eqn:Et; cbn [bind] in H;
    try discriminate.
  destruct (Dec.div annual MONTHS_PER_YEAR) as [monthly | e] eqn:Eq; cbn [bind] in H;
    try discriminate.
  destruct (Dec.quantize monthly _ _) as [m | e] eqn:Ez; cbn [bind] in H;
    try discriminate.
  injection H as <-. cbn [platform key profile_url currency started_at name
                           avatar_url tier].
  repeat split; try reflexivity.
  - cbn [existsb SUPPORTED_CURRENCIES] in Ec.
    rewrite !orb_true_iff, !String.eqb_eq in Ec.
    destruct Ec as [Ec | [Ec | Ec]]; [left | right | discriminate]; exact Ec.
  - exists w. split; [reflexivity |].
    eapply liberapay_tier_classified, Et.
  - now apply or_else_truthy.
  - now apply or_else_truthy.
Qed.

Lemma liberapay_row_stores_witness :
  exists s, liberapay_row utc_machine sample_thresholds five_row = Ok (Some s) /\
            key s = "alice" /\ currency s = "EUR" /\ name s = "alice".
Proof.
  eexists. split; [vm_compute; reflexivity |].
  match goal with
  | |- key ?s = _ /\ _ =>
      pose proof (liberapay_row_stores utc_machine sample_thresholds five_row s eq_refl)
        as [_ [_ [Hk [_ [Hc _]]]]]
  end.
  split; [exact Hk |]. split; [exact Hc | reflexivity].
Defined.

(** ** Amounts that are not finite *)

(** X9.  A row with a user name, a supported currency and a pledge date
    whose weekly amount reads as a NaN or as the positive infinity ends the
    run with [InvalidOperation], whatever the thresholds. *)
Theorem liberapay_row_non_finite l2u th row weekly_amount started_at :
  Str.truthy (Str.strip (row_get_or row "patron_username" EmptyString)) = true ->
  existsb (String.eqb (Str.upper (Str.strip (row_get_or row "donation_currency" EmptyString))))
    SUPPORTED_CURRENCIES = true ->
  parse_decimal (json_of_field (row_get row "weekly_amount")) = Ok (Some weekly_amount) ->
  parse_started_at l2u (row_get_or row "pledge_date" EmptyString) true = Ok (Some started_at) ->
  Dec.is_nan weekly_amount = true \/ weekly_amount = Infinity false ->
  liberapay_row l2u th row = Raise InvalidOperation.
Proof.
  intros Hu Hc Hw Hd Hn. unfold liberapay_row.
  rewrite Hu, Hc, Hw. cbn [negb bind]. rewrite Hd. cbn [bind].
  destruct Hn as [Hn | ->].
  - destruct weekly_amount as [| | sg [] p]; try discriminate Hn; reflexivity.
  - cbn [Dec.mul Dec.check_nans WEEKS_PER_YEAR Dec.is_zero Dec.sign_of xorb bind].
    unfold liberapay_tier, Dec.ge, Dec.ordering.
    destruct (liberapay_highlighted_weekly_minimum th) as [s1 c1 e1 | s1 | s1 g1 p1];
      cbn [Dec.compare bind]; try reflexivity.
    destruct s1; reflexivity.
Qed.

Lemma liberapay_row_non_finite_witness :
  liberapay_row utc_machine sample_thresholds infinite_row = Raise InvalidOperation.
Proof.
  eapply (liberapay_row_non_finite utc_machine sample_thresholds infinite_row);
    try reflexivity.
  right. reflexivity.
Defined.

(** ** Rows that are processed without an exception *)

(** X10.  With minimums that are numbers, a row whose weekly amount is
    finite with at most 25 digits, below 10^25 and with an exponent of at
    least -999000 is stored or skipped: no exception is raised. *)
Theorem liberapay_row_returns l2u th row sg c e :
  number (liberapay_regular_weekly_minimum th) ->
  number (liberapay_highlighted_weekly_minimum th) ->
  parse_decimal (json_of_field (row_get row "weekly_amount")) = Ok (Some (Finite sg c e)) ->
  (c < Dec.pow10 25)%N -> -999000 <= e -> e + Dec.ndigits c <= 25 ->
  exists o, liberapay_row l2u th row = Ok o.
Proof.
  intros Hr Hh Hw Hc He Hd. unfold liberapay_row.
  destruct (negb (Str.truthy _)); [eauto |].
  destruct (negb (existsb _ _)); [eauto |].
  rewrite Hw. cbn [bind].
  destruct (parse_started_at _ _ _) as [[d |] | x] eqn:Ed; cbn [bind]; [| eauto |].
  - pose proof (monthly_pipeline sg c e Hc He Hd) as P.
    pose proof (ndigits_pos c) as Hp.
    rewrite mul52 in * by (try assumption; lia). cbn [bind] in *.
    unfold liberapay_tier.
    destruct (ge_spec (Finite sg c e) _ eq_refl Hh) as [[-> _] | [-> _]]; cbn [bind].
    + destruct (Dec.div _ _) as [m |]; cbn [bind] in *; [| discriminate P].
      rewrite P. cbn [bind]. eauto.
    + destruct (ge_spec (Finite sg c e) _ eq_refl Hr) as [[-> _] | [-> _]]; cbn [bind];
        [| eauto].
      destruct (Dec.div _ _) as [m |]; cbn [bind] in *; [| discriminate P].
      rewrite P. cbn [bind]. eauto.
  - exfalso. unfold parse_started_at in Ed.
    destruct (negb (Str.truthy _)); [discriminate |].
    destruct (DT.fromisoformat _) as [d | x'] eqn:E; cbn [bind Py.try_except] in Ed;
      [discriminate |].
    apply fromisoformat_raises in E. subst x'. discriminate Ed.
Qed.

Lemma liberapay_row_returns_witness :
  exists o, liberapay_row utc_machine sample_thresholds five_row = Ok o.
Proof.
  apply (liberapay_row_returns utc_machine sample_thresholds five_row false 500 (-2));
    try reflexivity; vm_compute; congruence.
Defined.

Lemma rstrip_idempotent (s : string) : Str.rstrip (Str.rstrip s) = Str.rstrip s.
Proof.
  induction s as [| c s IH]; [reflexivity |].
  cbn [Str.rstrip]. destruct (Str.rstrip s) as [| d t] eqn:E.
  - destruct (Str.isspace c) eqn:Ec; [reflexivity |].
    cbn [Str.rstrip]. now rewrite Ec.
  - cbn [Str.rstrip] in *. now rewrite IH.
Qed.

Lemma rstrip_head (c : ascii) (r : string) :
  Str.isspace c = false -> exists r', Str.rstrip (String c r) = String c r'.
Proof.
  intros Hc. cbn [Str.rstrip]. destruct (Str.rstrip r); [rewrite Hc |]; eauto.
Qed.

Lemma lstrip_head (s : string) :
  Str.lstrip s = EmptyString \/
  exists c r, Str.lstrip s = String c r /\ Str.isspace c = false.
Proof.
  induction s as [| c s IH]; [now left |].
  cbn [Str.lstrip]. destruct (Str.isspace c) eqn:Ec; [exact IH |].
  right. eauto.
Qed.

Lemma strip_idempotent (s : string) : Str.strip (Str.strip s) = Str.strip s.
Proof.
  unfold Str.strip. destruct (lstrip_head s) as [-> | [c [r [-> Hc]]]]; [reflexivity |].
  destruct (rstrip_head c r Hc) as [r' E]. rewrite E.
  cbn [Str.lstrip]. rewrite Hc. rewrite <- E. apply rstrip_idempotent.
Qed.

(** [(value or "").strip()] returns a non-empty text only for a string. *)
Lemma strip_or_empty (value : json) (text : string) :
  Py.strip (Py.or_else value (JStr EmptyString)) = Ok text ->
  Str.truthy text = true ->
  exists s, value = JStr s /\ text = Str.strip s.
Proof.
  unfold Py.or_else. destruct (Py.truthy value) eqn:T.
  - destruct value; simpl; try discriminate. intros H _. injection H as <-. eauto.
  - simpl. intros H. injection H as <-. discriminate.
Qed.

(** X11.  A sponsor the GitHub adapter stores has the login and the URL of
    the sponsor entity, both texts that are not blank, stripped: the
    lower-cased login is the key and its percent-encoding names the avatar;
    its start is [createdAt] as [parse_started_at] reads it; its tier is the
    one its monthly amount has under the GitHub minimums; its currency is
    USD and its name is not empty. *)
Theorem github_node_stores l2u th node s :
  github_node l2u th node = Ok (Some s) ->
  let sponsor_entity := Py.or_else (dict_get node "sponsorEntity") (JObject []) in
  platform s = "github" /\
  currency s = "USD" /\
  (exists login,
     Py.get sponsor_entity "login" = Ok (JStr login) /\
     Str.truthy (Str.strip login) = true /\
     key s = Str.lower (Str.strip login) /\
     avatar_url s = "https://github.com/" ++ Url.quote (Str.strip login) ++ ".png") /\
  (exists url,
     Py.get sponsor_entity "url" = Ok (JStr url) /\
     Str.truthy (Str.strip url) = true /\
     profile_url s = Str.strip url) /\
  (exists created,
     dict_get node "createdAt" = JStr created /\
     parse_started_at l2u created false = Ok (Some (started_at s))) /\
  classified (tier s) (monthly_amount s)
    (github_regular_monthly_minimum th) (github_highlighted_monthly_minimum th) /\
  Str.truthy (name s) = true.
Proof.
  intros H sponsor_entity. unfold github_node in H. fold sponsor_entity in H.
  destruct (negb (Py.truthy (dict_get node "isActive")) || _); [discriminate |].
  destruct (differs_from _ _); [discriminate |].
  destruct (Py.get sponsor_entity "login") as [login_field | x] eqn:E1;
    cbn [bind] in H; [| discriminate].
  destruct (Py.strip (Py.or_else login_field _)) as [sponsor_login | x] eqn:E2;
    cbn [bind] in H; [| discriminate].
  destruct (Py.get sponsor_entity "url") as [url_field | x] eqn:E3;
    cbn [bind] in H; [| discriminate].
  destruct (Py.strip (Py.or_else url_field _)) as [sponsor_url | x] eqn:E4;
    cbn [bind] in H; [| discriminate].
  destruct (Str.truthy sponsor_login) eqn:T1; cbn [negb orb] in H; [| discriminate].
  destruct (Str.truthy sponsor_url) eqn:T2; cbn [negb] in H; [| discriminate].
  destruct (Py.strip (Py.or_else (dict_get node "createdAt") _)) as [created | x] eqn:E5;
    cbn [bind] in H; [| discriminate].
  destruct (parse_started_at l2u created false) as [[d |] | x] eqn:E6;
    cbn [bind] in H; try discriminate.
  destruct (tier_price node "monthlyPriceInCents") as [cents | x] eqn:E7;
    cbn [bind] in H; [| discriminate].
  match type of H with
  | bind ?r _ = _ => destruct r as [[amount |] | x] eqn:E8; cbn [bind] in H;
                     try discriminate
  end.
  destruct (monthly_tier amount _ _) as [[t |] | x] eqn:E9; cbn [bind] in H;
    try discriminate.
  destruct (Py.get sponsor_entity "name") as [name_field | x] eqn:E10;
    cbn [bind] in H; [| discriminate].
  destruct (Py.strip (Py.or_else name_field _)) as [stripped_name | x] eqn:E11;
    cbn [bind] in H; [| discriminate].
  injection H as <-.
  cbn [platform currency key avatar_url profile_url started_at tier monthly_amount name].
  destruct (strip_or_empty _ _ E2 T1) as [login [-> ->]].
  destruct (strip_or_empty _ _ E4 T2) as [url [-> ->]].
  assert (T5 : Str.truthy created = true).
  { destruct created; [| reflexivity]. discriminate E6. }
  destruct (strip_or_empty _ _ E5 T5) as [c0 [Ec ->]].
  repeat split.
  - exists login. auto.
  - exists url. auto.
  - exists c0. split; [exact Ec |].
    revert E6. unfold parse_started_at.
    now rewrite strip_idempotent.
  - now apply monthly_tier_classified.
  - now apply or_else_truthy.
Qed.

Lemma github_node_stores_witness :
  exists s, github_node utc_machine sample_thresholds (named_node "The Octocat") = Ok (Some s) /\
            key s = "octocat" /\ tier s = "regular".
Proof.
  eexists. split; [vm_compute; reflexivity |].
  match goal with
  | |- key ?s = _ /\ _ =>
      pose proof (github_node_stores utc_machine sample_thresholds
                    (named_node "The Octocat") s eq_refl)
        as [_ [_ [_ [_ [_ [Hc _]]]]]]
  end.
  split; [reflexivity |].
  destruct Hc as [[Ht _] | [Ht _]]; [discriminate Ht | exact Ht].
Defined.

(** ** Integers printed and parsed *)

Lemma isdigit_cases (c : ascii) :
  Str.isdigit c = true -> exists d, (d < 10)%N /\ c = Py.decimal_digit d.
Proof.
  unfold Str.isdigit, Str.in_range, Str.code. intros H.
  apply andb_true_iff in H as [H1 H2]. apply N.leb_le in H1, H2.
  exists (N_of_ascii c - 48)%N. split; [lia |].
  unfold Py.decimal_digit. replace (48 + (N_of_ascii c - 48))%N with (N_of_ascii c) by lia.
  now rewrite ascii_N_embedding.
Qed.

(** A property of the numbers below a bound, checked on each of them. *)
Lemma below_bound (k : nat) (P : N -> bool) :
  forallb P (List.map N.of_nat (seq 0 k)) = true ->
  forall d, (d < N.of_nat k)%N -> P d = true.
Proof.
  intros H d Hd. rewrite forallb_forall in H. apply H.
  apply in_map_iff. exists (N.to_nat d). split; [lia |]. apply in_seq. lia.
Qed.

Lemma decimal_digit_facts (d : N) :
  (d < 10)%N ->
  Str.isdigit (Py.decimal_digit d) = true /\
  Str.digit_value (Py.decimal_digit d) = d /\
  Str.isspace (Py.decimal_digit d) = false /\
  Ascii.eqb (Py.decimal_digit d) "_" = false /\
  Ascii.eqb (Py.decimal_digit d) "+" = false /\
  Ascii.eqb (Py.decimal_digit d) "-" = false /\
  Ascii.eqb (Py.decimal_digit d) "." = false.
Proof.
  intros H.
  pose proof (below_bound 10
    (fun d => Str.isdigit (Py.decimal_digit d)
              && (Str.digit_value (Py.decimal_digit d) =? d)%N
              && negb (Str.isspace (Py.decimal_digit d))
              && negb (Ascii.eqb (Py.decimal_digit d) "_")
              && negb (Ascii.eqb (Py.decimal_digit d) "+")
              && negb (Ascii.eqb (Py.decimal_digit d) "-")
              && negb (Ascii.eqb (Py.decimal_digit d) "."))
    eq_refl d H) as F.
  cbv beta in F. rewrite !andb_true_iff, !negb_true_iff, N.eqb_eq in F. tauto.
Qed.


Lemma digits_cons (c : ascii) (s : string) :
  digits (String c s) <-> Str.isdigit c = true /\ digits s.
Proof. unfold digits. simpl. apply andb_true_iff. Qed.

Lemma digits_span (s : string) :
  digits s -> Str.span Str.isdigit s = (s, EmptyString).
Proof.
  induction s as [| c s IH]; [reflexivity |].
  intros H. apply digits_cons in H as [Hc Hs]. simpl. now rewrite Hc, IH.
Qed.

Lemma digits_rstrip (s : string) : digits s -> Str.rstrip s = s.
Proof.
  induction s as [| c s IH]; [reflexivity |].
  intros H. apply digits_cons in H as [Hc Hs]. cbn [Str.rstrip]. rewrite (IH Hs).
  destruct s; [| reflexivity].
  destruct (isdigit_cases c Hc) as [d [Hd ->]].
  destruct (decimal_digit_facts d Hd) as [_ [_ [-> _]]]. reflexivity.
Qed.

Lemma digits_remove_underscore (s : string) : digits s -> Str.remove_char "_" s = s.
Proof.
  induction s as [| c s IH]; [reflexivity |].
  intros H. apply digits_cons in H as [Hc Hs]. cbn [Str.remove_char]. rewrite (IH Hs).
  destruct (isdigit_cases c Hc) as [d [Hd ->]].
  destruct (decimal_digit_facts d Hd) as [_ [_ [_ [-> _]]]]. reflexivity.
Qed.

(** [Decimal(text)] of an optional minus sign and digits. *)
Lemma of_string_integer (neg : bool) (ds : string) :
  digits ds -> Str.truthy ds = true ->
  Dec.of_string ((if neg then "-" else EmptyString) ++ ds)
  = Ok (Finite neg (Str.digits_value ds) 0) /\
  Str.strip ((if neg then "-" else EmptyString) ++ ds)
  = (if neg then "-" else EmptyString) ++ ds.
Proof.
  intros Hd Ht.
  destruct ds as [| c r]; [discriminate Ht |].
  pose proof Hd as Hd'. apply digits_cons in Hd' as [Hc Hr].
  destruct (isdigit_cases c Hc) as [d [Hlt Ec]].
  destruct (decimal_digit_facts d Hlt) as [_ [_ [F1 [_ [F2 [F3 _]]]]]].
  rewrite <- Ec in F1, F2, F3.
  assert (Hstrip : Str.strip ((if neg then "-" else EmptyString) ++ String c r)
                   = (if neg then "-" else EmptyString) ++ String c r).
  { unfold Str.strip. destruct neg.
    - change ("-" ++ String c r) with (String "-" (String c r)).
      change (Str.lstrip (String "-" (String c r))) with (String "-" (String c r)).
      change (Str.rstrip (String "-" (String c r)))
        with (match Str.rstrip (String c r) with
              | EmptyString => String "-" EmptyString
              | t => String "-" t
              end).
      now rewrite (digits_rstrip _ Hd).
    - cbn [append Str.lstrip]. rewrite F1. apply digits_rstrip, Hd. }
  split; [| exact Hstrip].
  unfold Dec.of_string. rewrite Hstrip.
  assert (Hsplit : Dec.split_sign
                     (Str.remove_char "_" ((if neg then "-" else EmptyString) ++ String c r))
                   = (neg, String c r)).
  { destruct neg.
    - change ("-" ++ String c r) with (String "-" (String c r)).
      change (Str.remove_char "_" (String "-" (String c r)))
        with (String "-" (Str.remove_char "_" (String c r))).
      rewrite (digits_remove_underscore _ Hd). reflexivity.
    - cbn [append]. rewrite (digits_remove_underscore _ Hd).
      unfold Dec.split_sign.
      apply Ascii.eqb_neq in F2, F3.
      destruct c as [[] [] [] [] [] [] [] []]; try reflexivity; congruence. }
  rewrite Hsplit. unfold Dec.parse_number. rewrite (digits_span _ Hd).
  cbn [Str.truthy Str.is_empty negb orb Dec.parse_exponent].
  rewrite append_nil_r. reflexivity.
Qed.

Lemma digits_value_from_spec (fuel : nat) :
  forall (n : N) (acc : string),
    (n < 10 ^ N.of_nat fuel)%N ->
    (digits acc -> digits (Py.str_of_N_fuel fuel n acc)) /\
    exists k, forall a,
      Str.digits_value_from a (Py.str_of_N_fuel fuel n acc)
      = Str.digits_value_from (a * 10 ^ k + n)%N acc.
Proof.
  induction fuel as [| fuel IH]; intros n acc Hn.
  - change (10 ^ N.of_nat 0)%N with 1%N in Hn. assert (n = 0%N) as -> by lia.
    split; [auto |]. exists 0%N. intros a. simpl. f_equal. lia.
  - cbn [Py.str_of_N_fuel].
    assert (Hm : (n mod 10 < 10)%N) by (apply N.mod_lt; discriminate).
    destruct (decimal_digit_facts _ Hm) as [D1 [D2 _]].
    destruct (N.ltb_spec n 10) as [Hlt | Hge].
    + split.
      * intros Ha. apply digits_cons. auto.
      * exists 1%N. intros a. cbn [Str.digits_value_from]. rewrite D2.
        f_equal. rewrite N.mod_small by assumption. lia.
    + assert (Hq : (n / 10 < 10 ^ N.of_nat fuel)%N).
      { rewrite Nat2N.inj_succ, N.pow_succ_r' in Hn.
        apply N.Div0.div_lt_upper_bound. lia. }
      destruct (IH (n / 10)%N (String (Py.decimal_digit (n mod 10)) acc) Hq)
        as [Hdig [k Hk]].
      split.
      * intros Ha. apply Hdig, digits_cons. auto.
      * exists (N.succ k). intros a. rewrite Hk. cbn [Str.digits_value_from]. rewrite D2.
        f_equal. rewrite N.pow_succ_r'.
        pose proof (N.div_mod n 10 ltac:(discriminate)). lia.
Qed.

Lemma str_of_N_fuel_truthy (fuel : nat) (n : N) (c : ascii) (acc : string) :
  Str.truthy (Py.str_of_N_fuel fuel n (String c acc)) = true.
Proof.
  revert n c acc. induction fuel as [| fuel IH]; intros n c acc; [reflexivity |].
  cbn [Py.str_of_N_fuel]. destruct (n <? 10)%N; [reflexivity | apply IH].
Qed.

Lemma str_of_N_spec (n : N) :
  digits (Py.str_of_N n) /\ Str.truthy (Py.str_of_N n) = true /\
  Str.digits_value (Py.str_of_N n) = n.
Proof.
  unfold Py.str_of_N.
  assert (Hn : (n < 10 ^ N.of_nat (S (N.to_nat (N.size n))))%N).
  { rewrite Nat2N.inj_succ, N2Nat.id, N.pow_succ_r'.
    pose proof (N.size_gt n) as H1.
    assert (H2 : (2 ^ N.size n <= 10 ^ N.size n)%N)
      by (apply N.pow_le_mono_l; lia).
    assert (H3 : (0 < 10 ^ N.size n)%N) by (apply N.neq_0_lt_0, N.pow_nonzero; discriminate).
    lia. }
  destruct (digits_value_from_spec _ n EmptyString Hn) as [Hd [k Hk]].
  split; [apply Hd; reflexivity |]. split.
  - cbn [Py.str_of_N_fuel]. destruct (n <? 10)%N; [reflexivity |].
    apply str_of_N_fuel_truthy.
  - unfold Str.digits_value. rewrite Hk. simpl. lia.
Qed.

(** The text of an integer is not blank and reads as that integer. *)
Lemma str_integer_parses (n : Z) :
  Str.truthy (Str.strip (Py.str (JInt n))) = true /\
  Dec.of_string (Str.strip (Py.str (JInt n))) = Ok (Dec.of_Z n).
Proof.
  destruct (str_of_N_spec (Z.abs_N n)) as [Hd [Ht Hv]].
  destruct (of_string_integer (n <? 0) _ Hd Ht) as [Hparse Hstrip].
  assert (Hs : Py.str (JInt n)
               = (if n <? 0 then "-" else EmptyString) ++ Py.str_of_N (Z.abs_N n)).
  { unfold Py.str, Py.str_of_Z. destruct (n <? 0); reflexivity. }
  rewrite Hs, Hstrip. split.
  - destruct (n <? 0); [reflexivity | exact Ht].
  - rewrite Hparse, Hv. reflexivity.
Qed.

(** X12.  [parse_decimal] of an integer is that integer, exactly. *)
Theorem parse_decimal_integer (n : Z) :
  parse_decimal (JInt n) = Ok (Some (Dec.of_Z n)).
Proof.
  destruct (str_integer_parses n) as [Ht Hp].
  unfold parse_decimal. rewrite Ht, Hp. reflexivity.
Qed.

(** ** Cents to dollars *)

Lemma strip_zeros_spec (n : nat) :
  forall (coeff : N) (exp ideal : Z),
    exp + Z.of_nat n = ideal ->
    let (c', e') := Dec.strip_zeros n coeff exp ideal in
    exp <= e' <= ideal /\
    (c' * Dec.pow10 (e' - exp))%N = coeff /\
    (e' = ideal \/ (c' mod 10 <> 0)%N).
Proof.
  induction n as [| n IH]; intros coeff exp ideal Hn.
  - cbn [Dec.strip_zeros]. replace (exp - exp) with 0 by lia.
    change (Dec.pow10 0) with 1%N. repeat split; lia.
  - cbn [Dec.strip_zeros].
    destruct (Z.ltb_spec exp ideal) as [_ | Hge]; [| lia]. cbn [andb].
    destruct (N.eqb_spec (coeff mod 10) 0) as [Hz | Hnz].
    + specialize (IH (coeff / 10)%N (exp + 1) ideal ltac:(lia)).
      destruct (Dec.strip_zeros n (coeff / 10) (exp + 1) ideal) as [c' e'].
      destruct IH as [Hr [Hv Hs]].
      split; [lia |]. split; [| destruct Hs; [left | right]; assumption].
      replace (e' - exp) with ((e' - (exp + 1)) + 1) by lia.
      rewrite pow10_succ by lia.
      pose proof (N.div_mod coeff 10 ltac:(discriminate)). lia.
    + replace (exp - exp) with 0 by lia. change (Dec.pow10 0) with 1%N.
      split; [lia |]. split; [lia | now right].
Qed.

Lemma pow10_mod10 (k : Z) : 1 <= k -> (Dec.pow10 k mod 10 = 0)%N.
Proof.
  intros Hk. replace k with ((k - 1) + 1) by lia. rewrite pow10_succ by lia.
  rewrite N.mul_comm. apply N.Div0.mod_mul.
Qed.

(** An integer of at most 28 digits divided by 100 is exact: the quotient
    has an exponent between -2 and 0 and no needless trailing zero. *)
Lemma div_100_exact (s : bool) (c : N) :
  (c < Dec.pow10 28)%N ->
  exists c' e',
    Dec.div (Finite s c 0) (Finite false 100 0) = Ok (Finite s c' e') /\
    -2 <= e' <= 0 /\
    (c' * Dec.pow10 (e' + 2))%N = c /\
    (e' = 0 \/ (c' mod 10 <> 0)%N).
Proof.
  intros Hc. unfold Dec.div. cbn [Dec.check_nans Dec.sign_of].
  rewrite xorb_false_r. change (100 =? 0)%N with false. cbv iota.
  destruct (N.eqb_spec c 0) as [-> | Hne].
  - exists 0%N, 0. split; [reflexivity |]. split; [lia |]. split; [reflexivity | now left].
  - pose proof (ndigits_pos c) as Hp.
    pose proof (ndigits_le c 28 ltac:(lia) Hc) as Hl.
    unfold Dec.div_digits. change (Dec.ndigits 100) with 3. unfold Dec.prec.
    set (shift := 3 - Dec.ndigits c + 28 + 1).
    assert (Hs : 4 <= shift) by (unfold shift; lia).
    destruct (Z.leb_spec 0 shift) as [_ |]; [| lia].
    assert (Hnum : (c * Dec.pow10 shift = c * Dec.pow10 (shift - 2) * 100)%N).
    { rewrite (pow10_split shift 2) by lia. change (Dec.pow10 2) with 100%N. lia. }
    rewrite Hnum, N.Div0.mod_mul, N.div_mul by discriminate.
    change (0 =? 0)%N with true. cbv iota.
    replace (0 - 0 - (0 - 0 - shift)) with shift by lia.
    replace (0 - 0 - shift) with (- shift) by lia. replace (0 - 0) with 0 by lia.
    pose proof (strip_zeros_spec (Z.to_nat shift) (c * Dec.pow10 (shift - 2)) (- shift) 0
                  ltac:(lia)) as Hz.
    destruct (Dec.strip_zeros _ _ _ _) as [c' e']. destruct Hz as [Hr [Hv Hz]].
    replace (e' - - shift) with (e' + shift) in Hv by lia.
    assert (He : -2 <= e').
    { destruct (Z_le_gt_dec (-2) e') as [| Hlt]; [assumption | exfalso].
      destruct Hz as [-> | Hz]; [lia |]. apply Hz.
      rewrite (pow10_split (shift - 2) (e' + shift)) in Hv by lia.
      replace (shift - 2 - (e' + shift)) with (- 2 - e') in Hv by lia.
      pose proof (pow10_pos (e' + shift)).
      assert (E : (c' = c * Dec.pow10 (- 2 - e'))%N) by nia.
      rewrite E. rewrite N.Div0.mul_mod, pow10_mod10 by lia.
      rewrite N.mul_0_r. reflexivity. }
    assert (Hval : (c' * Dec.pow10 (e' + 2) = c)%N).
    { rewrite (pow10_split (e' + shift) (e' + 2)) in Hv by lia.
      replace (e' + shift - (e' + 2)) with (shift - 2) in Hv by lia.
      pose proof (pow10_pos (shift - 2)). nia. }
    exists c', e'. split; [| split; [lia |]; split; [exact Hval | exact Hz]].
    apply fix_small.
    + intros ->. lia.
    + apply ndigits_le; [lia |]. pose proof (pow10_pos (e' + 2)). nia.
    + unfold Dec.Etiny, Dec.Emin, Dec.prec. lia.
    + unfold Dec.Etop, Dec.Emax, Dec.prec. lia.
Qed.

(** The amount a node is stored with. *)
Lemma github_node_amount l2u th node s :
  github_node l2u th node = Ok (Some s) ->
  exists cents, tier_price node "monthlyPriceInCents" = Ok cents /\
    match cents with
    | Some cents => Dec.div cents (Finite false 100 0) = Ok (monthly_amount s)
    | None => tier_price node "monthlyPriceInDollars" = Ok (Some (monthly_amount s))
    end.
Proof.
  intros H. unfold github_node in H.
  destruct (negb _ || _); [discriminate |].
  destruct (differs_from _ _); [discriminate |].
  crunch H. cbn [bind] in H. injection H as <-. simpl.
  eexists. split; [reflexivity |].
  match goal with
  | E : _ = Ok (Some ?m) |- match ?c with _ => _ end =>
      destruct c; crunch E; cbn [bind] in E; congruence
  end.
Qed.

(** X13.  A stored GitHub sponsor whose price in cents is an integer of at
    most 28 digits has exactly a hundredth of it as monthly amount, with an
    exponent between -2 and 0 and no needless trailing zero. *)
Theorem github_cents_exact l2u th node s (n : Z) :
  github_node l2u th node = Ok (Some s) ->
  Py.get (Py.or_else (dict_get node "tier") (JObject [])) "monthlyPriceInCents"
  = Ok (JInt n) ->
  Z.abs n < 10 ^ 28 ->
  exists c e,
    monthly_amount s = Finite (n <? 0) c e /\
    -2 <= e <= 0 /\
    (c * Dec.pow10 (e + 2))%N = Z.abs_N n /\
    (e = 0 \/ (c mod 10 <> 0)%N).
Proof.
  intros H Hg Hn.
  destruct (github_node_amount _ _ _ _ H) as [cents [Hc Ha]].
  unfold tier_price in Hc. rewrite Hg in Hc. cbn [bind] in Hc.
  destruct (str_integer_parses n) as [Ht Hp].
  unfold parse_decimal in Hc. rewrite Ht, Hp in Hc. injection Hc as <-.
  destruct (div_100_exact (n <? 0) (Z.abs_N n)) as [c [e [Hd Hrest]]].
  { unfold Dec.pow10. change (Z.to_N 28) with 28%N. lia. }
  exists c, e. split; [| exact Hrest].
  unfold Dec.of_Z in Ha. congruence.
Qed.

Lemma github_cents_exact_witness :
  exists c e,
    monthly_amount (sample_sponsor "The Octocat") = Finite false c e /\
    -2 <= e <= 0 /\ (c * Dec.pow10 (e + 2))%N = 1000%N.
Proof.
  destruct (github_cents_exact utc_machine sample_thresholds (named_node "The Octocat")
              (sample_sponsor "The Octocat") 1000 eq_refl eq_refl eq_refl)
    as [c [e [Ha [He [Hv _]]]]].
  exists c, e. auto.
Defined.

(** ** The ranked list as a function of its records *)

Lemma key_lt_irrefl (a : Sponsor) : key_lt a a = false.
Proof. unfold key_lt. now rewrite (cmp_refl sort_key_compare). Qed.

Lemma key_lt_asym (a b : Sponsor) : key_lt a b = true -> key_lt b a = false.
Proof.
  unfold key_lt. rewrite (cmp_antisym sort_key_compare (sort_key a) (sort_key b)).
  destruct (sort_key_compare _ _); simpl; congruence.
Qed.

(** Two strictly sorted lists with the same elements are the same list. *)
Lemma strictly_sorted_unique (l1 l2 : list Sponsor) :
  StronglySorted (fun a b => key_lt a b = true) l1 ->
  StronglySorted (fun a b => key_lt a b = true) l2 ->
  (forall x, In x l1 <-> In x l2) -> l1 = l2.
Proof.
  intros H1. revert l2. induction H1 as [| a l1 Hs1 IH Ha]; intros l2 H2 Hin.
  - destruct l2 as [| b l2]; [reflexivity |].
    destruct (proj2 (Hin b) (or_introl eq_refl)).
  - destruct H2 as [| b l2 Hs2 Hb].
    + destruct (proj1 (Hin a) (or_introl eq_refl)).
    + rewrite Forall_forall in Ha, Hb.
      assert (E : a = b).
      { destruct (proj1 (Hin a) (or_introl eq_refl)) as [E | Hal2]; [congruence |].
        destruct (proj2 (Hin b) (or_introl eq_refl)) as [E | Hbl1]; [congruence |].
        pose proof (key_lt_asym _ _ (Ha b Hbl1)) as C. rewrite (Hb a Hal2) in C.
        discriminate C. }
      subst b. f_equal. apply IH; [exact Hs2 |].
      intros x. split; intros Hx.
      * destruct (proj1 (Hin x) (or_intror Hx)) as [E | Hx2]; [| exact Hx2].
        subst x. pose proof (Ha a Hx) as C. rewrite key_lt_irrefl in C. discriminate C.
      * destruct (proj2 (Hin x) (or_intror Hx)) as [E | Hx1]; [| exact Hx1].
        subst x. pose proof (Hb a Hx) as C. rewrite key_lt_irrefl in C. discriminate C.
Qed.

Lemma sort_and_dedupe_strict (l : list Sponsor) :
  StronglySorted (fun a b => key_lt a b = true) (sort_and_dedupe l).
Proof.
  apply sorted_strict; [apply sorted_ordered | apply sort_and_dedupe_nodup].
Qed.


Lemma find_last_distinct (l : list Sponsor) (s : Sponsor) :
  NoDup (List.map identity l) ->
  (find_last (identity s) l = Some s <-> In s l).
Proof.
  intros Hn. split; [apply find_last_in |].
  induction l as [| x rest IH]; [intros [] |].
  simpl in Hn. inversion Hn as [| ? ? Hx Hr]; subst.
  intros [-> | Hin]; simpl.
  - destruct (find_last (identity s) rest) as [y |] eqn:E.
    + exfalso. apply Hx. rewrite <- (find_last_identity _ _ _ E).
      apply in_map. eapply find_last_in, E.
    + now rewrite identity_eqb_refl.
  - now rewrite (IH Hr Hin).
Qed.

(** X14.  Ranking a ranked list changes nothing. *)
Theorem sort_and_dedupe_idempotent (sponsors : list Sponsor) :
  sort_and_dedupe (sort_and_dedupe sponsors) = sort_and_dedupe sponsors.
Proof.
  apply strictly_sorted_unique; try apply sort_and_dedupe_strict.
  intros x. rewrite sort_and_dedupe_in.
  apply find_last_distinct, sort_and_dedupe_nodup.
Qed.







(** ** The tier lists *)

Lemma filter_split {A : Type} (p : A -> bool) (l f1 f2 : list A) (s : A) :
  filter p l = (f1 ++ s :: f2)%list ->
  exists l1 l2, l = (l1 ++ s :: l2)%list /\ filter p l2 = f2 /\ p s = true.
Proof.
  revert f1. induction l as [| x rest IH]; intros f1 H; simpl in H.
  - destruct f1; discriminate.
  - destruct (p x) eqn:E.
    + destruct f1 as [| y f1]; simpl in H.
      * injection H as -> <-. exists [], rest. auto.
      * injection H as -> H. destruct (IH _ H) as [l1 [l2 [-> [Hf Hp]]]].
        exists (y :: l1), l2. auto.
    + destruct (IH _ H) as [l1 [l2 [-> [Hf Hp]]]].
      exists (x :: l1), l2. auto.
Qed.

(** X17.  The list of a tier holds a record exactly when the record has
    that tier and no later record of the input has both its identity and
    that tier; so an identity that has records of a tier is in the list of
    that tier, whatever its other records are. *)
Theorem with_tier_last_of_tier (t : string) (sponsors : list Sponsor) :
  (forall s,
     In s (with_tier t sponsors) <->
     tier s = t /\
     exists l1 l2,
       sponsors = (l1 ++ s :: l2)%list /\
       Forall (fun x => identity x = identity s -> tier x <> t) l2) /\
  (forall x, In x sponsors -> tier x = t ->
     exists s, In s (with_tier t sponsors) /\ identity s = identity x).
Proof.
  split.
  - intros s. unfold with_tier. rewrite sort_and_dedupe_in, find_last_spec.
    unfold last_of_identity. split.
    + intros [f1 [f2 [Hf Hl]]].
      destruct (filter_split _ _ _ _ _ Hf) as [l1 [l2 [-> [Hf2 Hp]]]].
      apply String.eqb_eq in Hp. split; [exact Hp |].
      exists l1, l2. split; [reflexivity |].
      rewrite Forall_forall in *. intros x Hx Hid Ht.
      apply (Hl x); [| exact Hid].
      rewrite <- Hf2. apply filter_In. split; [exact Hx | now apply String.eqb_eq].
    + intros [Ht [l1 [l2 [-> Hl]]]].
      exists (filter (fun sponsor => String.eqb (tier sponsor) t) l1),
             (filter (fun sponsor => String.eqb (tier sponsor) t) l2).
      split.
      * rewrite filter_app. cbn [filter].
        apply String.eqb_eq in Ht. now rewrite Ht.
      * rewrite Forall_forall in *. intros x Hx Hid.
        apply filter_In in Hx as [Hx Hp]. apply String.eqb_eq in Hp.
        exact (Hl x Hx Hid Hp).
  - intros x Hx Ht. unfold with_tier.
    set (l := filter (fun sponsor => String.eqb (tier sponsor) t) sponsors).
    assert (Hin : In x l).
    { apply filter_In. split; [exact Hx | now apply String.eqb_eq]. }
    destruct (find_last (identity x) l) as [s |] eqn:E.
    + pose proof (find_last_identity _ _ _ E) as Hid.
      exists s. split; [| exact Hid].
      apply sort_and_dedupe_in. now rewrite Hid.
    + apply find_last_none in E. rewrite Forall_forall in E.
      now destruct (E x Hin).
Qed.




(** ** Escaping *)

Lemma count_app (x : ascii) (a b : string) :
  count x (a ++ b) = (count x a + count x b)%nat.
Proof. induction a as [| c a IH]; simpl; [reflexivity | rewrite IH; lia]. Qed.

Lemma escape_count (x : ascii) (s : string) :
  markup x = true -> count x (Html.escape s) = O.
Proof.
  intros Hx. induction s as [| c r IH]; [reflexivity |].
  cbn [Html.escape]. rewrite count_app, IH, Nat.add_0_r.
  unfold markup in Hx. rewrite !orb_true_iff in Hx.
  repeat match goal with
         | |- context [if Ascii.eqb c ?y then _ else _] =>
             destruct (Ascii.eqb_spec c y) as [-> | ?]
         end;
    try (destruct Hx as [[[Hx | Hx] | Hx] | Hx]; apply Ascii.eqb_eq in Hx; subst x;
         reflexivity).
  cbn [count]. destruct (Ascii.eqb_spec c x) as [-> | _]; [| reflexivity].
  exfalso. destruct Hx as [[[Hx | Hx] | Hx] | Hx]; apply Ascii.eqb_eq in Hx; congruence.
Qed.

(** X18.  Whatever a sponsor's URLs and name contain, its fragment has
    exactly the eight double quotes of its four attributes and the three
    opening and three closing angle brackets of its tags, and no single
    quote, besides what the width holds. *)
Theorem render_sponsor_wellformed (sponsor : Sponsor) (width : string) :
  count Html.dquote (render_sponsor sponsor width) = (8 + count Html.dquote width)%nat /\
  count "<" (render_sponsor sponsor width) = (3 + count "<" width)%nat /\
  count ">" (render_sponsor sponsor width) = (3 + count ">" width)%nat /\
  count "'" (render_sponsor sponsor width) = count "'" width.
Proof.
  unfold render_sponsor, quoted.
  repeat split; rewrite ?count_app; cbn [count append];
    rewrite ?count_app, ?escape_count by reflexivity; cbn [count];
    repeat match goal with
           | |- context [Ascii.eqb ?a ?b] =>
               let v := eval vm_compute in (Ascii.eqb a b) in
               change (Ascii.eqb a b) with v
           end; cbv iota; lia.
Qed.

Lemma render_all_app (a b : list Sponsor) (width : string) :
  render_all (a ++ b) width = render_all a width ++ render_all b width.
Proof.
  unfold render_all.
  induction a as [| x a IH]; cbn [app List.map Str.concat append]; [reflexivity |].
  rewrite IH. symmetry. apply append_assoc.
Qed.

(** ** Percent-encoding *)

Lemma hex_digit_safe (n : N) : (n < 16)%N -> Url.always_safe (Url.hex_digit n) = true.
Proof. apply (below_bound 16 (fun n => Url.always_safe (Url.hex_digit n))). reflexivity. Qed.

Lemma code_bound (c : ascii) : (Str.code c < 256)%N.
Proof. apply N_ascii_bounded. Qed.

Lemma quote_length (s : string) : (String.length s <= String.length (Url.quote s))%nat.
Proof.
  induction s as [| c r IH]; [reflexivity |].
  cbn [Url.quote]. destruct (Url.always_safe c || Ascii.eqb c "/"); simpl; lia.
Qed.


Lemma escape_plain (s : string) : Str.forallb plain s = true -> Html.escape s = s.
Proof.
  induction s as [| c r IH]; [reflexivity |].
  cbn [Str.forallb Html.escape]. intros H. apply andb_true_iff in H as [Hc Hr].
  rewrite (IH Hr). unfold plain, markup in Hc.
  apply negb_true_iff in Hc. rewrite !orb_false_iff in Hc.
  destruct Hc as [-> [[[-> ->] ->] ->]]. reflexivity.
Qed.

Lemma url_safe_plain (c : ascii) :
  url_safe c || Ascii.eqb c "%" = true -> plain c = true.
Proof.
  unfold url_safe, Url.always_safe, Str.isalpha, Str.isupper, Str.islower, Str.isdigit,
    Str.in_range, Str.code, plain, markup.
  intros H. apply negb_true_iff. rewrite !orb_false_iff, !Ascii.eqb_neq.
  repeat split; intros ->; discriminate H.
Qed.

Lemma forallb_impl (p q : ascii -> bool) (s : string) :
  (forall c, p c = true -> q c = true) ->
  Str.forallb p s = true -> Str.forallb q s = true.
Proof.
  intros Hpq. induction s as [| c r IH]; [reflexivity |].
  cbn [Str.forallb]. rewrite !andb_true_iff. intros [Hc Hr]. auto.
Qed.

(** X19.  [quote] yields only letters, digits, [_.-~/] and [%]; it leaves
    a text unchanged exactly when the text has only the first five kinds;
    and [html.escape] leaves its result unchanged. *)
Theorem quote_safe (s : string) :
  Str.forallb (fun c => url_safe c || Ascii.eqb c "%") (Url.quote s) = true /\
  (Url.quote s = s <-> Str.forallb url_safe s = true) /\
  Html.escape (Url.quote s) = Url.quote s.
Proof.
  assert (H1 : Str.forallb (fun c => url_safe c || Ascii.eqb c "%") (Url.quote s) = true).
  { induction s as [| c r IH]; [reflexivity |].
    cbn [Url.quote]. fold (url_safe c). destruct (url_safe c) eqn:E.
    - cbn [Str.forallb]. now rewrite E, IH.
    - cbn [Str.forallb]. rewrite IH.
      pose proof (code_bound c) as Hb.
      unfold url_safe at 2 3.
      rewrite !hex_digit_safe; [reflexivity | |].
      + apply N.mod_lt. discriminate.
      + apply N.Div0.div_lt_upper_bound. exact Hb. }
  split; [exact H1 |]. split.
  - clear H1. induction s as [| c r IH]; [split; reflexivity |].
    cbn [Url.quote Str.forallb]. fold (url_safe c). destruct (url_safe c) eqn:E.
    + cbn [andb]. rewrite <- IH. split; [intros H; injection H; auto | congruence].
    + cbn [andb]. split; [| discriminate]. intros H. injection H as Hc Hr.
      pose proof (quote_length r) as L. rewrite <- Hr in L at 1. simpl in L. lia.
  - apply escape_plain. eapply forallb_impl; [| exact H1]. apply url_safe_plain.
Qed.

(** ** Dates *)









Lemma span_sign (p : ascii -> bool) (a a1 : string) (c : ascii) (a2 : string) :
  Str.span p a = (a1, String c a2) -> p c = false.
Proof.
  revert a1. induction a as [| x a IH]; intros a1; cbn [Str.span]; [discriminate |].
  destruct (p x) eqn:E.
  - destruct (Str.span p a) as [u v]. intros H. injection H as <- ->. eapply IH. reflexivity.
  - intros H. injection H as <- <- <-. exact E.
Qed.







(** ** The calendar *)




Lemma days_in_place (leapyear : bool) (n : Z) :
  0 <= n < 365 -> day_in_place leapyear n = true.
Proof.
  intros Hn.
  assert (H : forallb (day_in_place leapyear) days_of_year = true)
    by (destruct leapyear; vm_compute; reflexivity).
  rewrite forallb_forall in H. apply H.
  unfold days_of_year. apply in_map_iff. exists (Z.to_nat n). split; [lia |].
  apply in_seq. lia.
Qed.

Lemma days_before_year_spec (a b c d : Z) :
  0 <= a -> 0 <= b <= 3 -> 0 <= c <= 24 -> 0 <= d <= 3 ->
  DT._days_before_year (400 * a + 100 * b + 4 * c + d + 1)
  = 146097 * a + 36524 * b + 1461 * c + 365 * d.
Proof.
  intros Ha Hb Hc Hd. unfold DT._days_before_year.
  replace (400 * a + 100 * b + 4 * c + d + 1 - 1) with (400 * a + 100 * b + 4 * c + d)
    by lia.
  assert (E4 : (400 * a + 100 * b + 4 * c + d) / 4 = 100 * a + 25 * b + c)
    by (symmetry; apply (Z.div_unique _ _ _ d); lia).
  assert (E100 : (400 * a + 100 * b + 4 * c + d) / 100 = 4 * a + b)
    by (symmetry; apply (Z.div_unique _ _ _ (4 * c + d)); lia).
  assert (E400 : (400 * a + 100 * b + 4 * c + d) / 400 = a)
    by (symmetry; apply (Z.div_unique _ _ _ (100 * b + 4 * c + d)); lia).
  rewrite E4, E100, E400. lia.
Qed.

Lemma is_leap_spec (a b c d : Z) :
  0 <= a -> 0 <= b <= 3 -> 0 <= c <= 24 -> 0 <= d <= 3 ->
  DT._is_leap (400 * a + 100 * b + 4 * c + d + 1)
  = (d =? 3) && (negb (c =? 24) || (b =? 3)).
Proof.
  intros Ha Hb Hc Hd. unfold DT._is_leap.
  set (y := 400 * a + 100 * b + 4 * c + d + 1).
  assert (M4 : y mod 4 = (d + 1) mod 4).
  { unfold y. replace (400 * a + 100 * b + 4 * c + d + 1)
      with ((d + 1) + (100 * a + 25 * b + c) * 4) by lia.
    apply Z.mod_add. lia. }
  assert (M100 : y mod 100 = (4 * c + d + 1) mod 100).
  { unfold y. replace (400 * a + 100 * b + 4 * c + d + 1)
      with ((4 * c + d + 1) + (4 * a + b) * 100) by lia.
    apply Z.mod_add. lia. }
  assert (M400 : y mod 400 = (100 * b + 4 * c + d + 1) mod 400).
  { unfold y. replace (400 * a + 100 * b + 4 * c + d + 1)
      with ((100 * b + 4 * c + d + 1) + a * 400) by lia.
    apply Z.mod_add. lia. }
  rewrite M4, M100, M400.
  destruct (Z.eqb_spec d 3) as [-> | Hd3].
  - change ((3 + 1) mod 4 =? 0) with true. cbn [andb].
    destruct (Z.eqb_spec c 24) as [-> | Hc24].
    + change ((4 * 24 + 3 + 1) mod 100 =? 0) with true. cbn [negb orb].
      replace (100 * b + 4 * 24 + 3 + 1) with (100 * (b + 1)) by lia.
      destruct (Z.eqb_spec b 3) as [-> | Hb3]; [reflexivity |].
      apply Z.eqb_neq. intros E.
      assert (b = 0 \/ b = 1 \/ b = 2) as [-> | [-> | ->]] by lia; discriminate E.
    + cbn [negb orb]. rewrite Z.mod_small by lia.
      replace (4 * c + 3 + 1 =? 0) with false by (symmetry; apply Z.eqb_neq; lia).
      reflexivity.
  - replace ((d + 1) mod 4 =? 0) with false; [reflexivity |].
    symmetry. apply Z.eqb_neq. rewrite Z.mod_small by lia. lia.
Qed.

Lemma month_and_day_spec (leapyear : bool) (n : Z) :
  0 <= n < 365 ->
  let (m, d) := month_and_day leapyear n in
  1 <= m <= 12 /\ 1 <= d /\
  d <= (if (m =? 2) && leapyear then 29 else DT._DAYS_IN_MONTH m) /\
  DT._DAYS_BEFORE_MONTH m + (if (2 <? m) && leapyear then 1 else 0) + d = n + 1.
Proof.
  intros Hn. pose proof (days_in_place leapyear n Hn) as H. unfold day_in_place in H.
  destruct (month_and_day leapyear n) as [m d].
  rewrite !andb_true_iff in H. destruct H as [[[[H1 H2] H3] H4] H5].
  apply Z.leb_le in H1, H2, H3, H4. apply Z.eqb_eq in H5. auto.
Qed.

(** [_ord2ymd] is the inverse of [_ymd2ord] on the ordinals of the years
    1 to 9999, and the date it gives exists. *)
Lemma ord2ymd_spec (n : Z) :
  1 <= n <= DT._MAXORDINAL ->
  let '(y, m, d) := DT._ord2ymd n in
  DT._ymd2ord y m d = n /\
  DT.MINYEAR <= y <= DT.MAXYEAR /\ 1 <= m <= 12 /\ 1 <= d <= DT._days_in_month y m.
Proof.
  unfold DT._MAXORDINAL, DT.MINYEAR, DT.MAXYEAR. intros Hn.
  unfold DT._ord2ymd, DT._DI400Y, DT._DI100Y, DT._DI4Y. cbv zeta.
  pose proof (Z.div_mod (n - 1) 146097 ltac:(lia)) as E400.
  pose proof (Z.mod_pos_bound (n - 1) 146097 ltac:(lia)) as B400.
  set (a := (n - 1) / 146097) in *. set (r400 := (n - 1) mod 146097) in *.
  pose proof (Z.div_mod r400 36524 ltac:(lia)) as E100.
  pose proof (Z.mod_pos_bound r400 36524 ltac:(lia)) as B100.
  set (b := r400 / 36524) in *. set (r100 := r400 mod 36524) in *.
  pose proof (Z.div_mod r100 1461 ltac:(lia)) as E4.
  pose proof (Z.mod_pos_bound r100 1461 ltac:(lia)) as B4.
  set (c := r100 / 1461) in *. set (r4 := r100 mod 1461) in *.
  pose proof (Z.div_mod r4 365 ltac:(lia)) as E1.
  pose proof (Z.mod_pos_bound r4 365 ltac:(lia)) as B1.
  set (d1 := r4 / 365) in *. set (r1 := r4 mod 365) in *.
  clearbody a r400 b r100 c r4 d1 r1.
  assert (Ha : 0 <= a <= 24) by lia.
  assert (Hb : 0 <= b <= 4) by lia.
  assert (Hc : 0 <= c <= 24) by lia.
  assert (Hd : 0 <= d1 <= 4) by lia.
  replace (a * 400 + 1 + b * 100 + c * 4 + d1)
    with (400 * a + 100 * b + 4 * c + d1 + 1) by lia.
  destruct (Z.eqb_spec d1 4) as [-> | Hd4]; cbn [orb].
  - (* the last day of a leap year that is no century *)
    assert (Hc23 : c <= 23) by lia. assert (Hb3 : b <= 3) by lia.
    assert (r1 = 0) by lia. subst r1.
    replace (400 * a + 100 * b + 4 * c + 4 + 1 - 1)
      with (400 * a + 100 * b + 4 * c + 3 + 1) by lia.
    unfold DT._ymd2ord, DT._days_in_month, DT._days_before_month.
    rewrite days_before_year_spec, is_leap_spec by lia.
    change (DT._DAYS_BEFORE_MONTH 12) with 334. change (DT._DAYS_IN_MONTH 12) with 31.
    change (3 =? 3) with true. change (2 <? 12) with true. change (12 =? 2) with false.
    replace (c =? 24) with false by (symmetry; apply Z.eqb_neq; lia).
    cbn [andb negb orb]. lia.
  - destruct (Z.eqb_spec b 4) as [-> | Hb4]; cbn [orb].
    + (* the last day of a year that is a multiple of 400 *)
      assert (r100 = 0 /\ c = 0 /\ d1 = 0 /\ r1 = 0) as [-> [-> [-> ->]]] by lia.
      replace (400 * a + 100 * 4 + 4 * 0 + 0 + 1 - 1)
        with (400 * a + 100 * 3 + 4 * 24 + 3 + 1) by lia.
      unfold DT._ymd2ord, DT._days_in_month, DT._days_before_month.
      rewrite days_before_year_spec, is_leap_spec by lia.
      change (DT._DAYS_BEFORE_MONTH 12) with 334. change (DT._DAYS_IN_MONTH 12) with 31.
      cbn [andb negb orb Z.eqb Pos.eqb Z.ltb Z.compare Pos.compare Pos.compare_cont].
      lia.
    + assert (Hb3 : b <= 3) by lia. assert (Hd3 : d1 <= 3) by lia.
      set (leapyear := (d1 =? 3) && (negb (c =? 24) || (b =? 3))).
      pose proof (month_and_day_spec leapyear r1 B1) as M.
      unfold month_and_day in M. cbv zeta in M.
      set (m0 := Z.shiftr (r1 + 50) 5) in *.
      set (p0 := DT._DAYS_BEFORE_MONTH m0 + (if (2 <? m0) && leapyear then 1 else 0)) in *.
      assert (Hy : DT._ymd2ord (400 * a + 100 * b + 4 * c + d1 + 1) = fun m d =>
                   146097 * a + 36524 * b + 1461 * c + 365 * d1
                   + (DT._DAYS_BEFORE_MONTH m + (if (2 <? m) && leapyear then 1 else 0))
                   + d).
      { unfold DT._ymd2ord, DT._days_before_month.
        rewrite days_before_year_spec, is_leap_spec by lia. reflexivity. }
      assert (Hm : DT._days_in_month (400 * a + 100 * b + 4 * c + d1 + 1) = fun m =>
                   if (m =? 2) && leapyear then 29 else DT._DAYS_IN_MONTH m).
      { unfold DT._days_in_month. rewrite is_leap_spec by lia. reflexivity. }
      destruct (r1 <? p0); rewrite Hy, Hm; lia.
Qed.



Lemma of_utc_micros_spec (t : Z) :
  (representable t ->
   exists u, DT.of_utc_micros t = Ok u /\
             utcoffset u = Some 0 /\ DT.field_micros u = t /\ valid u) /\
  (~ representable t -> DT.of_utc_micros t = Raise OverflowError).
Proof.
  unfold representable, DT.of_utc_micros, DT.US_PER_DAY, DT.US_PER_SECOND, DT._MAXORDINAL.
  pose proof (Z.div_mod t (86400 * 1000000) ltac:(lia)) as Et.
  pose proof (Z.mod_pos_bound t (86400 * 1000000) ltac:(lia)) as Bt.
  set (q := t / (86400 * 1000000)) in *. set (rest := t mod (86400 * 1000000)) in *.
  clearbody q rest. split.
  - intros Ht.
    assert (Hq : 1 <= q + 1 <= 3652059) by lia.
    destruct (Z.leb_spec 1 (q + 1)) as [_ |]; [| lia].
    destruct (Z.leb_spec (q + 1) 3652059) as [_ |]; [| lia]. cbn [andb].
    pose proof (ord2ymd_spec (q + 1) Hq) as Ho.
    destruct (DT._ord2ymd (q + 1)) as [[y m] dd].
    destruct Ho as [Eo [Hy [Hm Hd]]].
    eexists. split; [reflexivity |].
    pose proof (Z.div_mod rest 1000000 ltac:(lia)) as Er.
    pose proof (Z.mod_pos_bound rest 1000000 ltac:(lia)) as Br.
    set (secs := rest / 1000000) in *. set (us := rest mod 1000000) in *.
    pose proof (Z.div_mod secs 3600 ltac:(lia)) as E1.
    pose proof (Z.mod_pos_bound secs 3600 ltac:(lia)) as B1.
    pose proof (Z.div_mod secs 60 ltac:(lia)) as E2.
    pose proof (Z.mod_pos_bound secs 60 ltac:(lia)) as B2.
    pose proof (Z.div_mod (secs / 60) 60 ltac:(lia)) as E3.
    pose proof (Z.mod_pos_bound (secs / 60) 60 ltac:(lia)) as B3.
    assert (E4 : secs / 60 / 60 = secs / 3600) by (rewrite Z.div_div by lia; reflexivity).
    set (hh := secs / 3600) in *. set (m60 := secs / 60) in *.
    set (mm := m60 mod 60) in *. set (ss := secs mod 60) in *.
    clearbody secs us hh m60 mm ss.
    split; [reflexivity |]. split.
    + unfold DT.field_micros, DT.US_PER_DAY, DT.US_PER_SECOND.
      cbn [year month day hour minute second microsecond]. rewrite Eo. lia.
    + unfold valid, DT.valid_fields, DT.MINYEAR, DT.MAXYEAR in *.
      cbn [year month day hour minute second microsecond].
      rewrite !andb_true_iff, !Z.leb_le. lia.
  - intros Ht.
    destruct (Z.leb_spec 1 (q + 1)); [| reflexivity].
    destruct (Z.leb_spec (q + 1) 3652059); [| reflexivity]. lia.
Qed.

(** X21.  For a timestamp with a UTC offset, [parse_started_at] returns
    the same instant with offset zero and fields that make a valid
    datetime when the instant lies in the years 1 to 9999, and raises
    [OverflowError] when it does not. *)
Theorem parse_started_at_same_instant l2u (value : string) (d : datetime) (off : Z) :
  Str.truthy (Str.strip value) = true ->
  DT.fromisoformat (Str.replace "Z" "+00:00" (Str.strip value)) = Ok d ->
  utcoffset d = Some off ->
  (representable (DT.utc_micros d) ->
   exists u, parse_started_at l2u value false = Ok (Some u) /\
             utcoffset u = Some 0 /\ DT.utc_micros u = DT.utc_micros d /\ valid u) /\
  (~ representable (DT.utc_micros d) ->
   parse_started_at l2u value false = Raise OverflowError).
Proof.
  intros Ht Hd Ho. unfold parse_started_at. rewrite Ht, Hd. cbn [negb bind].
  unfold DT.astimezone_utc, DT.utc_micros. rewrite Ho.
  destruct (of_utc_micros_spec (DT.field_micros d - off)) as [H1 H2]. split.
  - intros Hr. destruct (H1 Hr) as [u [-> [Hu [Hf Hv]]]].
    exists u. cbn [bind Py.try_except]. rewrite Hu, Hf.
    repeat split; [lia | exact Hv].
  - intros Hr. rewrite (H2 Hr). reflexivity.
Qed.

Lemma parse_started_at_same_instant_witness :
  exists u, parse_started_at utc_machine "2024-03-01T12:00:00+02:00" false = Ok (Some u) /\
            utcoffset u = Some 0 /\ hour u = 10.
Proof.
  destruct (parse_started_at_same_instant utc_machine "2024-03-01T12:00:00+02:00"
              {| year := 2024; month := 3; day := 1; hour := 12; minute := 0; second := 0;
                 microsecond := 0; utcoffset := Some 7200000000 |} 7200000000
              eq_refl eq_refl eq_refl) as [H _].
  destruct H as [u [Hu [Ho _]]]; [vm_compute; split; [discriminate | reflexivity] |].
  exists u. split; [exact Hu |]. split; [exact Ho |].
  vm_compute in Hu. injection Hu as <-. reflexivity.
Defined.

(** * Properties of a run *)

(** ** The Liberapay export *)

(** *** The reader on a written record *)

Lemma add_char_within (s : Csv.state) (c : ascii) (r : Csv.reader) :
  (Csv.field_len r < Csv.field_limit)%N ->
  exists n, (n <= Csv.field_len r + 1)%N /\
            Csv.parse_add_char s c r
            = Return {| Csv.st := s; Csv.field := Csv.field r ++ String c EmptyString;
                        Csv.field_len := n; Csv.fields := Csv.fields r |}.
Proof.
  intros Hl. unfold Csv.parse_add_char. destruct (Csv.continuation c).
  - eexists. split; [| reflexivity]. lia.
  - destruct (N.leb_spec Csv.field_limit (Csv.field_len r)); [lia |].
    eexists. split; [| reflexivity]. lia.
Qed.

Lemma unquoted_spec (c : ascii) :
  unquoted c = true ->
  Ascii.eqb c "," = false /\ Ascii.eqb c Html.dquote = false /\
  Csv.is_newline c = false /\ Ascii.eqb c Csv.linefeed = false.
Proof.
  unfold unquoted, Csv.is_newline. intros H. apply negb_true_iff in H.
  rewrite !orb_false_iff in H. destruct H as [[H1 H2] [H3 H4]].
  now rewrite H1, H2, H3, H4.
Qed.

(** The characters of a field that needs no quotes, taken one by one. *)
Lemma read_plain_field (f : string) :
  forall (rest : string) (b : bool) (r : Csv.reader),
    Str.forallb unquoted f = true ->
    Csv.st r = Csv.START_RECORD \/ Csv.st r = Csv.START_FIELD \/ Csv.st r = Csv.IN_FIELD ->
    (Csv.field_len r + N.of_nat (String.length f) <= Csv.field_limit)%N ->
    f <> EmptyString ->
    exists n,
      Csv.records (f ++ rest) b r
      = Csv.records rest true
          {| Csv.st := Csv.IN_FIELD; Csv.field := Csv.field r ++ f;
             Csv.field_len := n; Csv.fields := Csv.fields r |}.
Proof.
  induction f as [| c f IH]; intros rest b r Hf Hr Hl Hne; [congruence |].
  cbn [Str.forallb] in Hf. apply andb_true_iff in Hf as [Hc Hf].
  destruct (unquoted_spec c Hc) as [H1 [H2 [H3 H4]]].
  cbn [String.length] in Hl.
  destruct (add_char_within Csv.IN_FIELD c r) as [n [Hn E]]; [lia |].
  assert (P : Csv.parse_process_char (Some c) r = Csv.parse_add_char Csv.IN_FIELD c r).
  { unfold Csv.parse_process_char, Csv.start_field.
    destruct Hr as [-> | [-> | ->]]; now rewrite ?H1, ?H2, ?H3. }
  cbn [append Csv.records]. rewrite P, E, H4.
  destruct f as [| c' f'].
  - exists n. reflexivity.
  - destruct (IH rest true
                {| Csv.st := Csv.IN_FIELD; Csv.field := Csv.field r ++ String c EmptyString;
                   Csv.field_len := n; Csv.fields := Csv.fields r |} Hf)
      as [n' E']; [auto | cbn [Csv.field_len String.length] in *; lia | discriminate |].
    exists n'. rewrite E'. cbn [Csv.field Csv.fields]. now rewrite append_assoc.
Qed.

(** The characters between the quotes, taken one by one: a doubled quote
    is one quote of the field, and a line feed does not end the record. *)
Lemma read_doubled (f : string) :
  forall (rest : string) (b : bool) (r : Csv.reader),
    Csv.st r = Csv.IN_QUOTED_FIELD ->
    (Csv.field_len r + N.of_nat (String.length f) <= Csv.field_limit)%N ->
    exists n b',
      Csv.records (doubled f ++ rest) b r
      = Csv.records rest b'
          {| Csv.st := Csv.IN_QUOTED_FIELD; Csv.field := Csv.field r ++ f;
             Csv.field_len := n; Csv.fields := Csv.fields r |}.
Proof.
  induction f as [| c f IH]; intros rest b r Hr Hl.
  - exists (Csv.field_len r), b. cbn [doubled append]. rewrite append_nil_r.
    destruct r. cbn in *. now subst.
  - cbn [String.length] in Hl.
    destruct (add_char_within Csv.IN_QUOTED_FIELD c r) as [n [Hn E]]; [lia |].
    set (r' := {| Csv.st := Csv.IN_QUOTED_FIELD;
                  Csv.field := Csv.field r ++ String c EmptyString;
                  Csv.field_len := n; Csv.fields := Csv.fields r |}) in *.
    assert (Hl' : (Csv.field_len r' + N.of_nat (String.length f) <= Csv.field_limit)%N)
      by (cbn [Csv.field_len r']; lia).
    assert (Q : forall b0, exists n' b',
               Csv.records (doubled f ++ rest) b0 r'
               = Csv.records rest b'
                   {| Csv.st := Csv.IN_QUOTED_FIELD; Csv.field := Csv.field r ++ String c f;
                      Csv.field_len := n'; Csv.fields := Csv.fields r |}).
    { intros b0. destruct (IH rest b0 r' eq_refl Hl') as [n' [b' E']].
      exists n', b'. rewrite E'. cbn [Csv.field Csv.fields r'].
      now rewrite append_assoc. }
    cbn [doubled]. destruct (Ascii.eqb_spec c Html.dquote) as [-> | Hq].
    + (* a quote of the field, written twice *)
      cbn [append Csv.records].
      unfold Csv.parse_process_char at 1. rewrite Hr. cbn [Ascii.eqb Html.dquote].
      change (Ascii.eqb Html.dquote Html.dquote) with true. cbv iota.
      change (Ascii.eqb Html.dquote Csv.linefeed) with false. cbv iota.
      unfold Csv.parse_process_char at 1. cbn [Csv.set_state Csv.st].
      change (Ascii.eqb Html.dquote Html.dquote) with true. cbv iota.
      change (Csv.parse_add_char Csv.IN_QUOTED_FIELD Html.dquote
                (Csv.set_state Csv.QUOTE_IN_QUOTED_FIELD r))
        with (Csv.parse_add_char Csv.IN_QUOTED_FIELD Html.dquote r).
      rewrite E. apply Q.
    + cbn [append Csv.records].
      unfold Csv.parse_process_char at 1. rewrite Hr.
      destruct (Ascii.eqb c Html.dquote) eqn:Eq;
        [apply Ascii.eqb_eq in Eq; contradiction |].
      rewrite E. destruct (Ascii.eqb c Csv.linefeed).
      * unfold Csv.parse_process_char, Csv.after_line. cbn [Csv.st r']. apply Q.
      * apply Q.
Qed.

(** A field between quotes, from its opening quote to its closing one. *)
Lemma read_quoted (f rest : string) (b : bool) (s : Csv.state) (done : list string) :
  s = Csv.START_RECORD \/ s = Csv.START_FIELD ->
  within_limit f ->
  exists n,
    Csv.records (in_quotes f ++ rest) b (at_field s done)
    = Csv.records rest true
        {| Csv.st := Csv.QUOTE_IN_QUOTED_FIELD; Csv.field := f; Csv.field_len := n;
           Csv.fields := done |}.
Proof.
  intros Hs Hl. unfold in_quotes. cbn [append Csv.records].
  assert (P : Csv.parse_process_char (Some Html.dquote) (at_field s done)
              = Return (at_field Csv.IN_QUOTED_FIELD done)).
  { destruct Hs as [-> | ->]; reflexivity. }
  rewrite P. change (Ascii.eqb Html.dquote Csv.linefeed) with false. cbv iota.
  rewrite append_assoc.
  destruct (read_doubled f (String Html.dquote EmptyString ++ rest) true
              (at_field Csv.IN_QUOTED_FIELD done) eq_refl) as [n [b' E]];
    [exact Hl |].
  rewrite E. cbn [at_field Csv.field Csv.fields append Csv.records].
  exists n. unfold Csv.parse_process_char at 1. cbn [Csv.st].
  change (Ascii.eqb Html.dquote Html.dquote) with true. cbv iota.
  change (Ascii.eqb Html.dquote Csv.linefeed) with false. reflexivity.
Qed.

Lemma read_written (f rest : string) (b : bool) (s : Csv.state) (done : list string) :
  s = Csv.START_RECORD \/ s = Csv.START_FIELD ->
  within_limit f ->
  exists r b',
    Csv.records (written f ++ rest) b (at_field s done) = Csv.records rest b' r /\
    Csv.field r = f /\ Csv.fields r = done /\ after_field s f r.
Proof.
  intros Hs Hl. unfold written. destruct (Str.forallb unquoted f) eqn:Hf.
  - destruct f as [| c f'].
    + exists (at_field s done), b. repeat split. right. right. now split.
    + destruct (read_plain_field (String c f') rest b (at_field s done) Hf) as [n E].
      * destruct Hs as [-> | ->]; auto.
      * exact Hl.
      * discriminate.
      * eexists _, true. split; [exact E |]. repeat split. now left.
  - destruct (read_quoted f rest b s done Hs Hl) as [n E].
    eexists _, true. split; [exact E |]. repeat split. right. now left.
Qed.

Lemma read_comma (rest : string) (b : bool) (r : Csv.reader) :
  Csv.st r = Csv.START_RECORD \/ Csv.st r = Csv.START_FIELD \/
  Csv.st r = Csv.IN_FIELD \/ Csv.st r = Csv.QUOTE_IN_QUOTED_FIELD ->
  Csv.records (String "," rest) b r
  = Csv.records rest true (at_field Csv.START_FIELD (Csv.fields r ++ [Csv.field r])).
Proof.
  intros Hr. cbn [Csv.records]. unfold Csv.parse_process_char, Csv.start_field.
  destruct Hr as [-> | [-> | [-> | ->]]]; reflexivity.
Qed.

Lemma read_line_end (t rest : string) (b : bool) (r : Csv.reader) :
  line_end t ->
  Csv.st r = Csv.START_FIELD \/ Csv.st r = Csv.IN_FIELD \/
  Csv.st r = Csv.QUOTE_IN_QUOTED_FIELD ->
  Csv.records (t ++ rest) b r
  = (let (more, err) := Csv.records rest false Csv.parse_reset in
     ((Csv.fields r ++ [Csv.field r])%list :: more, err)).
Proof.
  intros [-> | ->] [Hs | [Hs | Hs]]; cbn [append Csv.records];
    unfold Csv.parse_process_char at 1, Csv.start_field; rewrite Hs; reflexivity.
Qed.

Lemma read_record (t : string) (record : list string) :
  line_end t -> Forall within_limit record -> record <> [] ->
  forall (done : list string) (s : Csv.state) (rest : string) (b : bool),
    s = Csv.START_FIELD \/ (s = Csv.START_RECORD /\ record <> [EmptyString]) ->
    Csv.records (join (List.map written record) ++ t ++ rest) b (at_field s done)
    = (let (more, err) := Csv.records rest false Csv.parse_reset in
       ((done ++ record)%list :: more, err)).
Proof.
  intros Ht Hp. induction Hp as [| f fs Hl Hfs IH]; intros Hne done s rest b Hs;
    [congruence |].
  assert (Hs' : s = Csv.START_RECORD \/ s = Csv.START_FIELD)
    by (destruct Hs as [-> | [-> _]]; auto).
  destruct fs as [| f2 fs].
  - (* the last field of the record *)
    cbn [List.map join].
    destruct (read_written f (t ++ rest) b s done Hs' Hl) as [r [b' [E [Hf [Hd Ha]]]]].
    rewrite E, read_line_end; [now rewrite Hf, Hd | exact Ht |].
    destruct Ha as [Ha | [Ha | [-> Ha]]]; auto.
    destruct Hs as [-> | [_ Hx]]; [auto | congruence].
  - (* a field and a comma *)
    change (join (List.map written (f :: f2 :: fs)))
      with (written f ++ "," ++ join (List.map written (f2 :: fs))).
    rewrite !append_assoc. cbn [append].
    destruct (read_written f (String "," (join (List.map written (f2 :: fs)) ++ t ++ rest))
                b s done Hs' Hl) as [r [b' [E [Hf [Hd Ha]]]]].
    rewrite E, read_comma, Hf, Hd.
    + rewrite (IH ltac:(discriminate) (done ++ [f])%list Csv.START_FIELD rest true
                 (or_introl eq_refl)).
      now rewrite <- app_assoc.
    + destruct Ha as [Ha | [Ha | [_ Ha]]]; auto.
      rewrite Ha. destruct Hs' as [-> | ->]; auto.
Qed.

Lemma read_written_record (t : string) (record : list string) (rest : string) :
  line_end t -> writable record ->
  Csv.records (written_record record ++ t ++ rest) false Csv.parse_reset
  = (let (more, err) := Csv.records rest false Csv.parse_reset in (record :: more, err)).
Proof.
  intros Ht [Hne Hl].
  assert (G : record <> [EmptyString] ->
              Csv.records (join (List.map written record) ++ t ++ rest) false
                Csv.parse_reset
              = (let (more, err) := Csv.records rest false Csv.parse_reset in
                 (record :: more, err))).
  { intros Hx.
    exact (read_record t record Ht Hl Hne [] Csv.START_RECORD rest false
             (or_intror (conj eq_refl Hx))). }
  destruct record as [| [| c f] [| f2 fs]]; [congruence | | | |];
    try (apply G; discriminate).
  cbn [written_record].
  destruct (read_quoted EmptyString (t ++ rest) false Csv.START_RECORD []
              (or_introl eq_refl)) as [n E]; [inversion Hl; assumption |].
  change Csv.parse_reset with (at_field Csv.START_RECORD []) at 1.
  rewrite E, read_line_end; [reflexivity | exact Ht | auto].
Qed.

Lemma reader_of_export (t : string) (all : list (list string)) :
  line_end t -> Forall writable all ->
  Csv.reader_of (export t all) = (all, None).
Proof.
  intros Ht Hall. unfold Csv.reader_of.
  induction Hall as [| record rest Hw Hrest IH]; [reflexivity |].
  cbn [export]. rewrite (read_written_record t record (export t rest) Ht Hw), IH.
  reflexivity.
Qed.

(** *** The rows of an export *)

Lemma lookup_put_same (k : string) (v : option string) (d : csv_row) :
  Py.lookup k (Csv.put k v d) = Some v.
Proof.
  induction d as [| [k0 v0] d IH]; cbn [Csv.put Py.lookup].
  - now rewrite String.eqb_refl.
  - destruct (String.eqb k0 k) eqn:E; cbn [Py.lookup]; now rewrite E.
Qed.

Lemma lookup_put_other (k k' : string) (v : option string) (d : csv_row) :
  k' <> k -> Py.lookup k' (Csv.put k v d) = Py.lookup k' d.
Proof.
  intros Hne. induction d as [| [k0 v0] d IH]; cbn [Csv.put Py.lookup].
  - destruct (String.eqb_spec k k'); [congruence | reflexivity].
  - destruct (String.eqb_spec k0 k) as [-> | Hk]; cbn [Py.lookup].
    + destruct (String.eqb_spec k k'); [congruence | reflexivity].
    + destruct (String.eqb k0 k'); [reflexivity | exact IH].
Qed.

Lemma lookup_zip_row_other (names : list string) :
  forall (values : list string) (d : csv_row) (column : string),
    ~ In column names ->
    Py.lookup column (Csv.zip_row names values d) = Py.lookup column d.
Proof.
  induction names as [| name names IH]; intros values d column Hn; [reflexivity |].
  cbn [Csv.zip_row]. destruct values as [| value values];
    (rewrite IH by (intros H; apply Hn; now right));
    apply lookup_put_other; intros ->; apply Hn; now left.
Qed.

Lemma zip_row_columns (fieldnames : list string) :
  NoDup fieldnames ->
  forall (row : list string) (d : csv_row) (name : string),
    (forall value, In (name, value) (combine fieldnames row) ->
       row_get (Csv.zip_row fieldnames row d) name = Some value) /\
    (In name (skipn (List.length row) fieldnames) ->
       row_get (Csv.zip_row fieldnames row d) name = None).
Proof.
  unfold row_get.
  induction 1 as [| n names Hn Hd IH]; intros row d name.
  - split; [intros value [] |]. now rewrite skipn_nil.
  - destruct row as [| v row]; cbn [Csv.zip_row combine skipn List.length].
    + split; [intros value [] |].
      intros [-> | Hin].
      * rewrite lookup_zip_row_other by exact Hn. now rewrite lookup_put_same.
      * destruct (IH [] (Csv.put n None d) name) as [_ H]. apply H. exact Hin.
    + split.
      * intros value [E | Hin].
        -- injection E as -> ->.
           rewrite lookup_zip_row_other by exact Hn. now rewrite lookup_put_same.
        -- destruct (IH row (Csv.put n (Some v) d) name) as [H _]. now apply H.
      * intros Hin. destruct (IH row (Csv.put n (Some v) d) name) as [_ H]. now apply H.
Qed.

(** X22.  An export of records written one per line, the fields separated
    by commas and those that need it between quotes, is read back as it was
    written, whatever characters the fields hold: the first record names
    the columns, [fetch_liberapay_sponsors] passes every other record
    through the body of its loop, in the order of the export, and a row
    gives under the name of a column the field written in that column, and
    nothing under a name the record is too short for. *)
Theorem fetch_liberapay_export l2u (world : Type)
    (fetch_text : string -> list (string * string) -> option string -> world
                  -> outcome string * world)
    (username : string) (thresholds : Thresholds) (w w' : world)
    (t : string) (fieldnames : list string) (rows : list (list string)) :
  line_end t -> writable fieldnames -> Forall writable rows ->
  fetch_text ("https://liberapay.com/" ++ Url.quote username ++ "/patrons/public.csv")
    [] None w
  = (Return (export t (fieldnames :: rows)), w') ->
  fetch_liberapay_sponsors l2u world fetch_text username thresholds w
  = (lift (liberapay_rows l2u thresholds
             (List.map (fun row => Csv.zip_row fieldnames row []) rows)), w') /\
  (NoDup fieldnames ->
   forall row name,
     (forall value, In (name, value) (combine fieldnames row) ->
        row_get (Csv.zip_row fieldnames row []) name = Some value) /\
     (In name (skipn (List.length row) fieldnames) ->
        row_get (Csv.zip_row fieldnames row []) name = None)).
Proof.
  intros Ht Hf Hrows Hfetch. split.
  - unfold fetch_liberapay_sponsors. rewrite Hfetch. cbn [and_then].
    unfold Csv.DictReader.
    rewrite (reader_of_export t (fieldnames :: rows) Ht) by (constructor; assumption).
    assert (E : filter (fun row => negb (Csv.is_blank row)) rows = rows).
    { clear Hfetch. induction Hrows as [| row rows [Hne _] _ IH]; [reflexivity |].
      cbn [filter]. destruct row; [congruence |]. cbn [Csv.is_blank negb]. now rewrite IH. }
    rewrite E. destruct (liberapay_rows _ _ _); reflexivity.
  - intros Hn row name. apply (zip_row_columns fieldnames Hn row [] name).
Qed.

Lemma liberapay_row_class l2u (thresholds : Thresholds) (row : csv_row) (s : Sponsor) :
  liberapay_row l2u thresholds row = Ok (Some s) ->
  platform s = "liberapay" /\
  (currency s = "USD" \/ currency s = "EUR") /\
  exists weekly_amount,
    classified (tier s) weekly_amount
      (liberapay_regular_weekly_minimum thresholds)
      (liberapay_highlighted_weekly_minimum thresholds).
Proof.
  intros H. unfold liberapay_row in H.
  destruct (negb (Str.truthy _)); [discriminate |].
  destruct (existsb _ SUPPORTED_CURRENCIES) eqn:Ec; cbn [negb] in H; [| discriminate].
  destruct (parse_decimal _) as [[w |] | e] eqn:Ew; cbn [bind] in H; try discriminate.
  destruct (parse_started_at _ _ _) as [[d |] | e] eqn:Ed; cbn [bind] in H; try discriminate.
  destruct (Dec.mul w WEEKS_PER_YEAR) as [annual | e] eqn:Em; cbn [bind] in H;
    try discriminate.
  destruct (liberapay_tier w annual thresholds) as [[t |] | e] eqn:Et; cbn [bind] in H;
    try discriminate.
  destruct (Dec.div annual MONTHS_PER_YEAR) as [monthly | e]; cbn [bind] in H;
    try discriminate.
  destruct (Dec.quantize monthly _ _) as [m | e]; cbn [bind] in H; try discriminate.
  injection H as <-. cbn [platform currency tier].
  split; [reflexivity |]. split.
  - cbn [existsb SUPPORTED_CURRENCIES] in Ec.
    rewrite !orb_true_iff, !String.eqb_eq in Ec.
    destruct Ec as [Ec | [Ec | Ec]]; [left | right | discriminate]; exact Ec.
  - exists w. eapply liberapay_tier_classified, Et.
Qed.

Lemma liberapay_rows_from_row l2u (thresholds : Thresholds) (rows : list csv_row) :
  forall sponsors,
    liberapay_rows l2u thresholds rows = Ok sponsors ->
    (List.length sponsors <= List.length rows)%nat /\
    Forall (fun s => exists row, In row rows /\
                                 liberapay_row l2u thresholds row = Ok (Some s)) sponsors.
Proof.
  induction rows as [| row rows IH]; intros sponsors; cbn [liberapay_rows].
  - intros H. injection H as <-. split; [reflexivity | constructor].
  - destruct (liberapay_row l2u thresholds row) as [s | e] eqn:E; cbn [bind];
      [| discriminate].
    destruct (liberapay_rows l2u thresholds rows) as [more | e]; cbn [bind];
      [| discriminate].
    intros H. injection H as <-. destruct (IH more eq_refl) as [Hl Hf].
    assert (Hf' : Forall (fun s0 => exists r, In r (row :: rows) /\
                                    liberapay_row l2u thresholds r = Ok (Some s0)) more).
    { eapply Forall_impl; [| exact Hf]. intros s0 [r [Hr Hs]]. exists r.
      split; [now right | exact Hs]. }
    destruct s as [s |]; cbn [List.length].
    + split; [lia |]. constructor; [| exact Hf']. exists row. split; [now left | exact E].
    + split; [lia | exact Hf'].
Qed.

(** X29.  Whatever text Liberapay answers with, the sponsors
    [fetch_liberapay_sponsors] returns were each made by the body of the row
    loop of a row that [csv.DictReader] yields for that text: they are
    Liberapay sponsors in dollars or euros whose tier is the one a weekly
    amount has under the Liberapay minimums, and they are no more than the
    rows. *)
Theorem fetch_liberapay_sponsors_sound l2u (world : Type)
    (fetch_text : string -> list (string * string) -> option string -> world
                  -> outcome string * world)
    (username : string) (thresholds : Thresholds) (w w' : world)
    (sponsors : list Sponsor) :
  fetch_liberapay_sponsors l2u world fetch_text username thresholds w
  = (Return sponsors, w') ->
  exists csv_data rows,
    fetch_text ("https://liberapay.com/" ++ Url.quote username ++ "/patrons/public.csv")
      [] None w = (Return csv_data, w') /\
    Csv.DictReader csv_data = (rows, None) /\
    (List.length sponsors <= List.length rows)%nat /\
    Forall (fun s =>
              (exists row, In row rows /\
                           liberapay_row l2u thresholds row = Ok (Some s)) /\
              platform s = "liberapay" /\
              (currency s = "USD" \/ currency s = "EUR") /\
              exists weekly_amount,
                classified (tier s) weekly_amount
                  (liberapay_regular_weekly_minimum thresholds)
                  (liberapay_highlighted_weekly_minimum thresholds)) sponsors.
Proof.
  unfold fetch_liberapay_sponsors.
  destruct (fetch_text _ _ _ w) as [[csv_data | e] w1]; cbn [and_then];
    [| discriminate].
  destruct (Csv.DictReader csv_data) as [rows err] eqn:R.
  destruct (liberapay_rows l2u thresholds rows) as [found | e] eqn:E;
    cbn [lift and_then]; [| discriminate].
  destruct err as [e |]; [discriminate |].
  intros H. injection H as <- <-.
  exists csv_data, rows. split; [reflexivity |]. split; [exact R |].
  destruct (liberapay_rows_from_row l2u thresholds rows found E) as [Hl Hf].
  split; [exact Hl |].
  eapply Forall_impl; [| exact Hf]. intros s [row [Hr Hs]].
  split; [now exists row | now apply (liberapay_row_class l2u thresholds row)].
Qed.

(** ** The pages of GitHub *)

(** *** The loop over the pages *)

Lemma get_object (fields : dict) (key : string) :
  Json.get (JObject fields) key = Return (dict_get fields key).
Proof. reflexivity. Qed.

Lemma github_nodes_app l2u th (a b : list dict) :
  github_nodes l2u th (a ++ b)
  = (s1 <- github_nodes l2u th a ;; s2 <- github_nodes l2u th b ;; Ok (s1 ++ s2)%list).
Proof.
  induction a as [| node a IH]; cbn [app github_nodes bind].
  - destruct (github_nodes l2u th b); reflexivity.
  - destruct (github_node l2u th node) as [[s |] | e]; cbn [bind]; [| | reflexivity];
      rewrite IH; destruct (github_nodes l2u th a); cbn [bind]; try reflexivity;
      destruct (github_nodes l2u th b); reflexivity.
Qed.

Lemma page_nodes_objects l2u th (nodes : list dict) :
  page_nodes l2u th (List.map JObject nodes) = lift (github_nodes l2u th nodes).
Proof.
  induction nodes as [| node nodes IH]; [reflexivity |].
  cbn [List.map page_nodes github_nodes].
  destruct (github_node l2u th node) as [s | e]; cbn [lift and_then bind]; [| reflexivity].
  rewrite IH. destruct (github_nodes l2u th nodes); reflexivity.
Qed.

Lemma error_types_not_found (errors : list json) :
  Forall (fun error => exists e, error = JObject e /\ dict_get e "type" = JStr "NOT_FOUND")
    errors ->
  exists types, error_types errors = Return types /\
                List.length types = List.length errors /\
                forallb (fun type => Json.equals type "NOT_FOUND") types = true.
Proof.
  induction 1 as [| error errors [e [-> He]] _ [types [Ht [Hl Hf]]]].
  - exists []. auto.
  - exists (JStr "NOT_FOUND" :: types). cbn [error_types].
    rewrite get_object, He. cbn [and_then Json.hashable]. rewrite Ht. cbn [and_then].
    repeat split.
    + cbn [List.length]. now rewrite Hl.
    + cbn [forallb]. now rewrite Hf.
Qed.

Section PagesFacts.

Variable local_to_utc : datetime -> result datetime.
Variable printed : json -> string.
Variable json_dumps : json -> string.
Variable json_loads : string -> outcome json.
Variable world : Type.
Variable fetch_text :
  string -> list (string * string) -> option string -> world -> outcome string * world.
Variables (login token : string) (thresholds : Thresholds).

Let page := github_page local_to_utc printed thresholds.
Let loop := github_pages local_to_utc printed json_dumps json_loads world fetch_text.
Let from_node := made_of_node local_to_utc thresholds.

Lemma github_page_break (owner_type : string) (response : json) (acc : list Sponsor) :
  is_not_found response \/ has_no_owner owner_type response ->
  page owner_type response acc = Return Break.
Proof.
  unfold page, github_page.
  intros [[fields [errors [-> [He [Hne Hall]]]]] | [fields [data [-> [He [Hd Hc]]]]]].
  - rewrite get_object, He. cbn [and_then Py.truthy].
    destruct errors as [| e0 errors]; [congruence |]. cbn [Json.iterate and_then].
    destruct (error_types_not_found _ Hall) as [types [-> [Hl Hf]]]. cbn [and_then].
    unfold only_not_found. rewrite Hl, Hf. reflexivity.
  - rewrite get_object. cbn [and_then]. rewrite He, Hd. cbn [and_then].
    rewrite get_object. cbn [and_then]. now rewrite Hc.
Qed.

Lemma github_page_nodes (owner_type : string) (response : json) (nodes : list dict)
    (has_next end_cursor : json) (acc : list Sponsor) :
  is_page owner_type response nodes has_next end_cursor ->
  page owner_type response acc
  = (found <~ lift (github_nodes local_to_utc thresholds nodes) ;;
     Return (if Py.truthy has_next then Continue end_cursor (acc ++ found)
             else Finished (acc ++ found))).
Proof.
  intros [fields [data [container [sponsorships [page_info
           [-> [He [Hd [Hc [Hs [Hn [Hp [Hh Hc']]]]]]]]]]]]].
  unfold page, github_page.
  rewrite get_object. cbn [and_then]. rewrite He, Hd. cbn [and_then].
  rewrite get_object, Hc. cbn [and_then].
  assert (Tc : Py.truthy (JObject container) = true).
  { cbn [Py.truthy]. destruct container; [discriminate Hs | reflexivity]. }
  rewrite Tc. cbn [negb]. rewrite get_object, Hs. cbn [and_then].
  assert (Ts : Py.or_else (JObject sponsorships) (JObject []) = JObject sponsorships).
  { unfold Py.or_else. cbn [Py.truthy]. destruct sponsorships; [discriminate Hp | reflexivity]. }
  rewrite Ts, Hn. cbn [and_then Json.iterate]. rewrite page_nodes_objects.
  destruct (github_nodes local_to_utc thresholds nodes) as [found | e];
    cbn [lift and_then]; [| reflexivity].
  rewrite get_object, Hp. cbn [and_then].
  assert (Tp : Py.or_else (JObject page_info) (JObject []) = JObject page_info).
  { unfold Py.or_else. cbn [Py.truthy].
    destruct page_info; [| reflexivity]. reflexivity. }
  rewrite Tp, !get_object, Hh, Hc'. cbn [and_then].
  destruct (Py.truthy has_next); reflexivity.
Qed.

Lemma github_pages_served (owner_type : string) (after : json) (w w' : world)
    (pages : list (list dict)) :
  served json_dumps json_loads world fetch_text login token owner_type after w pages w' ->
  forall (fuel : nat) (acc found : list Sponsor),
    github_nodes local_to_utc thresholds (List.concat pages) = Ok found ->
    (List.length pages <= fuel)%nat ->
    loop fuel login token thresholds owner_type after acc w
    = Some (Return (Some (acc ++ found)%list), w').
Proof.
  unfold loop.
  induction 1 as [after w response nodes has_next end_cursor w' Hr Hp Hn
                 | after w response nodes has_next end_cursor w1 rest w' Hr Hp Hn Hs IH];
    intros fuel acc found Hf Hl; (destruct fuel as [| fuel]; [cbn in Hl; lia |]);
    cbn [github_pages]; unfold request in Hr; rewrite Hr; cbn [and_then];
    fold page; rewrite (github_page_nodes _ _ _ _ _ acc Hp), Hn.
  - cbn [List.concat] in Hf. rewrite app_nil_r in Hf. rewrite Hf. reflexivity.
  - cbn [List.concat] in Hf. rewrite github_nodes_app in Hf.
    destruct (github_nodes local_to_utc thresholds nodes) as [f1 | e]; cbn [bind] in Hf;
      [| discriminate].
    destruct (github_nodes local_to_utc thresholds (List.concat rest)) as [f2 | e] eqn:E2;
      cbn [bind] in Hf; [| discriminate].
    injection Hf as <-. cbn [lift and_then].
    rewrite (IH fuel (acc ++ f1)%list f2 eq_refl) by (cbn in Hl; lia).
    now rewrite <- app_assoc.
Qed.

Lemma github_pages_unknown (owner_type : string) (w w' : world) (fuel : nat) :
  unknown json_dumps json_loads world fetch_text login token owner_type w w' ->
  loop (S fuel) login token thresholds owner_type JNull [] w = Some (Return None, w').
Proof.
  intros [response [Hr Hu]]. unfold loop. cbn [github_pages].
  unfold request in Hr. rewrite Hr. cbn [and_then]. fold page.
  now rewrite (github_page_break owner_type response [] Hu).
Qed.

(** X23.  The pages of the owner type that answers are all requested, each
    after the cursor of the page before it, and their nodes are processed
    as one list; an owner type the first response does not know is passed
    over for the next; a login neither owner type knows is the error that
    names it. *)
Theorem github_pagination (fuel : nat) (w : world) :
  let fetch := fetch_github_sponsors local_to_utc printed json_dumps json_loads world
                 fetch_text fuel login token thresholds in
  let answers := served json_dumps json_loads world fetch_text login token in
  let passes := unknown json_dumps json_loads world fetch_text login token in
  (forall pages sponsors w',
     answers "organization" JNull w pages w' ->
     github_nodes local_to_utc thresholds (List.concat pages) = Ok sponsors ->
     (List.length pages <= fuel)%nat ->
     fetch w = Some (Return sponsors, w')) /\
  (forall w1 pages sponsors w',
     passes "organization" w w1 ->
     answers "user" JNull w1 pages w' ->
     github_nodes local_to_utc thresholds (List.concat pages) = Ok sponsors ->
     (List.length pages <= fuel)%nat ->
     fetch w = Some (Return sponsors, w')) /\
  (forall w1 w',
     passes "organization" w w1 -> passes "user" w1 w' -> (1 <= fuel)%nat ->
     fetch w
     = Some (Throw (Core (RuntimeError
               ("Unable to find GitHub organization or user '" ++ login ++ "'."))), w')).
Proof.
  cbv zeta. unfold fetch_github_sponsors. split; [| split].
  - intros pages sponsors w' Hs Hn Hl. cbn [github_owners]. fold loop.
    now rewrite (github_pages_served _ _ _ _ _ Hs fuel [] sponsors Hn Hl).
  - intros w1 pages sponsors w' Hu Hs Hn Hl.
    destruct fuel as [| fuel']; [inversion Hs; subst; cbn in Hl; lia |].
    cbn [github_owners]. fold loop.
    rewrite (github_pages_unknown _ _ _ fuel' Hu).
    now rewrite (github_pages_served _ _ _ _ _ Hs (S fuel') [] sponsors Hn Hl).
  - intros w1 w' H1 H2 Hl. destruct fuel as [| fuel']; [lia |].
    cbn [github_owners]. fold loop.
    now rewrite (github_pages_unknown _ _ _ fuel' H1), (github_pages_unknown _ _ _ fuel' H2).
Qed.

(** *** What the loop returns *)

Lemma page_nodes_from_node (nodes : list json) (found : list Sponsor) :
  page_nodes local_to_utc thresholds nodes = Return found -> Forall from_node found.
Proof.
  revert found. induction nodes as [| node nodes IH]; intros found; cbn [page_nodes].
  - intros H. injection H as <-. constructor.
  - destruct node as [| | | | | | fields]; try discriminate.
    destruct (github_node local_to_utc thresholds fields) as [s | e] eqn:E;
      cbn [lift and_then]; [| discriminate].
    destruct (page_nodes local_to_utc thresholds nodes) as [more | e];
      cbn [and_then]; [| discriminate].
    intros H. injection H as <-. specialize (IH more eq_refl).
    destruct s as [s |]; [| exact IH]. constructor; [| exact IH]. now exists fields.
Qed.

Lemma github_page_from_node (owner_type : string) (response : json)
    (acc : list Sponsor) (st : step) :
  Forall from_node acc ->
  page owner_type response acc = Return st ->
  match st with
  | Break => True
  | Finished sponsors | Continue _ sponsors => Forall from_node sponsors
  end.
Proof.
  intros Hacc. unfold page, github_page.
  repeat match goal with
         | |- and_then ?r _ = _ -> _ =>
             let E := fresh "E" in destruct r eqn:E; cbn [and_then]; [| discriminate]
         | |- (if ?b then _ else _) = _ -> _ => destruct b
         | |- Throw _ = _ -> _ => discriminate
         | |- Return _ = Return _ -> _ =>
             let H := fresh "H" in intros H; injection H as <-
         end; try exact I;
    (apply Forall_app; split; [exact Hacc | eapply page_nodes_from_node; eassumption]).
Qed.

Lemma github_pages_from_node (fuel : nat) :
  forall owner_type after acc w sponsors w',
    Forall from_node acc ->
    loop fuel login token thresholds owner_type after acc w
    = Some (Return (Some sponsors), w') ->
    Forall from_node sponsors.
Proof.
  unfold loop. induction fuel as [| fuel IH]; intros owner_type after acc w sponsors w' Hacc;
    cbn [github_pages]; [discriminate |].
  destruct (fetch_json _ _ _ _ _ _ _) as [response w1].
  destruct response as [response | e]; cbn [and_then]; [| discriminate].
  fold page. destruct (page owner_type response acc) as [[| l | c l] | e] eqn:E;
    try discriminate.
  - intros H. injection H as <- <-. exact (github_page_from_node _ _ _ _ Hacc E).
  - apply IH. exact (github_page_from_node _ _ _ _ Hacc E).
Qed.

Lemma github_node_class (node : dict) (s : Sponsor) :
  github_node local_to_utc thresholds node = Ok (Some s) ->
  platform s = "github" /\ currency s = "USD" /\
  classified (tier s) (monthly_amount s)
    (github_regular_monthly_minimum thresholds)
    (github_highlighted_monthly_minimum thresholds).
Proof.
  intros H. unfold github_node in H.
  destruct (negb _ || _); [discriminate |].
  destruct (differs_from _ _); [discriminate |].
  crunch H. cbn [bind] in H. injection H as <-.
  cbn [platform currency tier monthly_amount].
  repeat split. now apply monthly_tier_classified.
Qed.

(** X24.  Whatever the world answers, the sponsors [fetch_github_sponsors]
    returns were each made of a node by the body of the node loop: they
    are GitHub sponsors in dollars whose tier is the one their monthly
    amount has under the GitHub minimums. *)
Theorem fetch_github_sponsors_sound (fuel : nat) (w w' : world) (sponsors : list Sponsor) :
  fetch_github_sponsors local_to_utc printed json_dumps json_loads world fetch_text
    fuel login token thresholds w
  = Some (Return sponsors, w') ->
  Forall (fun s =>
            made_of_node local_to_utc thresholds s /\
            platform s = "github" /\ currency s = "USD" /\
            classified (tier s) (monthly_amount s)
              (github_regular_monthly_minimum thresholds)
              (github_highlighted_monthly_minimum thresholds)) sponsors.
Proof.
  unfold fetch_github_sponsors. intros H.
  assert (Hn : Forall from_node sponsors).
  { revert H. generalize ["organization"; "user"]. intros owners. revert w.
    induction owners as [| owner owners IH]; intros w; cbn [github_owners];
      [discriminate |].
    fold loop.
    destruct (loop fuel login token thresholds owner JNull [] w)
      as [[[[l |] | e] w1] |] eqn:E; try discriminate.
    - intros H. injection H as <- <-.
      eapply github_pages_from_node; [| exact E]. constructor.
    - apply IH. }
  eapply Forall_impl; [| exact Hn]. intros s [node Hs].
  split; [now exists node | now apply (github_node_class node)].
Qed.

End PagesFacts.

(** *** Responses with errors *)

Lemma error_types_mixed (errors : list json) :
  Forall typed_error errors ->
  exists types,
    error_types errors = Return types /\
    (Exists other_error errors ->
     forallb (fun type => Json.equals type "NOT_FOUND") types = false).
Proof.
  induction 1 as [| error errors [e [-> He]] _ [types [Ht Hf]]].
  - exists []. split; [reflexivity |]. intros H. inversion H.
  - exists (dict_get e "type" :: types). cbn [error_types].
    rewrite get_object. cbn [and_then]. rewrite He, Ht. cbn [and_then].
    split; [reflexivity |]. intros H. cbn [forallb].
    inversion H as [x l [e' [E Hx]] | x l Hl]; subst.
    + injection E as <-. now rewrite Hx.
    + rewrite (Hf Hl). apply andb_false_r.
Qed.

Section ErrorsFacts.

Variable local_to_utc : datetime -> result datetime.
Variable printed : json -> string.
Variable json_dumps : json -> string.
Variable json_loads : string -> outcome json.
Variable world : Type.
Variable fetch_text :
  string -> list (string * string) -> option string -> world -> outcome string * world.
Variables (login token : string) (thresholds : Thresholds).

Let ask := request json_dumps json_loads world fetch_text login token.
Let loop := github_pages local_to_utc printed json_dumps json_loads world fetch_text.

Lemma github_page_failure (owner_type : string) (response : json) (errors : list json)
    (acc : list Sponsor) :
  is_failure response errors ->
  github_page local_to_utc printed thresholds owner_type response acc
  = Throw (Core (RuntimeError ("GitHub GraphQL query failed: " ++ printed (JList errors)))).
Proof.
  intros [fields [-> [He [Ht Hx]]]]. unfold github_page.
  rewrite get_object, He. cbn [and_then].
  assert (Hn : Py.truthy (JList errors) = true).
  { destruct errors; [inversion Hx | reflexivity]. }
  rewrite Hn. cbn [Json.iterate and_then].
  destruct (error_types_mixed errors Ht) as [types [-> Hf]]. cbn [and_then].
  unfold only_not_found. rewrite (Hf Hx), andb_false_r. reflexivity.
Qed.

(** X30.  A response with an error of another type than NOT_FOUND ends
    [fetch_github_sponsors] with the error that prints the errors, whatever
    else the response holds and without a further request.  A response
    that does not know the owner type ends the pages of that owner type
    wherever it comes: the sponsors of the pages before it are dropped,
    and the next owner type is asked. *)
Theorem github_errors (fuel : nat) (w : world) :
  let fetch := fetch_github_sponsors local_to_utc printed json_dumps json_loads world
                 fetch_text fuel login token thresholds in
  (forall response errors w',
     ask "organization" JNull w = (Return response, w') ->
     is_failure response errors ->
     (1 <= fuel)%nat ->
     fetch w
     = Some (Throw (Core (RuntimeError
               ("GitHub GraphQL query failed: " ++ printed (JList errors)))), w')) /\
  (forall first nodes has_next end_cursor found w1 second w2 pages sponsors w',
     ask "organization" JNull w = (Return first, w1) ->
     is_page "organization" first nodes has_next end_cursor ->
     Py.truthy has_next = true ->
     github_nodes local_to_utc thresholds nodes = Ok found ->
     ask "organization" end_cursor w1 = (Return second, w2) ->
     is_not_found second \/ has_no_owner "organization" second ->
     served json_dumps json_loads world fetch_text login token "user" JNull w2 pages w' ->
     github_nodes local_to_utc thresholds (List.concat pages) = Ok sponsors ->
     (2 <= fuel)%nat -> (List.length pages <= fuel)%nat ->
     fetch w = Some (Return sponsors, w')).
Proof.
  cbv zeta. unfold fetch_github_sponsors, ask, request. split.
  - intros response errors w' Hr Hf Hl. destruct fuel as [| fuel']; [lia |].
    cbn [github_owners github_pages]. rewrite Hr. cbn [and_then].
    now rewrite (github_page_failure "organization" response errors [] Hf).
  - intros first nodes has_next end_cursor found w1 second w2 pages sponsors w'
      H1 Hp Hn Hf H2 Hu Hs Hg Hl Hl'.
    destruct fuel as [| [| fuel']]; [lia | lia |].
    assert (E : loop (S (S fuel')) login token thresholds "organization" JNull [] w
                = Some (Return None, w2)).
    { unfold loop. cbn [github_pages]. rewrite H1. cbn [and_then].
      rewrite (github_page_nodes local_to_utc printed thresholds "organization" first nodes
                 has_next end_cursor [] Hp), Hf, Hn.
      cbn [lift and_then]. rewrite H2. cbn [and_then].
      now rewrite (github_page_break local_to_utc printed thresholds "organization" second
                     ([] ++ found)%list Hu). }
    cbn [github_owners]. fold loop. rewrite E. unfold loop.
    now rewrite (github_pages_served local_to_utc printed json_dumps json_loads world
                   fetch_text login token thresholds "user" JNull w2 w' pages Hs
                   (S (S fuel')) [] sponsors Hg Hl').
Qed.

End ErrorsFacts.

(** ** The README with its two regions *)

(** *** Searching a text in pieces *)

Lemma strip_prefix_app (p x y : string) :
  count "<" p = O -> opens_tag y = true ->
  Str.strip_prefix p (x ++ y)
  = match Str.strip_prefix p x with
    | Some rest => Some (rest ++ y)
    | None => None
    end.
Proof.
  revert x. induction p as [| a p IH]; intros x Hp Hy; [reflexivity |].
  cbn [count] in Hp.
  destruct (Ascii.eqb_spec a "<") as [-> | Ha]; [discriminate Hp |].
  destruct x as [| b x]; cbn [append Str.strip_prefix].
  - destruct y as [| c y]; [reflexivity |]. cbn [opens_tag] in Hy.
    apply Ascii.eqb_eq in Hy. subst c. cbn [Str.strip_prefix].
    destruct (Ascii.eqb_spec a "<"); [contradiction | reflexivity].
  - destruct (Ascii.eqb a b); [| reflexivity]. apply IH; [exact Hp | exact Hy].
Qed.

(** A pattern that begins with its only opening bracket is found in the
    first piece, or else in the second, when the second begins a tag. *)
Lemma find_app (p x y : string) :
  count "<" p = O -> opens_tag y = true ->
  Str.find (String "<" p) (x ++ y)
  = match Str.find (String "<" p) x with
    | Some (before, after) => Some (before, after ++ y)
    | None =>
        match Str.find (String "<" p) y with
        | Some (before, after) => Some (x ++ before, after)
        | None => None
        end
    end.
Proof.
  intros Hp Hy. induction x as [| c x IH].
  - cbn [append]. change (Str.find (String "<" p) EmptyString) with (@None (string * string)).
    destruct (Str.find (String "<" p) y) as [[b a] |]; reflexivity.
  - cbn [append Str.find Str.strip_prefix].
    destruct (Ascii.eqb "<" c).
    + rewrite (strip_prefix_app p x y Hp Hy).
      destruct (Str.strip_prefix p x) as [rest |]; [reflexivity |].
      rewrite IH. destruct (Str.find (String "<" p) x) as [[b a] |]; [reflexivity |].
      destruct (Str.find (String "<" p) y) as [[b a] |]; reflexivity.
    + rewrite IH. destruct (Str.find (String "<" p) x) as [[b a] |]; [reflexivity |].
      destruct (Str.find (String "<" p) y) as [[b a] |]; reflexivity.
Qed.

Lemma find_here (p rest : string) :
  Str.find p (p ++ rest) = Some (EmptyString, rest).
Proof.
  assert (E : Str.strip_prefix p (p ++ rest) = Some rest) by now apply strip_prefix_spec.
  destruct p as [| c p]; [destruct rest; reflexivity |].
  cbn [append Str.find]. cbn [append] in E. now rewrite E.
Qed.

Lemma find_regular_app (x y : string) :
  opens_tag y = true ->
  Str.find REGULAR (x ++ y)
  = match Str.find REGULAR x with
    | Some (before, after) => Some (before, after ++ y)
    | None =>
        match Str.find REGULAR y with
        | Some (before, after) => Some (x ++ before, after)
        | None => None
        end
    end.
Proof. intros Hy. apply (find_app "!-- sponsors -->" x y eq_refl Hy). Qed.

Lemma find_highlighted_app (x y : string) :
  opens_tag y = true ->
  Str.find HIGHLIGHTED (x ++ y)
  = match Str.find HIGHLIGHTED x with
    | Some (before, after) => Some (before, after ++ y)
    | None =>
        match Str.find HIGHLIGHTED y with
        | Some (before, after) => Some (x ++ before, after)
        | None => None
        end
    end.
Proof. intros Hy. apply (find_app "!-- sponsors-highlighted -->" x y eq_refl Hy). Qed.

(** Neither sentinel begins within the other. *)
Lemma find_regular_skip (rest : string) :
  Str.find REGULAR (HIGHLIGHTED ++ rest)
  = match Str.find REGULAR rest with
    | Some (before, after) => Some (HIGHLIGHTED ++ before, after)
    | None => None
    end.
Proof.
  unfold HIGHLIGHTED, REGULAR, sentinel.
  cbn [append Str.find Str.strip_prefix Ascii.eqb Bool.eqb].
  destruct (Str.find _ rest) as [[b a] |]; reflexivity.
Qed.

Lemma find_highlighted_skip (rest : string) :
  Str.find HIGHLIGHTED (REGULAR ++ rest)
  = match Str.find HIGHLIGHTED rest with
    | Some (before, after) => Some (REGULAR ++ before, after)
    | None => None
    end.
Proof.
  unfold HIGHLIGHTED, REGULAR, sentinel.
  cbn [append Str.find Str.strip_prefix Ascii.eqb Bool.eqb].
  destruct (Str.find _ rest) as [[b a] |]; reflexivity.
Qed.

(** *** What is rendered holds no sentinel *)

Lemma ends_with_bracket_app (b : bool) (x y : string) :
  ends_with_bracket b (x ++ y) = ends_with_bracket (ends_with_bracket b x) y.
Proof. revert b. induction x as [| c x IH]; intros b; [reflexivity | apply IH]. Qed.

Lemma no_comment_app (b : bool) (x y : string) :
  no_comment b (x ++ y) = no_comment b x && no_comment (ends_with_bracket b x) y.
Proof.
  revert b. induction x as [| c x IH]; intros b; [reflexivity |].
  cbn [append no_comment ends_with_bracket]. rewrite IH. now rewrite andb_assoc.
Qed.

Lemma tame_app (x y : string) : tame x -> tame y -> tame (x ++ y).
Proof.
  unfold tame. intros [H1 H2] [H3 H4].
  rewrite no_comment_app, ends_with_bracket_app, H1, H2, H3, H4. auto.
Qed.

Lemma tame_without_bracket (x : string) : count "<" x = O -> tame x.
Proof.
  unfold tame. induction x as [| c x IH]; [auto |].
  cbn [count no_comment ends_with_bracket].
  destruct (Ascii.eqb c "<"); [discriminate |]. intros H. apply IH in H as [H1 H2].
  now rewrite H1, H2.
Qed.

Lemma tame_render_sponsor (sponsor : Sponsor) (width : string) :
  tame width -> tame (render_sponsor sponsor width).
Proof.
  intros Hw. unfold render_sponsor, quoted.
  repeat first
    [ apply tame_app
    | exact Hw
    | apply tame_without_bracket, escape_count; reflexivity
    | (split; reflexivity) ].
Qed.

Lemma tame_render_all (sponsors : list Sponsor) (width : string) :
  tame width -> tame (render_all sponsors width).
Proof.
  intros Hw. unfold render_all.
  induction sponsors as [| s l IH]; cbn [List.map Str.concat]; [split; reflexivity |].
  apply tame_app; [now apply tame_render_sponsor | exact IH].
Qed.

Lemma no_comment_absent (p text : string) (b : bool) :
  no_comment b text = true -> absent (String "<" (String "!" p)) text.
Proof.
  unfold absent. revert b. induction text as [| c r IH]; intros b H; [reflexivity |].
  cbn [no_comment] in H. apply andb_true_iff in H as [_ H].
  cbn [Str.find Str.strip_prefix]. rewrite (IH _ H).
  destruct (Ascii.eqb_spec "<" c) as [<- | _]; [| reflexivity].
  destruct r as [| d r']; [reflexivity |].
  cbn [no_comment] in H. change (Ascii.eqb "<" "<") with true in H. cbn [andb] in H.
  apply andb_true_iff in H as [H _]. apply negb_true_iff in H.
  cbn [Str.strip_prefix]. rewrite Ascii.eqb_sym, H. reflexivity.
Qed.

Lemma rendered_absent (sponsors : list Sponsor) (width : string) :
  tame width ->
  absent HIGHLIGHTED (render_all sponsors width) /\
  absent REGULAR (render_all sponsors width).
Proof.
  intros Hw. destruct (tame_render_all sponsors width Hw) as [H _].
  split; eapply no_comment_absent, H.
Qed.

(** *** What is rendered is a literal template *)

Lemma escape_no_backslash (s : string) : no_backslash s -> no_backslash (Html.escape s).
Proof.
  unfold no_backslash. induction s as [| c r IH]; [auto |].
  cbn [Str.forallb Html.escape]. intros H. apply andb_true_iff in H as [Hc Hr].
  rewrite forallb_app, (IH Hr), andb_true_r.
  repeat match goal with
         | |- context [if ?b then _ else _] => destruct b; [reflexivity |]
         end.
  cbn [Str.forallb]. now rewrite Hc.
Qed.

Lemma render_all_no_backslash (sponsors : list Sponsor) (width : string) :
  no_backslash width -> without_backslash sponsors ->
  no_backslash (render_all sponsors width).
Proof.
  intros Hw. unfold render_all, without_backslash.
  induction 1 as [| s l [H1 [H2 H3]] _ IH]; [reflexivity |].
  cbn [List.map Str.concat]. unfold no_backslash in *. rewrite forallb_app, IH, andb_true_r.
  unfold render_sponsor, quoted.
  apply escape_no_backslash in H1, H2, H3. unfold no_backslash in *.
  repeat (cbn [append Str.forallb]; rewrite ?forallb_app, ?H1, ?H2, ?H3, ?Hw).
  reflexivity.
Qed.

(** *** One splice *)

Lemma replace_marker_at (content marker replacement before rest interior after : string) :
  no_backslash marker -> no_backslash replacement ->
  Str.find (sentinel marker) content = Some (before, rest) ->
  Str.find (sentinel marker) rest = Some (interior, after) ->
  replace_marker content marker replacement
  = Ok (before ++ sentinel marker ++ replacement ++ sentinel marker ++ after).
Proof.
  intros Hm Hr F1 F2.
  assert (Ht : Re.parse_template (sentinel marker ++ replacement ++ sentinel marker)
               = Ok [Re.Lit (sentinel marker ++ replacement ++ sentinel marker)]).
  { apply parse_template_literal. pose proof (sentinel_no_backslash _ Hm) as Hs.
    unfold no_backslash in *. now rewrite !forallb_app, Hs, Hr. }
  unfold replace_marker, Re.subn. fold (sentinel marker). rewrite Ht. cbn [bind].
  assert (Hlen : exists n, String.length content = S n).
  { apply find_some in F1. rewrite F1. unfold sentinel. rewrite !length_app. simpl.
    eexists. rewrite Nat.add_succ_r. reflexivity. }
  destruct Hlen as [n ->]. cbn [Re.subn_loop]. unfold Re.search. rewrite F1, F2.
  cbn [Nat.eqb negb Re.expand]. rewrite append_nil_r, !append_assoc. reflexivity.
Qed.

(** *** The two splices *)

Lemma find_past_regular (x y : string) :
  absent REGULAR x -> opens_tag y = true ->
  Str.find REGULAR (x ++ y)
  = match Str.find REGULAR y with
    | Some (before, after) => Some (x ++ before, after)
    | None => None
    end.
Proof. intros Hx Hy. rewrite (find_regular_app x y Hy). now rewrite Hx. Qed.

Lemma find_past_highlighted (x y : string) :
  absent HIGHLIGHTED x -> opens_tag y = true ->
  Str.find HIGHLIGHTED (x ++ y)
  = match Str.find HIGHLIGHTED y with
    | Some (before, after) => Some (x ++ before, after)
    | None => None
    end.
Proof. intros Hx Hy. rewrite (find_highlighted_app x y Hy). now rewrite Hx. Qed.

Lemma find_regular_at (x rest : string) :
  absent REGULAR x -> Str.find REGULAR (x ++ REGULAR ++ rest) = Some (x, rest).
Proof.
  intros Hx. rewrite find_past_regular by (auto; reflexivity).
  now rewrite find_here, append_nil_r.
Qed.

Lemma find_highlighted_at (x rest : string) :
  absent HIGHLIGHTED x -> Str.find HIGHLIGHTED (x ++ HIGHLIGHTED ++ rest) = Some (x, rest).
Proof.
  intros Hx. rewrite find_past_highlighted by (auto; reflexivity).
  now rewrite find_here, append_nil_r.
Qed.

Lemma update_readme_highlighted_first (highlighted regular : list Sponsor)
    (a i b j c : string) :
  without_backslash highlighted -> without_backslash regular ->
  absent HIGHLIGHTED a -> absent HIGHLIGHTED i ->
  absent REGULAR a -> absent REGULAR b -> absent REGULAR j ->
  update_readme
    (a ++ HIGHLIGHTED ++ i ++ HIGHLIGHTED ++ b ++ REGULAR ++ j ++ REGULAR ++ c)
    highlighted regular
  = Ok (a ++ HIGHLIGHTED ++ render_all highlighted HIGHLIGHTED_WIDTH ++ HIGHLIGHTED ++ b
        ++ REGULAR ++ render_all regular REGULAR_WIDTH ++ REGULAR ++ c).
Proof.
  intros Hh Hr H1 H2 H3 H4 H5.
  set (new_highlighted := render_all highlighted HIGHLIGHTED_WIDTH).
  set (new_regular := render_all regular REGULAR_WIDTH).
  assert (Bh : no_backslash new_highlighted)
    by (apply render_all_no_backslash; [reflexivity | exact Hh]).
  assert (Br : no_backslash new_regular)
    by (apply render_all_no_backslash; [reflexivity | exact Hr]).
  destruct (rendered_absent highlighted HIGHLIGHTED_WIDTH) as [_ Ah]; [split; reflexivity |].
  fold new_highlighted in Ah.
  unfold update_readme. fold new_highlighted new_regular.
  rewrite (replace_marker_at _ "sponsors-highlighted" new_highlighted a
             (i ++ HIGHLIGHTED ++ b ++ REGULAR ++ j ++ REGULAR ++ c) i
             (b ++ REGULAR ++ j ++ REGULAR ++ c) eq_refl Bh
             (find_highlighted_at _ _ H1) (find_highlighted_at _ _ H2)).
  cbn [bind]. fold HIGHLIGHTED.
  rewrite (replace_marker_at _ "sponsors" new_regular
             (a ++ HIGHLIGHTED ++ new_highlighted ++ HIGHLIGHTED ++ b)
             (j ++ REGULAR ++ c) j c eq_refl Br).
  - fold REGULAR. now rewrite !append_assoc.
  - fold REGULAR.
    rewrite (find_past_regular a) by (auto; reflexivity).
    rewrite find_regular_skip.
    rewrite (find_past_regular new_highlighted) by (auto; reflexivity).
    rewrite find_regular_skip.
    rewrite (find_regular_at b) by exact H4. reflexivity.
  - apply find_regular_at, H5.
Qed.

Lemma update_readme_regular_first (highlighted regular : list Sponsor)
    (a i b j c : string) :
  without_backslash highlighted -> without_backslash regular ->
  absent REGULAR a -> absent REGULAR j ->
  absent HIGHLIGHTED a -> absent HIGHLIGHTED j -> absent HIGHLIGHTED b ->
  absent HIGHLIGHTED i ->
  update_readme
    (a ++ REGULAR ++ j ++ REGULAR ++ b ++ HIGHLIGHTED ++ i ++ HIGHLIGHTED ++ c)
    highlighted regular
  = Ok (a ++ REGULAR ++ render_all regular REGULAR_WIDTH ++ REGULAR ++ b
        ++ HIGHLIGHTED ++ render_all highlighted HIGHLIGHTED_WIDTH ++ HIGHLIGHTED ++ c).
Proof.
  intros Hh Hr H1 H2 H3 H4 H5 H6.
  set (new_highlighted := render_all highlighted HIGHLIGHTED_WIDTH).
  set (new_regular := render_all regular REGULAR_WIDTH).
  assert (Bh : no_backslash new_highlighted)
    by (apply render_all_no_backslash; [reflexivity | exact Hh]).
  assert (Br : no_backslash new_regular)
    by (apply render_all_no_backslash; [reflexivity | exact Hr]).
  unfold update_readme. fold new_highlighted new_regular.
  rewrite (replace_marker_at _ "sponsors-highlighted" new_highlighted
             (a ++ REGULAR ++ j ++ REGULAR ++ b) (i ++ HIGHLIGHTED ++ c) i c eq_refl Bh).
  - cbn [bind]. fold HIGHLIGHTED. rewrite !append_assoc.
    rewrite (replace_marker_at _ "sponsors" new_regular a
               (j ++ REGULAR ++ b ++ HIGHLIGHTED ++ new_highlighted ++ HIGHLIGHTED ++ c) j
               (b ++ HIGHLIGHTED ++ new_highlighted ++ HIGHLIGHTED ++ c) eq_refl Br
               (find_regular_at _ _ H1) (find_regular_at _ _ H2)).
    reflexivity.
  - fold HIGHLIGHTED.
    rewrite (find_past_highlighted a) by (auto; reflexivity).
    rewrite find_highlighted_skip.
    rewrite (find_past_highlighted j) by (auto; reflexivity).
    rewrite find_highlighted_skip.
    rewrite (find_highlighted_at b) by exact H5. reflexivity.
  - apply find_highlighted_at, H6.
Qed.

(** X25.  On a README that holds the two regions, in either order, the two
    splices of [main] replace the interior of each region by what is
    rendered for it and leave the rest of the text as it is: the second
    splice does not touch what the first has written. *)
Theorem update_readme_regions (highlighted regular : list Sponsor)
    (a i b j c : string) :
  without_backslash highlighted -> without_backslash regular ->
  let new_highlighted := render_all highlighted HIGHLIGHTED_WIDTH in
  let new_regular := render_all regular REGULAR_WIDTH in
  (absent HIGHLIGHTED a -> absent HIGHLIGHTED i ->
   absent REGULAR a -> absent REGULAR b -> absent REGULAR j ->
   update_readme
     (a ++ HIGHLIGHTED ++ i ++ HIGHLIGHTED ++ b ++ REGULAR ++ j ++ REGULAR ++ c)
     highlighted regular
   = Ok (a ++ HIGHLIGHTED ++ new_highlighted ++ HIGHLIGHTED ++ b
         ++ REGULAR ++ new_regular ++ REGULAR ++ c)) /\
  (absent REGULAR a -> absent REGULAR j ->
   absent HIGHLIGHTED a -> absent HIGHLIGHTED j -> absent HIGHLIGHTED b ->
   absent HIGHLIGHTED i ->
   update_readme
     (a ++ REGULAR ++ j ++ REGULAR ++ b ++ HIGHLIGHTED ++ i ++ HIGHLIGHTED ++ c)
     highlighted regular
   = Ok (a ++ REGULAR ++ new_regular ++ REGULAR ++ b
         ++ HIGHLIGHTED ++ new_highlighted ++ HIGHLIGHTED ++ c)).
Proof.
  intros Hh Hr new_highlighted new_regular. split.
  - intros H1 H2 H3 H4 H5. now apply update_readme_highlighted_first.
  - intros H1 H2 H3 H4 H5 H6. now apply update_readme_regular_first.
Qed.

(** ** The command line and [main] *)

(** X26.  [decimal_arg] accepts a text exactly when the text is not blank
    and [Decimal] reads what is left of it without its surrounding white
    space, and returns that number; for every other text it raises the
    [ArgumentTypeError] that quotes the text as it was given. *)
Theorem decimal_arg_accepts (value : string) :
  (forall d,
     decimal_arg value = Return d <->
     Str.truthy (Str.strip value) = true /\ Dec.of_string (Str.strip value) = Ok d) /\
  ((forall d, decimal_arg value <> Return d) ->
   decimal_arg value = Throw (ArgumentTypeError ("Invalid decimal value: " ++ value))).
Proof.
  unfold decimal_arg, parse_decimal. cbn [Py.str].
  destruct (Str.truthy (Str.strip value)); cbn [negb].
  - destruct (Dec.of_string (Str.strip value)) as [d0 | e] eqn:E;
      cbn [bind Py.try_except lift and_then].
    + split.
      * intros d. split.
        -- intros H. injection H as <-. now split.
        -- intros [_ H]. injection H as <-. reflexivity.
      * intros H. destruct (H d0 eq_refl).
    + apply of_string_raises in E. subst e. cbn [Py.is_InvalidOperation lift and_then].
      split; [| reflexivity].
      intros d. split; [discriminate | intros [_ H]; discriminate H].
  - cbn [lift and_then]. split; [| reflexivity].
    intros d. split; [discriminate | intros [H _]; discriminate H].
Qed.

Lemma with_tier_without_backslash (t : string) (sponsors : list Sponsor) :
  without_backslash sponsors ->
  without_backslash (with_tier t sponsors).
Proof.
  unfold without_backslash, with_tier. rewrite !Forall_forall. intros H s Hs. apply H.
  apply sort_and_dedupe_in, find_last_in, filter_In in Hs. tauto.
Qed.

Section MainFacts.

Variable local_to_utc : datetime -> result datetime.
Variable printed : json -> string.
Variable json_dumps : json -> string.
Variable json_loads : string -> outcome json.
Variable world : Type.
Variable fetch_text :
  string -> list (string * string) -> option string -> world -> outcome string * world.
Variable read_text : string -> world -> outcome string * world.
Variable write_text : string -> string -> world -> outcome unit * world.

Let run := main local_to_utc printed json_dumps json_loads world fetch_text read_text
             write_text.

(** X27.  [main] raises the error of [build_thresholds], or the error of
    the missing token, before any call to the world.  When GitHub and, if a
    user name is given, Liberapay return their sponsors and the README
    holds the two regions, [main] writes the README with the highlighted
    and the regular sponsors of both platforms rendered into their
    regions. *)
Theorem main_run (fuel : nat) (args : Args) (GITHUB_TOKEN : option string) (w : world) :
  let token := Str.strip (match GITHUB_TOKEN with Some t => t | None => EmptyString end) in
  (forall e,
     build_thresholds (minimums args) = Raise e ->
     run fuel args GITHUB_TOKEN w = Some (Throw (Core e), w)) /\
  (forall thresholds,
     build_thresholds (minimums args) = Ok thresholds ->
     Str.truthy token = false ->
     run fuel args GITHUB_TOKEN w
     = Some (Throw (Core (RuntimeError
               "GITHUB_TOKEN is required to fetch GitHub Sponsors data.")), w)) /\
  (forall thresholds github patrons w1 w2 w3 a i b j c,
     build_thresholds (minimums args) = Ok thresholds ->
     Str.truthy token = true ->
     fetch_github_sponsors local_to_utc printed json_dumps json_loads world fetch_text
       fuel (github_login args) token thresholds w
     = Some (Return github, w1) ->
     match liberapay_username args with
     | Some username =>
         if Str.truthy username then
           fetch_liberapay_sponsors local_to_utc world fetch_text username thresholds w1
           = (Return patrons, w2)
         else patrons = [] /\ w2 = w1
     | None => patrons = [] /\ w2 = w1
     end ->
     read_text (readme args) w2
     = (Return (a ++ HIGHLIGHTED ++ i ++ HIGHLIGHTED ++ b ++ REGULAR ++ j ++ REGULAR ++ c),
        w3) ->
     absent HIGHLIGHTED a -> absent HIGHLIGHTED i ->
     absent REGULAR a -> absent REGULAR b -> absent REGULAR j ->
     without_backslash (patrons ++ github) ->
     run fuel args GITHUB_TOKEN w
     = (let (written, w4) :=
          write_text (readme args)
            (a ++ HIGHLIGHTED
             ++ render_all (with_tier "highlighted" (patrons ++ github)) HIGHLIGHTED_WIDTH
             ++ HIGHLIGHTED ++ b ++ REGULAR
             ++ render_all (with_tier "regular" (patrons ++ github)) REGULAR_WIDTH
             ++ REGULAR ++ c) w3 in
        Some (_ <~ written ;; Return 0, w4))).
Proof.
  cbv zeta. unfold run, main. split; [| split].
  - intros e ->. reflexivity.
  - intros thresholds -> ->. reflexivity.
  - intros thresholds github patrons w1 w2 w3 a i b j c -> -> -> Hl Hread
      H1 H2 H3 H4 H5 Hb.
    cbn [negb].
    assert (E : (let (merged, w2') :=
                   match liberapay_username args with
                   | Some username =>
                       if Str.truthy username then
                         let (found, w2') :=
                           fetch_liberapay_sponsors local_to_utc world fetch_text username
                             thresholds w1 in
                         (found <~ found ;; Return (found ++ github)%list, w2')
                       else (Return github, w1)
                   | None => (Return github, w1)
                   end in (merged, w2')) = (Return (patrons ++ github)%list, w2)).
    { destruct (liberapay_username args) as [username |].
      - destruct (Str.truthy username).
        + rewrite Hl. reflexivity.
        + destruct Hl as [-> ->]. reflexivity.
      - destruct Hl as [-> ->]. reflexivity. }
    destruct (match liberapay_username args with Some _ => _ | None => _ end)
      as [merged w2'].
    injection E as -> ->.
    rewrite Hread. cbn [and_then].
    rewrite (update_readme_highlighted_first
               (with_tier "highlighted" (patrons ++ github))
               (with_tier "regular" (patrons ++ github)) a i b j c
               (with_tier_without_backslash _ _ Hb) (with_tier_without_backslash _ _ Hb)
               H1 H2 H3 H4 H5).
    cbn [lift]. reflexivity.
Qed.

End MainFacts.

(** ** The calls of a run *)

Section RecordedFacts.

Variable local_to_utc : datetime -> result datetime.
Variable printed : json -> string.
Variable json_dumps : json -> string.
Variable json_loads : string -> outcome json.
Variable world : Type.
Variable fetch_text :
  string -> list (string * string) -> option string -> world -> outcome string * world.
Variable read_text : string -> world -> outcome string * world.
Variable write_text : string -> string -> world -> outcome unit * world.

Let fetch := recorded_fetch world fetch_text.

Lemma quiet_app (a b : list event) : quiet a -> quiet b -> quiet (a ++ b).
Proof. intros Ha Hb. apply Forall_app. now split. Qed.

Lemma github_pages_quiet (fuel : nat) :
  forall login token thresholds owner_type after acc log w r log' w',
    github_pages local_to_utc printed json_dumps json_loads (list event * world) fetch
      fuel login token thresholds owner_type after acc (log, w) = Some (r, (log', w')) ->
    exists calls, quiet calls /\ log' = (log ++ calls)%list.
Proof.
  induction fuel as [| fuel IH];
    intros login token thresholds owner_type after acc log w r log' w';
    cbn [github_pages]; [discriminate |].
  unfold fetch_json, fetch at 1, recorded_fetch. cbn [fst snd].
  destruct (fetch_text _ _ _ w) as [text w1].
  set (log1 := (log ++ [Requested GITHUB_GRAPHQL_URL])%list).
  assert (Q : forall r0 : outcome (option (list Sponsor)),
             Some (r0, (log1, w1)) = Some (r, (log', w')) ->
             exists calls, quiet calls /\ log' = (log ++ calls)%list).
  { intros r0 H. injection H as _ <- _. exists [Requested GITHUB_GRAPHQL_URL].
    split; [repeat constructor | reflexivity]. }
  destruct (and_then (and_then text json_loads) _) as [[| found | next found] | e];
    try apply Q.
  intros H. apply IH in H. destruct H as [calls [Hq ->]].
  exists (Requested GITHUB_GRAPHQL_URL :: calls). split.
  - constructor; [reflexivity | exact Hq].
  - unfold log1. now rewrite <- app_assoc.
Qed.

Lemma github_owners_quiet (fuel : nat) (login token : string) (thresholds : Thresholds)
    (owner_types : list string) :
  forall log w r log' w',
    github_owners local_to_utc printed json_dumps json_loads (list event * world) fetch
      fuel login token thresholds owner_types (log, w) = Some (r, (log', w')) ->
    exists calls, quiet calls /\ log' = (log ++ calls)%list.
Proof.
  induction owner_types as [| owner_type rest IH]; intros log w r log' w';
    cbn [github_owners].
  - intros H. injection H as _ <- _. exists []. split; [constructor | now rewrite app_nil_r].
  - destruct (github_pages _ _ _ _ _ _ _ _ _ _ _ _ _ (log, w))
      as [[r1 [log1 w1]] |] eqn:E; [| discriminate].
    apply github_pages_quiet in E. destruct E as [calls [Hq ->]].
    destruct r1 as [[found |] | e].
    + intros H. injection H as _ <- _. now exists calls.
    + intros H. apply IH in H. destruct H as [calls' [Hq' ->]].
      exists (calls ++ calls')%list. split; [now apply quiet_app | now rewrite app_assoc].
    + intros H. injection H as _ <- _. now exists calls.
Qed.

Lemma fetch_liberapay_quiet (username : string) (thresholds : Thresholds)
    (log : list event) (w : world) (r : outcome (list Sponsor)) (log' : list event)
    (w' : world) :
  fetch_liberapay_sponsors local_to_utc (list event * world) fetch username thresholds
    (log, w) = (r, (log', w')) ->
  exists calls, quiet calls /\ log' = (log ++ calls)%list.
Proof.
  unfold fetch_liberapay_sponsors, fetch, recorded_fetch. cbn [fst snd].
  destruct (fetch_text _ _ _ w) as [text w1].
  intros H. injection H as _ <- _. eexists. split; [| reflexivity]. repeat constructor.
Qed.

(** X28.  The README is written by the last call of a run and by no other
    call: a run that ends with the status 0 has written it, and a run that
    ends otherwise has written nothing or was stopped by that writing. *)
Theorem script_writes_last (fuel : nat) (args : Args) (GITHUB_TOKEN : option string)
    (log : list event) (w : world) (e : ending) (log' : list event) (w' : world) :
  script local_to_utc printed json_dumps json_loads (list event * world)
    (recorded_fetch world fetch_text) (recorded_read world read_text)
    (recorded_write world write_text) fuel args GITHUB_TOKEN (log, w)
  = Some (e, (log', w')) ->
  exists calls,
    quiet calls /\
    ((e = Exit 0 EmptyString /\
      exists text, log' = (log ++ calls ++ [Written (readme args) text true])%list) \/
     ((forall stderr, e <> Exit 0 stderr) /\
      (log' = (log ++ calls)%list \/
       exists text, log' = (log ++ calls ++ [Written (readme args) text false])%list))).
Proof.
  unfold script.
  destruct (main _ _ _ _ _ _ _ _ _ _ _ _) as [[r [log1 w1]] |] eqn:M; [| discriminate].
  assert (R : exists calls,
             quiet calls /\
             ((r = Return 0 /\
               exists text, log1 = (log ++ calls ++ [Written (readme args) text true])%list) \/
              ((exists x, r = Throw x) /\
               (log1 = (log ++ calls)%list \/
                exists text,
                  log1 = (log ++ calls ++ [Written (readme args) text false])%list)))).
  { revert M. unfold main.
    destruct (build_thresholds (minimums args)) as [thresholds | x].
    2: { intros H. injection H as <- <- _. exists []. split; [constructor |].
         right. split; [eauto |]. left. now rewrite app_nil_r. }
    destruct (negb (Str.truthy _)).
    { intros H. injection H as <- <- _. exists []. split; [constructor |].
      right. split; [eauto |]. left. now rewrite app_nil_r. }
    unfold fetch_github_sponsors.
    destruct (github_owners _ _ _ _ _ _ _ _ _ _ _ (log, w)) as [[g [log2 w2]] |] eqn:G;
      [| discriminate].
    apply github_owners_quiet in G. destruct G as [c1 [Q1 ->]].
    destruct g as [github | x].
    2: { intros H. injection H as <- <- _. exists c1. split; [exact Q1 |].
         right. split; [eauto |]. now left. }
    assert (L : exists merged c2 w3,
               quiet c2 /\
               match liberapay_username args with
               | Some username =>
                   if Str.truthy username then
                     let (found, w2') :=
                       fetch_liberapay_sponsors local_to_utc (list event * world)
                         (recorded_fetch world fetch_text) username thresholds
                         ((log ++ c1)%list, w2) in
                     (found <~ found ;; Return (found ++ github)%list, w2')
                   else (Return github, ((log ++ c1)%list, w2))
               | None => (Return github, ((log ++ c1)%list, w2))
               end = (merged, ((log ++ c1 ++ c2)%list, w3))).
    { destruct (liberapay_username args) as [username |].
      - destruct (Str.truthy username).
        + destruct (fetch_liberapay_sponsors _ _ _ _ _ _) as [found [log3 w3]] eqn:F.
          apply fetch_liberapay_quiet in F. destruct F as [c2 [Q2 ->]].
          eexists _, c2, w3. split; [exact Q2 |]. now rewrite app_assoc.
        + eexists _, [], w2. split; [constructor |]. now rewrite app_nil_r.
      - eexists _, [], w2. split; [constructor |]. now rewrite app_nil_r. }
    destruct L as [merged [c2 [w3 [Q2 ->]]]].
    destruct merged as [sponsors | x].
    2: { intros H. injection H as <- <- _. exists (c1 ++ c2)%list.
         split; [now apply quiet_app |]. right. split; [eauto |]. left.
         reflexivity. }
    unfold recorded_read at 1. cbn [fst snd].
    destruct (read_text (readme args) w3) as [text w4].
    set (c3 := (c1 ++ c2 ++ [Opened (readme args)])%list).
    assert (Q3 : quiet c3).
    { unfold c3. apply quiet_app; [exact Q1 |]. apply quiet_app; [exact Q2 |].
      repeat constructor. }
    assert (E3 : ((log ++ c1 ++ c2) ++ [Opened (readme args)] = log ++ c3)%list).
    { unfold c3. now rewrite <- !app_assoc. }
    rewrite E3.
    destruct (and_then text _) as [updated | x].
    2: { intros H. injection H as <- <- _. exists c3. split; [exact Q3 |].
         right. split; [eauto |]. now left. }
    unfold recorded_write. cbn [fst snd].
    destruct (write_text (readme args) updated w4) as [[[] | x] w5];
      cbn [succeeded and_then]; intros H; injection H as <- <- _; exists c3;
      (split; [exact Q3 |]).
    - left. split; [reflexivity |]. exists updated. now rewrite <- app_assoc.
    - right. split; [eauto |]. right. exists updated. now rewrite <- app_assoc. }
  destruct R as [calls [Q [[-> [text ->]] | [[x ->] H]]]].
  - intros E. injection E as <- <- _. exists calls. split; [exact Q |]. left.
    split; [reflexivity | now exists text].
  - intros E. exists calls. split; [exact Q |]. right.
    assert (S : log' = log1 /\ forall stderr, e <> Exit 0 stderr).
    { destruct x as [[] | | | | |]; injection E as <- <- _; split; try reflexivity;
        intros stderr; discriminate. }
    destruct S as [-> S]. split; [exact S | exact H].
Qed.

End RecordedFacts.

(** ** A sample run *)

Lemma fetch_liberapay_export_witness :
  fetch_liberapay_sponsors utc_machine sample_world sample_fetch_text "hcloud-k8s"
    sample_thresholds sample_start
  = (lift (liberapay_rows utc_machine sample_thresholds
             [Csv.zip_row sample_columns sample_patron []]), sample_start) /\
  row_get (Csv.zip_row sample_columns sample_patron []) "patron_public_name"
  = Some "Alice, A.".
Proof.
  destruct (fetch_liberapay_export utc_machine sample_world sample_fetch_text "hcloud-k8s"
              sample_thresholds sample_start sample_start
              (String Csv.linefeed EmptyString) sample_columns [sample_patron])
    as [E C].
  - now left.
  - split; [discriminate |].
    repeat (constructor; [vm_compute; discriminate |]). constructor.
  - constructor; [| constructor]. split; [discriminate |].
    repeat (constructor; [vm_compute; discriminate |]). constructor.
  - reflexivity.
  - split; [exact E |].
    apply (C ltac:(repeat constructor; cbn; intuition discriminate) sample_patron
             "patron_public_name").
    cbn. tauto.
Defined.

Lemma github_pagination_witness :
  exists sponsors,
    github_nodes utc_machine sample_thresholds [named_node "The Octocat"; hubot_node]
    = Ok sponsors /\
    fetch_github_sponsors utc_machine sample_printed sample_dumps sample_loads sample_world
      sample_fetch_text 3 "hcloud-k8s" "token" sample_thresholds sample_start
    = Some (Return sponsors, {| answered := 3; document := sample_document |}).
Proof.
  eexists. split; [vm_compute; reflexivity |].
  pose proof (github_pagination utc_machine sample_printed sample_dumps sample_loads
                sample_world sample_fetch_text "hcloud-k8s" "token" sample_thresholds 3
                sample_start) as P.
  cbv zeta in P. destruct P as [_ [P _]].
  apply (P {| answered := 1; document := sample_document |}
           [[named_node "The Octocat"]; [hubot_node]]).
  - exists sample_not_found. split; [reflexivity |]. left.
    unfold is_not_found. do 2 eexists.
    split; [reflexivity |]. split; [reflexivity |]. split; [discriminate |].
    constructor; [| constructor]. eexists. split; reflexivity.
  - apply served_next
      with (response := sample_page "user" [named_node "The Octocat"] (JBool true) (JStr "Mg"))
           (has_next := JBool true) (end_cursor := JStr "Mg")
           (w1 := {| answered := 2; document := sample_document |}).
    + reflexivity.
    + unfold is_page. do 5 eexists. repeat (split; [reflexivity |]). reflexivity.
    + reflexivity.
    + apply served_last
        with (response := sample_page "user" [hubot_node] (JBool false) JNull)
             (has_next := JBool false) (end_cursor := JNull).
      * reflexivity.
      * unfold is_page. do 5 eexists. repeat (split; [reflexivity |]). reflexivity.
      * reflexivity.
  - vm_compute. reflexivity.
  - cbn. lia.
Defined.

Lemma fetch_github_sponsors_sound_witness :
  exists sponsors w',
    fetch_github_sponsors utc_machine sample_printed sample_dumps sample_loads sample_world
      sample_fetch_text 3 "hcloud-k8s" "token" sample_thresholds sample_start
    = Some (Return sponsors, w') /\
    List.length sponsors = 2%nat /\
    Forall (fun s => platform s = "github" /\ currency s = "USD") sponsors.
Proof.
  do 2 eexists. split; [vm_compute; reflexivity |]. split; [reflexivity |].
  eapply Forall_impl;
    [| eapply (fetch_github_sponsors_sound utc_machine sample_printed sample_dumps
                sample_loads sample_world sample_fetch_text "hcloud-k8s" "token"
                sample_thresholds 3 sample_start); vm_compute; reflexivity].
  intros s [_ [Hp [Hc _]]]. now split.
Defined.

Lemma update_readme_regions_witness :
  update_readme sample_document [sample_sponsor "Hubot"] [sample_sponsor "The Octocat"]
  = Ok ("# Sponsors " ++ HIGHLIGHTED
        ++ render_all [sample_sponsor "Hubot"] HIGHLIGHTED_WIDTH ++ HIGHLIGHTED ++ " and "
        ++ REGULAR ++ render_all [sample_sponsor "The Octocat"] REGULAR_WIDTH ++ REGULAR
        ++ " end").
Proof.
  destruct (update_readme_regions [sample_sponsor "Hubot"] [sample_sponsor "The Octocat"]
              "# Sponsors " "old" " and " "old" " end") as [E _].
  - repeat constructor.
  - repeat constructor.
  - apply E; reflexivity.
Defined.

Lemma main_run_witness :
  exists github patrons,
    List.length github = 2%nat /\ List.length patrons = 1%nat /\
    main utc_machine sample_printed sample_dumps sample_loads sample_world sample_fetch_text
      sample_read sample_write 3 sample_args (Some "token") sample_start
    = Some (Return 0,
            {| answered := 3;
               document :=
                 "# Sponsors " ++ HIGHLIGHTED
                 ++ render_all (with_tier "highlighted" (patrons ++ github)) HIGHLIGHTED_WIDTH
                 ++ HIGHLIGHTED ++ " and " ++ REGULAR
                 ++ render_all (with_tier "regular" (patrons ++ github)) REGULAR_WIDTH
                 ++ REGULAR ++ " end" |}).
Proof.
  pose proof (main_run utc_machine sample_printed sample_dumps sample_loads sample_world
                sample_fetch_text sample_read sample_write 3 sample_args (Some "token")
                sample_start) as M.
  cbv zeta in M. destruct M as [_ [_ M]].
  do 2 eexists. split; [| split]; cycle 2.
  - refine (eq_trans (M sample_thresholds _ _ {| answered := 3; document := sample_document |}
                        {| answered := 3; document := sample_document |}
                        {| answered := 3; document := sample_document |}
                        "# Sponsors " "old" " and " "old" " end"
                        eq_refl eq_refl _ _ eq_refl eq_refl eq_refl eq_refl eq_refl eq_refl _)
                     eq_refl).
    + vm_compute. reflexivity.
    + vm_compute. reflexivity.
    + repeat constructor.
  - reflexivity.
  - reflexivity.
Defined.

Lemma script_writes_last_witness :
  exists log' w',
    script utc_machine sample_printed sample_dumps sample_loads (list event * sample_world)
      (recorded_fetch sample_world sample_fetch_text)
      (recorded_read sample_world sample_read)
      (recorded_write sample_world sample_write)
      3 sample_args (Some "token") ([], sample_start)
    = Some (Exit 0 EmptyString, (log', w')) /\
    exists calls text,
      quiet calls /\ log' = (calls ++ [Written "README.md" text true])%list.
Proof.
  assert (H : exists log' w',
             script utc_machine sample_printed sample_dumps sample_loads
               (list event * sample_world)
               (recorded_fetch sample_world sample_fetch_text)
               (recorded_read sample_world sample_read)
               (recorded_write sample_world sample_write)
               3 sample_args (Some "token") ([], sample_start)
             = Some (Exit 0 EmptyString, (log', w')))
    by (do 2 eexists; vm_compute; reflexivity).
  destruct H as [log' [w' H]]. exists log', w'. split; [exact H |].
  destruct (script_writes_last utc_machine sample_printed sample_dumps sample_loads
              sample_world sample_fetch_text sample_read sample_write 3 sample_args
              (Some "token") [] sample_start (Exit 0 EmptyString) log' w' H)
    as [calls [Q [[_ [text E]] | [N _]]]].
  - exists calls, text. split; [exact Q | exact E].
  - destruct (N EmptyString eq_refl).
Defined.

Lemma fetch_liberapay_sponsors_sound_witness :
  exists sponsors,
    fetch_liberapay_sponsors utc_machine sample_world sample_fetch_text "hcloud-k8s"
      sample_thresholds sample_start = (Return sponsors, sample_start) /\
    List.length sponsors = 1%nat /\
    Forall (fun s => platform s = "liberapay" /\
                     (currency s = "USD" \/ currency s = "EUR")) sponsors.
Proof.
  eexists. split; [vm_compute; reflexivity |]. split; [reflexivity |].
  edestruct (fetch_liberapay_sponsors_sound utc_machine sample_world sample_fetch_text
               "hcloud-k8s" sample_thresholds sample_start sample_start)
    as [csv_data [rows [_ [_ [_ F]]]]]; [vm_compute; reflexivity |].
  eapply Forall_impl; [| exact F]. intros s [_ [Hp [Hc _]]]. now split.
Defined.

Lemma github_errors_witness :
  fetch_github_sponsors utc_machine sample_printed sample_dumps failing_loads sample_world
    failing_fetch_text 3 "hcloud-k8s" "token" sample_thresholds sample_start
  = Some (Throw (Core (RuntimeError "GitHub GraphQL query failed: []")),
          {| answered := 1; document := sample_document |}).
Proof.
  pose proof (github_errors utc_machine sample_printed sample_dumps failing_loads
                sample_world failing_fetch_text "hcloud-k8s" "token" sample_thresholds 3
                sample_start) as G.
  cbv zeta in G. destruct G as [G _].
  apply (G sample_failure
           [JObject [("type", JStr "NOT_FOUND")]; JObject [("type", JStr "FORBIDDEN")]]).
  - reflexivity.
  - eexists. split; [reflexivity |]. split; [reflexivity |]. split.
    + repeat constructor; eexists; split; reflexivity.
    + right. left. eexists. split; reflexivity.
  - lia.
Defined.
